(** * Dinner groups: a shallow embedding of the restaurant service

    Sources embedded here:
    - [app/utils/restaurants.server.ts]  (join / leave / restaurant details)
    - [app/utils/providers/google-places.server.ts]  (nearby search + details)
    - [app/routes/users+/$username_+/restaurants.tsx]  (loader: split, filter, sort)

    Conventions.  Prisma tables are lists of rows in insertion order; a row
    identifier (cuid) is a natural number drawn from a counter that never
    goes back.  Asynchronous code is run sequentially, one call after the
    other.  A thrown exception is the left injection of the result and never
    rolls the store back, as no call is wrapped in a transaction. *)

From Stdlib Require Import ZArith QArith Qround Qabs List String Ascii Lia Lqa Bool Sorted Permutation.
From stdpp Require Import gmap strings.
Import ListNotations.

#[local] Open Scope string_scope.
#[local] Open Scope nat_scope.

(* ===================================================================== *)
(** ** Exceptions and the store-passing monad *)

Inductive error : Type :=
| RecordNotFound            (* Prisma P2025: delete of a row that is absent *)
| UniqueConstraint          (* Prisma P2002 *)
| ForeignKeyConstraint      (* Prisma P2003 *)
| TypeError                 (* property read on null / undefined *)
| InvariantError (msg : string)
| PlacesApiError (status : string)
| FetchError.               (* fetch() or json() rejected *)

Definition result (A : Type) : Type := (error + A)%type.

Definition M (S A : Type) : Type := S -> S * result A.

Definition ret {S A} (a : A) : M S A := fun s => (s, inr a).
Definition throw {S A} (e : error) : M S A := fun s => (s, inl e).
Definition bind {S A B} (m : M S A) (k : A -> M S B) : M S B :=
  fun s => match m s with
           | (s', inr a) => k a s'
           | (s', inl e) => (s', inl e)
           end.
Definition gets {S A} (f : S -> A) : M S A := fun s => (s, inr (f s)).
Definition modify {S} (f : S -> S) : M S unit := fun s => (f s, inr tt).

Declare Scope monad_scope.
Delimit Scope monad_scope with monad.
Notation "x <- m ;; k" := (bind m (fun x => k))
  (at level 100, m at next level, right associativity) : monad_scope.
Notation "m ;;; k" := (bind m (fun _ => k))
  (at level 100, right associativity) : monad_scope.

(* ===================================================================== *)
(** ** Data model (Prisma schema as the queries use it) *)

(** JavaScript numbers are modelled by rationals: every finite double is
    one, and [<], [>], [===] and the sign of a difference agree with the
    rational order.  NaN and the infinities are left out. *)
Definition number : Type := Q.

Record Restaurant : Type := mkRestaurant {
  id : string;                       (* provider-assigned place id *)
  name : string;
  priceLevel : option number;
  rating : option number;
  lat : number;
  lng : number;
  photoRef : option string;
  mapsUrl : string
}.

Record DinnerGroup : Type := mkDinnerGroup {
  dg_id : nat;
  dg_restaurantId : string            (* unique: queried with findUnique *)
}.

Record Attendee : Type := mkAttendee {
  at_id : nat;
  at_userId : string;
  at_dinnerGroupId : nat              (* relation to DinnerGroup *)
}.

Record Db : Type := mkDb {
  restaurants : list Restaurant;
  dinnerGroups : list DinnerGroup;
  attendees : list Attendee;
  nextId : nat
}.

Definition emptyDb : Db :=
  {| restaurants := []; dinnerGroups := []; attendees := []; nextId := 0 |}.

(* ===================================================================== *)
(** ** The Prisma queries that the service issues *)

Module prisma.

Definition userIs (u : string) (a : Attendee) : bool := String.eqb (at_userId a) u.
Definition inGroup (g : nat) (a : Attendee) : bool := Nat.eqb (at_dinnerGroupId a) g.
Definition groupIdIs (g : nat) (d : DinnerGroup) : bool := Nat.eqb (dg_id d) g.
Definition restaurantIs (r : string) (d : DinnerGroup) : bool :=
  String.eqb (dg_restaurantId d) r.

(** [attendee.findFirst({ where: { userId } })] *)
Definition attendee_findFirst (u : string) : M Db (option Attendee) :=
  gets (fun db => List.find (userIs u) (attendees db)).

(** the [dinnerGroup] relation loaded by [include] / [select] *)
Definition attendee_dinnerGroup (a : Attendee) : M Db (option DinnerGroup) :=
  gets (fun db => List.find (groupIdIs (at_dinnerGroupId a)) (dinnerGroups db)).

(** [attendee.delete({ where: { id } })] *)
Definition attendee_delete (i : nat) : M Db unit :=
  fun db =>
    if List.existsb (fun a => Nat.eqb (at_id a) i) (attendees db)
    then (mkDb (restaurants db) (dinnerGroups db)
               (List.filter (fun a => negb (Nat.eqb (at_id a) i)) (attendees db))
               (nextId db), inr tt)
    else (db, inl RecordNotFound).

(** [attendee.count({ where: { dinnerGroupId } })] *)
Definition attendee_count (g : nat) : M Db nat :=
  gets (fun db => List.length (List.filter (inGroup g) (attendees db))).

(** [attendee.create({ data: { userId, dinnerGroupId } })] *)
Definition attendee_create (u : string) (g : nat) : M Db Attendee :=
  fun db =>
    if List.existsb (groupIdIs g) (dinnerGroups db)
    then let a := mkAttendee (nextId db) u g in
         (mkDb (restaurants db) (dinnerGroups db) (attendees db ++ [a])
               (S (nextId db)), inr a)
    else (db, inl ForeignKeyConstraint).

(** [dinnerGroup.findUnique({ where: { restaurantId } })] *)
Definition dinnerGroup_findUnique (r : string) : M Db (option DinnerGroup) :=
  gets (fun db => List.find (restaurantIs r) (dinnerGroups db)).

(** [dinnerGroup.create({ data: { restaurantId } })] *)
Definition dinnerGroup_create (r : string) : M Db DinnerGroup :=
  fun db =>
    if List.existsb (restaurantIs r) (dinnerGroups db)
    then (db, inl UniqueConstraint)
    else let g := mkDinnerGroup (nextId db) r in
         (mkDb (restaurants db) (dinnerGroups db ++ [g]) (attendees db)
               (S (nextId db)), inr g).

(** [dinnerGroup.delete({ where: { id } })]; the service only ever deletes
    a group it has just counted as empty. *)
Definition dinnerGroup_delete (g : nat) : M Db unit :=
  fun db =>
    if List.existsb (groupIdIs g) (dinnerGroups db)
    then (mkDb (restaurants db)
               (List.filter (fun d => negb (groupIdIs g d)) (dinnerGroups db))
               (attendees db) (nextId db), inr tt)
    else (db, inl RecordNotFound).

End prisma.

(* ===================================================================== *)
(** ** restaurants.server.ts: membership transitions *)

#[local] Open Scope monad_scope.

(** [leaveDinnerGroup({ userId })]; [None] is JavaScript's [null]. *)
Definition leaveDinnerGroup (userId : string) : M Db (option string) :=
  attendee <- prisma.attendee_findFirst userId ;;
  match attendee with
  | None => ret None
  | Some attendee =>
      dinnerGroup <- prisma.attendee_dinnerGroup attendee ;;
      prisma.attendee_delete (at_id attendee) ;;;
      remainingAttendees <- prisma.attendee_count (at_dinnerGroupId attendee) ;;
      (if Nat.eqb remainingAttendees 0
       then prisma.dinnerGroup_delete (at_dinnerGroupId attendee)
       else ret tt) ;;;
      match dinnerGroup with
      | Some g => ret (Some (dg_restaurantId g))
      | None => throw TypeError
      end
  end.

(** [joinDinnerGroup({ userId, restaurantId })] *)
Definition joinDinnerGroup (userId restaurantId : string) : M Db Attendee :=
  leaveDinnerGroup userId ;;;
  found <- prisma.dinnerGroup_findUnique restaurantId ;;
  dinnerGroup <- match found with
                 | Some g => ret g
                 | None => prisma.dinnerGroup_create restaurantId
                 end ;;
  prisma.attendee_create userId (dg_id dinnerGroup).

(* ===================================================================== *)
(** ** Template literals: [`${x}`] on a number

    [Number::toString] for a number whose decimal expansion ends within
    [fracFuel] digits and whose size lies in the range printed without an
    exponent (0, or from 1e-6 up to 1e21 in absolute value): sign, integer
    part, then the fraction digits after a dot.  Outside this range the
    definition is not the code's. *)

Definition digitToString (d : Z) : string :=
  String (ascii_of_nat (48 + Z.to_nat d)) EmptyString.

Fixpoint natToString_aux (fuel : nat) (n : Z) (acc : string) : string :=
  match fuel with
  | O => acc
  | S fuel' =>
      let acc' := digitToString (n mod 10) ++ acc in
      if (n / 10 =? 0)%Z then acc' else natToString_aux fuel' (n / 10) acc'
  end.

Definition intToString (n : Z) : string :=
  natToString_aux (S (Z.to_nat (Z.log2 n))) n "".

Fixpoint fracDigits (fuel : nat) (r d : Z) : string :=
  match fuel with
  | O => ""
  | S fuel' =>
      if (r =? 0)%Z then ""
      else digitToString (10 * r / d) ++ fracDigits fuel' ((10 * r) mod d) d
  end.

Definition fracFuel : nat := 20.

Definition numberToString (x : number) : string :=
  let d := Z.pos (Qden x) in
  let a := Z.abs (Qnum x) in
  (if (Qnum x <? 0)%Z then "-" else "")
  ++ intToString (a / d)
  ++ (if (a mod d =? 0)%Z then "" else "." ++ fracDigits fracFuel (a mod d) d).

Definition isSome {A} (o : option A) : bool :=
  match o with Some _ => true | None => false end.

(** JavaScript truthiness of the values the code tests. *)
Definition truthyNumber (x : number) : bool := negb (Qeq_bool x 0).
Definition truthyString (s : string) : bool := negb (String.eqb s "").

(* ===================================================================== *)
(** ** providers/google-places.server.ts *)

Record Location : Type := mkLocation { loc_lat : number; loc_lng : number }.

Record NearbyPlace : Type := mkNearbyPlace {
  place_id : string;
  np_name : string;
  vicinity : string;
  types : list string;
  np_geometry : Location
}.

Record GooglePlacesNearbyResponse : Type := mkNearbyResponse {
  nr_status : string;
  nr_error_message : option string;
  nr_results : option (list NearbyPlace)
}.

Record Photo : Type := mkPhoto {
  photo_reference : string;
  width : number;
  height : number
}.

Record PlaceResult : Type := mkPlaceResult {
  pr_place_id : string;
  pr_name : string;
  price_level : option number;
  pr_rating : option number;
  pr_geometry : Location;
  photos : option (list Photo);
  url : option string
}.

Record GooglePlacesDetailsResponse : Type := mkDetailsResponse {
  dr_status : string;
  dr_error_message : option string;
  dr_result : option PlaceResult
}.

(** What the outside world answers: the environment variable and the two
    endpoints, each a function of the request parameters the code sends.
    A rejected [fetch] or [json()] is the left injection. *)
Record Places : Type := mkPlaces {
  GOOGLE_PLACES_API_KEY : option string;
  nearbysearch : number -> number -> number -> string -> result GooglePlacesNearbyResponse;
  details : string -> string -> result GooglePlacesDetailsResponse
}.

(** [invariant(condition, message)] of @epic-web/invariant *)
Definition invariant (condition : option string) (message : string) : result string :=
  match condition with
  | Some v => if truthyString v then inr v else inl (InvariantError message)
  | None => inl (InvariantError message)
  end.

(** [Promise.all]: every fulfilled value in order, or a rejection. *)
Fixpoint Promise_all {A} (ps : list (result A)) : result (list A) :=
  match ps with
  | [] => inr []
  | inl e :: _ => inl e
  | inr a :: ps' =>
      match Promise_all ps' with
      | inl e => inl e
      | inr l => inr (a :: l)
      end
  end.

(** [xs.filter(Boolean)] on an array of objects and nulls *)
Fixpoint filterBoolean {A} (xs : list (option A)) : list A :=
  match xs with
  | [] => []
  | Some a :: xs' => a :: filterBoolean xs'
  | None :: xs' => filterBoolean xs'
  end.

(** [result.photos?.[0]?.photo_reference] *)
Definition firstPhotoReference (r : PlaceResult) : option string :=
  match photos r with
  | Some (p :: _) => Some (photo_reference p)
  | _ => None
  end.

(** [result.url || `https://maps.google.com/?q=${lat},${lng}`] *)
Definition mapsUrlOf (r : PlaceResult) : string :=
  match url r with
  | Some u => if truthyString u then u else
      "https://maps.google.com/?q=" ++ numberToString (loc_lat (pr_geometry r))
        ++ "," ++ numberToString (loc_lng (pr_geometry r))
  | None =>
      "https://maps.google.com/?q=" ++ numberToString (loc_lat (pr_geometry r))
        ++ "," ++ numberToString (loc_lng (pr_geometry r))
  end.

(** The record built from a details result (lines 109-118). *)
Definition toNearbyRestaurant (r : PlaceResult) : Restaurant :=
  {| id := pr_place_id r;
     name := pr_name r;
     priceLevel := price_level r;
     rating := pr_rating r;
     lat := loc_lat (pr_geometry r);
     lng := loc_lng (pr_geometry r);
     photoRef := firstPhotoReference r;
     mapsUrl := mapsUrlOf r |}.

(** The body of the [map] callback: one details call for one place. *)
Definition placeDetails (env : Places) (apiKey : string) (place : NearbyPlace)
  : result (option Restaurant) :=
  match details env (place_id place) apiKey with
  | inl e => inl e
  | inr detailsData =>
      if negb (String.eqb (dr_status detailsData) "OK")
         || negb (isSome (dr_result detailsData))
      then inr None
      else match dr_result detailsData with
           | Some r => inr (Some (toNearbyRestaurant r))
           | None => inl TypeError
           end
  end.

(** [!nearbyData.results?.length] *)
Definition noResults (d : GooglePlacesNearbyResponse) : bool :=
  match nr_results d with
  | Some (_ :: _) => false
  | _ => true
  end.

Definition getNearbyRestaurants (env : Places) (lat lng radius : number)
  : result (list Restaurant) :=
  match invariant (GOOGLE_PLACES_API_KEY env) "GOOGLE_PLACES_API_KEY must be set" with
  | inl e => inl e
  | inr apiKey =>
      match nearbysearch env lat lng radius apiKey with
      | inl e => inl e
      | inr nearbyData =>
          if negb (String.eqb (nr_status nearbyData) "OK")
             && negb (String.eqb (nr_status nearbyData) "ZERO_RESULTS")
          then inl (PlacesApiError (nr_status nearbyData))
          else if String.eqb (nr_status nearbyData) "ZERO_RESULTS" || noResults nearbyData
          then inr []
          else
            match Promise_all (List.map (placeDetails env apiKey)
                                        (default [] (nr_results nearbyData))) with
            | inl e => inl e
            | inr restaurantsWithDetails => inr (filterBoolean restaurantsWithDetails)
            end
      end
  end.

(* ===================================================================== *)
(** ** cache.server.ts *)

Record CacheEntry : Type := mkCacheEntry {
  value : list Restaurant;
  createdTime : Z;                   (* milliseconds *)
  entry_ttl : Z
}.

(** The server process: the relational store and the in-process cache. *)
Record Server : Type := mkServer {
  db : Db;
  lruCache : gmap string CacheEntry
}.

Definition emptyServer : Server := {| db := emptyDb; lruCache := ∅ |}.

Definition liftDb {A} (m : M Db A) : M Server A :=
  fun s => let '(d, r) := m (db s) in (mkServer d (lruCache s), r).

(** Modelled from the spec: [cachified] and [lruCache] of cache.server.ts,
    which is not among the sources.  The spec calls it a generic
    TTL-memoization wrapper: an entry stored under [key] at time [t] with
    time-to-live [ttl] answers every call with that key up to [t + ttl];
    otherwise [getFreshValue] runs and its value is stored.  Eviction by
    the LRU bound is left out; a rejected [getFreshValue] stores nothing. *)
Definition cachified (now : Z) (key : string) (ttl : Z)
    (getFreshValue : M Server (list Restaurant)) : M Server (list Restaurant) :=
  cached <- gets (fun s => lruCache s !! key) ;;
  match cached with
  | Some e =>
      if (now <=? createdTime e + entry_ttl e)%Z then ret (value e)
      else fresh <- getFreshValue ;;
           modify (fun s => mkServer (db s) (<[key := mkCacheEntry fresh now ttl]> (lruCache s))) ;;;
           ret fresh
  | None =>
      fresh <- getFreshValue ;;
      modify (fun s => mkServer (db s) (<[key := mkCacheEntry fresh now ttl]> (lruCache s))) ;;;
      ret fresh
  end.

(* ===================================================================== *)
(** ** restaurants.server.ts: the merged restaurant view *)

Definition RESTAURANT_CACHE_TTL : Z := 1000 * 60 * 60 * 24.
Definition ATTENDANCE_CACHE_TTL : Z := 1000 * 15.

(** The declared type [RestaurantWithDetails]: [attendeeCount] is a number. *)
Record RestaurantWithDetails : Type := mkDetails {
  restaurant : Restaurant;           (* the spread [...restaurant] *)
  distance : number;
  attendeeCount : nat;               (* a row count *)
  isUserAttending : bool
}.

(** The names every object inherits from [Object.prototype].  Each is
    bound to a function, and [__proto__] reads as the prototype itself, so
    all of them are truthy. *)
Definition objectPrototypeMembers : list string :=
  ["constructor"; "__defineGetter__"; "__defineSetter__"; "hasOwnProperty";
   "__lookupGetter__"; "__lookupSetter__"; "isPrototypeOf"; "propertyIsEnumerable";
   "toString"; "valueOf"; "__proto__"; "toLocaleString"].

Definition inherited (key : string) : bool :=
  List.existsb (String.eqb key) objectPrototypeMembers.

(** [acc[key] = n] on an object created by [{}], as a map over its own
    keys.  Assigning a number to [__proto__] runs the inherited setter,
    which ignores a value that is not an object: no own key is made. *)
Definition objectSet (key : string) (n : nat) (acc : gmap string nat) : gmap string nat :=
  if String.eqb key "__proto__" then acc else <[key := n]> acc.

(** What [attendeeCounts[id] || 0] evaluates to: a number, or the member
    of [Object.prototype] that the lookup found. *)
Inductive CountValue : Type :=
| Count (n : nat)
| InheritedMember (key : string).

(** [counts[key] || 0]: the own entry when there is one (0 when it is 0),
    else the inherited member when [key] names one, else 0 for
    [undefined]. *)
Definition countOrZero (counts : gmap string nat) (key : string) : CountValue :=
  match counts !! key with
  | Some c => Count (if Nat.eqb c 0 then 0 else c)
  | None => if inherited key then InheritedMember key else Count 0
  end.

(** An element of the array [getAllRestaurantDetails] returns, as it is at
    run time: the declared fields, with whatever the count lookup gave. *)
Record DetailsValue : Type := mkDetailsValue {
  v_restaurant : Restaurant;
  v_distance : number;
  v_attendeeCount : CountValue;
  v_isUserAttending : bool
}.

(** The two tests the loader makes on [attendeeCount].  [x > 0] converts
    [x] to a number first: a function or the prototype object converts to
    NaN, and [NaN > 0] is false. *)
Definition greaterThanZero (x : CountValue) : bool :=
  match x with
  | Count n => Nat.ltb 0 n
  | InheritedMember _ => false
  end.

(** A run-time element read at the declared type.  The loader reads
    [attendeeCount] in [r.attendeeCount > 0] only, and in a subtraction
    between elements that passed this test; a value that is not a number
    fails the test like 0 does, and is read as 0 here. *)
Definition declared (v : DetailsValue) : RestaurantWithDetails :=
  {| restaurant := v_restaurant v;
     distance := v_distance v;
     attendeeCount := match v_attendeeCount v with
                      | Count n => n
                      | InheritedMember _ => 0
                      end;
     isUserAttending := v_isUserAttending v |}.

Module prisma_restaurant.

(** The [update] data of the upsert applied to the stored row [x]: name,
    coordinates and maps URL are always given; priceLevel, rating and
    photoRef are [undefined] when the provider omits them, and Prisma
    leaves a column as it is on [undefined]. *)
Definition updateRow (x r : Restaurant) : Restaurant :=
  {| id := id x;
     name := name r;
     priceLevel := match priceLevel r with Some v => Some v | None => priceLevel x end;
     rating := match rating r with Some v => Some v | None => rating x end;
     lat := lat r;
     lng := lng r;
     photoRef := match photoRef r with Some v => Some v | None => photoRef x end;
     mapsUrl := mapsUrl r |}.

(** [restaurant.upsert({ where: { id }, update, create })]: the row that
    is stored afterwards is returned. *)
Definition upsert (r : Restaurant) : M Db Restaurant :=
  fun d =>
    match List.find (fun x => String.eqb (id x) (id r)) (restaurants d) with
    | Some x =>
        (mkDb (List.map (fun y => if String.eqb (id y) (id r) then updateRow y r else y)
                        (restaurants d))
              (dinnerGroups d) (attendees d) (nextId d), inr (updateRow x r))
    | None =>
        (mkDb (restaurants d ++ [r]) (dinnerGroups d) (attendees d) (nextId d), inr r)
    end.

(** [dinnerGroup.findMany({ where: { restaurantId: { in } },
      include: { _count: { select: { attendees: true } } } })] *)
Definition dinnerGroup_findMany (restaurantIds : list string)
  : M Db (list (DinnerGroup * nat)) :=
  gets (fun d =>
    List.map (fun g => (g, List.length (List.filter (prisma.inGroup (dg_id g)) (attendees d))))
      (List.filter (fun g => List.existsb (String.eqb (dg_restaurantId g)) restaurantIds)
         (dinnerGroups d))).

End prisma_restaurant.

(** [Promise.all(xs.map(async x => f x))], one call after the other *)
Fixpoint mapM {S A B} (f : A -> M S B) (xs : list A) : M S (list B) :=
  match xs with
  | [] => ret []
  | x :: xs' => y <- f x ;; ys <- mapM f xs' ;; ret (y :: ys)
  end.

Definition fetchAndUpsertRestaurants (env : Places) (lat lng radius : number)
  : M Server (list Restaurant) :=
  fun s =>
    match getNearbyRestaurants env lat lng radius with
    | inl e => (s, inl e)
    | inr rs => liftDb (mapM prisma_restaurant.upsert rs) s
    end.

(** [getAttendeeCounts]: the object built by [reduce] from [{}], as a
    finite map over its own keys. *)
Definition getAttendeeCounts (restaurantIds : list string) : M Db (gmap string nat) :=
  dinnerGroups <- prisma_restaurant.dinnerGroup_findMany restaurantIds ;;
  ret (List.fold_left
         (fun (counts : gmap string nat) (group : DinnerGroup * nat) =>
            objectSet (dg_restaurantId (fst group)) (snd group) counts)
         dinnerGroups ∅).

(** [getUserAttendingRestaurant]: null, or the attendee's selected
    [dinnerGroup.restaurantId]. *)
Definition getUserAttendingRestaurant (userId : string) : M Db (option (option string)) :=
  attendee <- prisma.attendee_findFirst userId ;;
  match attendee with
  | None => ret None
  | Some a =>
      g <- prisma.attendee_dinnerGroup a ;;
      ret (Some (option_map dg_restaurantId g))
  end.

(** The cache key [`restaurants-${lat}-${lng}-${radius}`] *)
Definition cacheKey (lat lng radius : number) : string :=
  "restaurants-" ++ numberToString lat ++ "-" ++ numberToString lng
    ++ "-" ++ numberToString radius.

(** The [cachified] call of [getAllRestaurantDetails] (lines 96-104). *)
Definition getCachedRestaurants (env : Places) (now : Z) (lat lng radius : number)
  : M Server (list Restaurant) :=
  cachified now (cacheKey lat lng radius) RESTAURANT_CACHE_TTL
    (fetchAndUpsertRestaurants env lat lng radius).

(** Rounding to a number of decimals, half away from zero: a reading of
    the "rounded location" of the specification.  The code has no such
    step. *)
Definition roundTo (decimals : nat) (x : number) : number :=
  let scale := inject_Z (10 ^ Z.of_nat decimals) in
  let n := Qfloor (Qabs x * scale + (1 # 2)) in
  ((if Qle_bool 0 x then 1 else -1) * (inject_Z n / scale))%Q.

Section Details.

(** [calculateDistance] is double-precision haversine arithmetic
    ([Math.sin], [Math.cos], [Math.atan2], [Math.sqrt], [toFixed]); the
    merged view only stores its value, so it is a parameter here. *)
Variable calculateDistance : number -> number -> number -> number -> number.

(** The callback of the final [map] (lines 111-122). *)
Definition withDetails (lat0 lng0 : number) (userAttendance : option (option string))
    (attendeeCounts : gmap string nat) (r : Restaurant) : DetailsValue :=
  {| v_restaurant := r;
     v_distance := calculateDistance lat0 lng0 (lat r) (lng r);
     v_attendeeCount := countOrZero attendeeCounts (id r);
     v_isUserAttending :=
       match userAttendance with
       | Some (Some restaurantId) => String.eqb restaurantId (id r)
       | _ => false
       end |}.

Definition getAllRestaurantDetails (env : Places) (now : Z)
    (lat lng : number) (userId : string) (radius : number)
  : M Server (list DetailsValue) :=
  userAttendance <- liftDb (getUserAttendingRestaurant userId) ;;
  restaurants <- getCachedRestaurants env now lat lng radius ;;
  attendeeCounts <- liftDb (getAttendeeCounts (List.map id restaurants)) ;;
  ret (List.map (withDetails lat lng userAttendance attendeeCounts) restaurants).

End Details.

(* ===================================================================== *)
(** ** routes/users+/$username_+/restaurants.tsx: the loader *)

(** One query parameter after [url.searchParams.get(k) ?? undefined] and
    the coercion [Number(...)] of [z.coerce.number()]. *)
Inductive coerced : Type :=
| Undefined                          (* the parameter is absent *)
| NotANumber                         (* coerced to NaN or an infinity *)
| Num (x : number).

Record Query : Type := mkQuery {
  q_distance : coerced;
  q_rating : coerced;
  q_price : coerced
}.

Record Filters : Type := mkFilters {
  f_distance : option number;
  f_rating : option number;
  f_price : option number
}.

Definition Qltb (a b : number) : bool := negb (Qle_bool b a).

(** [z.coerce.number().min(lo).max(hi).optional()]; [None] is a failed parse. *)
Definition parseField (lo hi : number) (c : coerced) : option (option number) :=
  match c with
  | Undefined => Some None
  | NotANumber => None
  | Num x => if Qle_bool lo x && Qle_bool x hi then Some (Some x) else None
  end.

(** [FilterParamsSchema.safeParse]; [None] stands for [success: false]. *)
Definition FilterParamsSchema_safeParse (q : Query) : option Filters :=
  match parseField 1%Q 10%Q (q_distance q), parseField 1%Q 5%Q (q_rating q),
        parseField 1%Q 4%Q (q_price q) with
  | Some d, Some r, Some p => Some (mkFilters d r p)
  | _, _, _ => None
  end.

(** [filterParams.success && filterParams.data.field]: the value when it
    is truthy. *)
Definition active (filterParams : option Filters) (field : Filters -> option number)
  : option number :=
  match filterParams with
  | Some data =>
      match field data with
      | Some x => if truthyNumber x then Some x else None
      | None => None
      end
  | None => None
  end.

(** [Array.prototype.sort(compare)]: the sort is stable, and [a] stays in
    front of [b] unless [compare(a, b) > 0].  With a comparator that is a
    consistent ordering, as both comparators below are, every stable sort
    returns this list. *)
Fixpoint sortInsert {A} (compare : A -> A -> number) (x : A) (l : list A) : list A :=
  match l with
  | [] => [x]
  | y :: l' => if Qle_bool (compare x y) 0 then x :: l else y :: sortInsert compare x l'
  end.

Fixpoint Array_sort {A} (compare : A -> A -> number) (l : list A) : list A :=
  match l with
  | [] => []
  | x :: l' => sortInsert compare x (Array_sort compare l')
  end.

(** [xs.slice(0, n)] *)
Definition slice0 {A} (n : nat) (xs : list A) : list A := List.firstn n xs.

(** [(a, b) => b.attendeeCount - a.attendeeCount] *)
Definition compareAttendance (a b : RestaurantWithDetails) : number :=
  inject_Z (Z.of_nat (attendeeCount b) - Z.of_nat (attendeeCount a)).

(** [r.rating || 0] *)
Definition ratingOrZero (r : RestaurantWithDetails) : number :=
  match rating (restaurant r) with
  | Some x => if truthyNumber x then x else 0%Q
  | None => 0%Q
  end.

(** The comparator of lines 111-114. *)
Definition compareNearby (a b : RestaurantWithDetails) : number :=
  let ratingDiff := (ratingOrZero b - ratingOrZero a)%Q in
  if negb (Qeq_bool ratingDiff 0) then ratingDiff else (distance a - distance b)%Q.

(** The filter callback of lines 86-109. *)
Definition nearbyFilter (filterParams : option Filters) (r : RestaurantWithDetails) : bool :=
  if Nat.ltb 0 (attendeeCount r) then false
  else if match active filterParams f_distance with
          | Some d => Qltb d (distance r)
          | None => Qltb 1%Q (distance r)
          end then false
  else if match active filterParams f_rating with
          | Some minRating =>
              match rating (restaurant r) with
              | Some x => negb (truthyNumber x) || Qltb x minRating
              | None => true
              end
          | None => false
          end then false
  else if match active filterParams f_price with
          | Some price =>
              match priceLevel (restaurant r) with
              | Some p => negb (Qeq_bool p price)
              | None => true
              end
          | None => false
          end then false
  else true.

(** The first list of the loader (lines 80-82). *)
Definition restaurantsWithAttendance (restaurants : list RestaurantWithDetails)
  : list RestaurantWithDetails :=
  Array_sort compareAttendance
    (List.filter (fun r => Nat.ltb 0 (attendeeCount r)) restaurants).

(** The nearby list of the loader (lines 85-116). *)
Definition restaurantsNearby (filterParams : option Filters)
    (restaurants : list RestaurantWithDetails) : list RestaurantWithDetails :=
  slice0 30 (Array_sort compareNearby (List.filter (nearbyFilter filterParams) restaurants)).

Record LoaderData : Type := mkLoaderData {
  ld_restaurantsWithAttendance : list RestaurantWithDetails;
  ld_restaurantsNearby : list RestaurantWithDetails;
  ld_filters : Filters
}.

Definition HILTON_LAT : number := 407596 # 10000.
Definition HILTON_LNG : number := - (1118867 # 10000).

(** The page [loader].  Its two lists are computed on the elements read at
    the declared type ([declared]): which restaurants each list holds and
    in what order is as in the code; an attendeeCount that is not a number
    shows as 0 in the lists. *)
Definition loader (calculateDistance : number -> number -> number -> number -> number)
    (env : Places) (now : Z) (userId : string) (query : Query) : M Server LoaderData :=
  let filterParams := FilterParamsSchema_safeParse query in
  let radius := match active filterParams f_distance with
                | Some d => (d * 1600)%Q
                | None => 1600%Q
                end in
  values <- getAllRestaurantDetails calculateDistance env now
              HILTON_LAT HILTON_LNG userId (radius * 2)%Q ;;
  let restaurants := List.map declared values in
  ret {| ld_restaurantsWithAttendance := restaurantsWithAttendance restaurants;
         ld_restaurantsNearby := restaurantsNearby filterParams restaurants;
         ld_filters := match filterParams with
                       | Some data => data
                       | None => mkFilters None None None
                       end |}.

(* ===================================================================== *)
(** ** Outcomes of the details calls *)

(** The details call for [place] is answered, with a non-OK status or
    without a result. *)
Definition detailsFailed (env : Places) (apiKey : string) (place : NearbyPlace) : Prop :=
  exists detailsData,
    details env (place_id place) apiKey = inr detailsData
    /\ (dr_status detailsData <> "OK" \/ dr_result detailsData = None).


Definition samplePlace (i : string) : NearbyPlace :=
  mkNearbyPlace i ("Place " ++ i) "Salt Lake City" ["restaurant"]
    (mkLocation (4076 # 100) (- (11188 # 100))).

Definition sampleResult (i : string) : PlaceResult :=
  mkPlaceResult i ("Place " ++ i) (Some 2%Q) (Some (45 # 10))
    (mkLocation (4076 # 100) (- (11188 # 100))) None None.

(** A provider that knows three places: details succeed for "a" and "c",
    and fail with NOT_FOUND for "b". *)
Definition samplePlaces : Places :=
  {| GOOGLE_PLACES_API_KEY := Some "key";
     nearbysearch := fun _ _ _ _ =>
       inr (mkNearbyResponse "OK" None
              (Some [samplePlace "a"; samplePlace "b"; samplePlace "c"]));
     details := fun placeId _ =>
       if String.eqb placeId "b"
       then inr (mkDetailsResponse "NOT_FOUND" None None)
       else inr (mkDetailsResponse "OK" None (Some (sampleResult placeId))) |}.

(** A provider whose search finds one place and whose details call then
    fails for it. *)
Definition failingDetailsPlaces : Places :=
  {| GOOGLE_PLACES_API_KEY := Some "key";
     nearbysearch := fun _ _ _ _ =>
       inr (mkNearbyResponse "OK" None (Some [samplePlace "a"]));
     details := fun _ _ => inr (mkDetailsResponse "OVER_QUERY_LIMIT" None None) |}.

(** A provider whose search is refused. *)
Definition deniedPlaces : Places :=
  {| GOOGLE_PLACES_API_KEY := Some "key";
     nearbysearch := fun _ _ _ _ =>
       inr (mkNearbyResponse "REQUEST_DENIED" (Some "The provided API key is invalid.") None);
     details := fun _ _ => inr (mkDetailsResponse "REQUEST_DENIED" None None) |}.

(* ===================================================================== *)
(** ** The orders of the two lists of the page *)

(** More attendees first. *)
Definition byAttendanceDesc (a b : RestaurantWithDetails) : Prop :=
  attendeeCount b <= attendeeCount a.

(** Higher rating first, a missing rating counting as 0; at equal rating
    the nearer restaurant first. *)
Definition byRatingThenDistance (a b : RestaurantWithDetails) : Prop :=
  (ratingOrZero b < ratingOrZero a
   \/ (ratingOrZero a == ratingOrZero b /\ distance a <= distance b))%Q.

Definition sampleDetails (i : string) (stars price : option number)
    (miles : number) (count : nat) : RestaurantWithDetails :=
  {| restaurant := mkRestaurant i ("Place " ++ i) price stars
                     (4076 # 100) (- (11188 # 100)) None "https://maps.google.com/";
     distance := miles;
     attendeeCount := count;
     isUserAttending := false |}.

Definition placeA := sampleDetails "a" (Some (45 # 10)) (Some 2%Q) (3 # 10) 0.
Definition placeB := sampleDetails "b" None (Some 2%Q) (1 # 10) 0.
Definition placeC := sampleDetails "c" (Some (48 # 10)) (Some 2%Q) (15 # 10) 0.
Definition placeD := sampleDetails "d" (Some (45 # 10)) (Some 2%Q) (2 # 10) 0.
Definition placeE := sampleDetails "e" (Some (39 # 10)) (Some 1%Q) (4 # 10) 2.
Definition placeF := sampleDetails "f" (Some (41 # 10)) (Some 3%Q) (5 # 10) 5.
Definition placeG := sampleDetails "g" (Some (30 # 10)) None (6 # 10) 0.

Definition sampleList : list RestaurantWithDetails :=
  [placeA; placeB; placeC; placeD; placeE; placeF; placeG].


Definition noFilters : option Filters :=
  FilterParamsSchema_safeParse (mkQuery Undefined Undefined Undefined).

(** The latitude of the hotel moved by a billionth of a degree. *)
Definition NEAR_HILTON_LAT : number := 40759600001 # 1000000000.

(** Samples for the merged view: a first call on the empty server, and a
    server where alice and bob dine at place "a". *)
Definition firstCall : Server * result (list Restaurant) :=
  getCachedRestaurants samplePlaces 0 HILTON_LAT HILTON_LNG 3200%Q emptyServer.

Definition afterFirstCall : Server := fst firstCall.

Definition firstRestaurants : list Restaurant :=
  [toNearbyRestaurant (sampleResult "a"); toNearbyRestaurant (sampleResult "c")].

Definition diningServer : Server :=
  {| db := {| restaurants := [];
              dinnerGroups := [mkDinnerGroup 0 "a"];
              attendees := [mkAttendee 1 "alice" 0; mkAttendee 2 "bob" 0];
              nextId := 3 |};
     lruCache := ∅ |}.

(** A stand-in for the distance function in the samples. *)
Definition sampleDistance (lat1 lng1 lat2 lng2 : number) : number :=
  (Qabs (lat2 - lat1) + Qabs (lng2 - lng1))%Q.

Definition diningRun : Server * result (list DetailsValue) :=
  getAllRestaurantDetails sampleDistance samplePlaces 0 HILTON_LAT HILTON_LNG
    "alice" 3200%Q diningServer.

Definition diningOut : list DetailsValue :=
  match snd diningRun with
  | inr out => out
  | inl _ => []
  end.

(** A provider that knows two places, one of them under the place id
    "constructor". *)
Definition constructorPlaces : Places :=
  {| GOOGLE_PLACES_API_KEY := Some "key";
     nearbysearch := fun _ _ _ _ =>
       inr (mkNearbyResponse "OK" None
              (Some [samplePlace "a"; samplePlace "constructor"]));
     details := fun placeId _ =>
       inr (mkDetailsResponse "OK" None (Some (sampleResult placeId))) |}.

(** The merged view for alice on the server where alice and bob dine at
    place "a" and no other DinnerGroup exists, with that provider. *)
Definition constructorRun : Server * result (list DetailsValue) :=
  getAllRestaurantDetails sampleDistance constructorPlaces 0 HILTON_LAT HILTON_LNG
    "alice" 3200%Q diningServer.

(* ===================================================================== *)
(** ** Well-formed stores and reachable stores *)

(** The data-model invariants of the store: keys are unique, a dinner
    group has one row per restaurant, a user has at most one attendee row,
    every attendee points to a group, no group is empty, and the
    identifier counter is ahead of every row. *)
Record store_inv (d : Db) : Prop := mkStoreInv {
  inv_group_ids : List.NoDup (List.map dg_id (dinnerGroups d));
  inv_group_restaurants : List.NoDup (List.map dg_restaurantId (dinnerGroups d));
  inv_attendee_ids : List.NoDup (List.map at_id (attendees d));
  inv_attendee_users : List.NoDup (List.map at_userId (attendees d));
  inv_relation : forall a, In a (attendees d) ->
      exists g, In g (dinnerGroups d) /\ dg_id g = at_dinnerGroupId a;
  inv_no_empty_group : forall g, In g (dinnerGroups d) ->
      exists a, In a (attendees d) /\ at_dinnerGroupId a = dg_id g;
  inv_group_fresh : forall g, In g (dinnerGroups d) -> dg_id g < nextId d;
  inv_attendee_fresh : forall a, In a (attendees d) -> at_id a < nextId d
}.

Fixpoint nodupb {A} (eqb : A -> A -> bool) (l : list A) : bool :=
  match l with
  | [] => true
  | x :: l' => negb (List.existsb (eqb x) l') && nodupb eqb l'
  end.

(** The same invariants as a boolean check. *)
Definition store_invb (d : Db) : bool :=
  nodupb Nat.eqb (List.map dg_id (dinnerGroups d))
  && nodupb String.eqb (List.map dg_restaurantId (dinnerGroups d))
  && nodupb Nat.eqb (List.map at_id (attendees d))
  && nodupb String.eqb (List.map at_userId (attendees d))
  && List.forallb (fun a => List.existsb (prisma.groupIdIs (at_dinnerGroupId a)) (dinnerGroups d))
       (attendees d)
  && List.forallb (fun g => List.existsb (prisma.inGroup (dg_id g)) (attendees d))
       (dinnerGroups d)
  && List.forallb (fun g => Nat.ltb (dg_id g) (nextId d)) (dinnerGroups d)
  && List.forallb (fun a => Nat.ltb (at_id a) (nextId d)) (attendees d).

(** The two membership calls of the service, and the stores they lead to
    when run one after the other from the empty store. *)
Inductive call : Type :=
| Join (userId restaurantId : string)
| Leave (userId : string).

Definition runCall (c : call) (d : Db) : Db :=
  match c with
  | Join u r => fst (joinDinnerGroup u r d)
  | Leave u => fst (leaveDinnerGroup u d)
  end.

Inductive reachable : Db -> Prop :=
| reachable_empty : reachable emptyDb
| reachable_call : forall c d, reachable d -> reachable (runCall c d).

(** alice joins r1, moves to r2, bob joins r1, alice leaves. *)
Definition reachedDb : Db :=
  runCall (Leave "alice")
    (runCall (Join "bob" "r1")
       (runCall (Join "alice" "r2")
          (runCall (Join "alice" "r1") emptyDb))).

Definition rowsOfUser (u : string) (d : Db) : list Attendee :=
  List.filter (prisma.userIs u) (attendees d).

Definition groupsOfRestaurant (r : string) (d : Db) : list DinnerGroup :=
  List.filter (prisma.restaurantIs r) (dinnerGroups d).

(** A small store used to exercise the statements below: alice and bob
    dine at r1, carol at r2. *)
Definition sampleDb : Db :=
  {| restaurants := [];
     dinnerGroups := [mkDinnerGroup 0 "r1"; mkDinnerGroup 3 "r2"];
     attendees := [mkAttendee 1 "alice" 0; mkAttendee 2 "bob" 0; mkAttendee 4 "carol" 3];
     nextId := 5 |}.

(** A call that leaves the two membership tables as they are. *)
Definition sameMembership (d d' : Db) : Prop :=
  dinnerGroups d' = dinnerGroups d /\ attendees d' = attendees d.

(** What [getUserAttendingRestaurant] reads from a store. *)
Definition userAttendanceOf (userId : string) (d : Db) : option (option string) :=
  match List.find (prisma.userIs userId) (attendees d) with
  | None => None
  | Some a =>
      Some (option_map dg_restaurantId
              (List.find (prisma.groupIdIs (at_dinnerGroupId a)) (dinnerGroups d)))
  end.

(* ===================================================================== *)
(** ** Membership as the two tables encode it *)

(** User [u] dines at restaurant [r]: an Attendee row of [u] points to a
    DinnerGroup row of [r]. *)
Definition memberOf (d : Db) (u r : string) : Prop :=
  exists a g,
    In a (attendees d) /\ at_userId a = u
    /\ In g (dinnerGroups d) /\ dg_id g = at_dinnerGroupId a
    /\ dg_restaurantId g = r.

(** The Attendee rows whose dinner group is the one of restaurant [r]. *)
Definition attendeesAt (r : string) (d : Db) : list Attendee :=
  List.filter
    (fun a => List.existsb
                (fun g => prisma.groupIdIs (at_dinnerGroupId a) g && prisma.restaurantIs r g)
                (dinnerGroups d))
    (attendees d).

(* ===================================================================== *)
(** ** routes/users+/$username_+/restaurants.tsx: the action and the page *)

(** A value of a submitted form field ([FormDataEntryValue]). *)
Inductive FormValue : Type :=
| Text (s : string)
| Upload.                            (* a File *)

(** [Object.fromEntries(formData)[k]]: of several entries with one name
    the last one stays. *)
Fixpoint fromEntries_get (k : string) (formData : list (string * FormValue))
  : option FormValue :=
  match formData with
  | [] => None
  | (k', v) :: rest =>
      match fromEntries_get k rest with
      | Some v' => Some v'
      | None => if String.eqb k' k then Some v else None
      end
  end.

Inductive Intent : Type :=
| IntentJoin (restaurantId : string)
| IntentLeave.

(** [ActionSchema.safeParse]: a union discriminated by [intent], with
    [restaurantId: z.string()] for join; [None] is [success: false]. *)
Definition ActionSchema_safeParse (formData : list (string * FormValue)) : option Intent :=
  match fromEntries_get "intent" formData with
  | Some (Text intent) =>
      if String.eqb intent "join" then
        match fromEntries_get "restaurantId" formData with
        | Some (Text restaurantId) => Some (IntentJoin restaurantId)
        | _ => None
        end
      else if String.eqb intent "leave" then Some IntentLeave
      else None
  | _ => None
  end.

Record ActionResult : Type := mkActionResult {
  ar_status : string;
  ar_message : string
}.

(** [action], for the user that [requireUserId] returned.  The closing
    [Invalid intent] return of the source follows a parse that admits only
    the two intents, and is never reached. *)
Definition action (userId : string) (formData : list (string * FormValue))
  : M Db ActionResult :=
  match ActionSchema_safeParse formData with
  | None => ret (mkActionResult "error" "Invalid form data")
  | Some (IntentJoin restaurantId) =>
      joinDinnerGroup userId restaurantId ;;;
      ret (mkActionResult "success" "Joined dinner group")
  | Some IntentLeave =>
      leaveDinnerGroup userId ;;;
      ret (mkActionResult "success" "Left dinner group")
  end.

(** [restaurantsWithAttendance.some(r => r.isUserAttending)] of
    [RestaurantsPage]. *)
Definition hasUserAttending (data : LoaderData) : bool :=
  List.existsb isUserAttending (ld_restaurantsWithAttendance data).

(* ===================================================================== *)
(** ** routes/resources+/maps+/photo.tsx: the photo proxy *)

Record PhotoQuery : Type := mkPhotoQuery {
  pq_photoRef : option string;       (* [url.searchParams.get], null as [None] *)
  pq_maxWidth : option string;
  pq_maxHeight : option string
}.

(** What the provider's photo endpoint answers. *)
Record Upstream : Type := mkUpstream {
  up_status : Z;
  up_contentType : option string;    (* [headers.get('Content-Type')] *)
  up_body : string
}.

Record HttpResponse : Type := mkHttpResponse {
  res_status : Z;
  res_headers : list (string * string);   (* the headers the code sets *)
  res_body : string
}.

Inductive PhotoOutcome : Type :=
| Returned (r : HttpResponse)
| ThrownError (msg : string)         (* by [invariant] *)
| ThrownResponse (r : HttpResponse)
| ThrownRangeError                   (* [new Response] with a status outside 200-599 *)
| ThrownTypeError                    (* [new Response] with a body and a null-body status *)
| FetchRejected.

(** [a || b] on strings that may be null *)
Definition orDefault (a : option string) (b : string) : string :=
  match a with
  | Some v => if truthyString v then v else b
  | None => b
  end.

(** [response.ok] *)
Definition responseOk (status : Z) : bool := (200 <=? status)%Z && (status <=? 299)%Z.

(** The statuses for which [new Response] refuses a body.  101 and 103 are
    outside 200-599 and are refused for that reason first; 204 and 205 are
    ok statuses, which the loader answers with status 200. *)
Definition nullBodyStatus (status : Z) : bool :=
  (status =? 101)%Z || (status =? 103)%Z || (status =? 204)%Z
  || (status =? 205)%Z || (status =? 304)%Z.

(** The photo [loader].  [fetch] answers for the search parameters put on
    the photo endpoint, [None] when it rejects.  The first component is the
    list of requests sent.  On a status that is not ok the code builds
    [new Response('Failed to fetch photo', { status })]: the constructor
    throws a RangeError for a status outside 200-599, then a TypeError for
    a null-body status, and only otherwise is the response thrown. *)
Definition photoLoader (apiKey : option string)
    (fetch : list (string * string) -> option Upstream) (q : PhotoQuery)
  : list (list (string * string)) * PhotoOutcome :=
  let maxWidth := orDefault (pq_maxWidth q) "400" in
  let maxHeight := orDefault (pq_maxHeight q) "300" in
  match invariant (pq_photoRef q) "photoRef is required" with
  | inl _ => ([], ThrownError "photoRef is required")
  | inr photoRef =>
      match invariant apiKey "GOOGLE_PLACES_API_KEY must be set" with
      | inl _ => ([], ThrownError "GOOGLE_PLACES_API_KEY must be set")
      | inr key =>
          let params := [("photoreference", photoRef); ("maxwidth", maxWidth);
                         ("maxheight", maxHeight); ("key", key)] in
          match fetch params with
          | None => ([params], FetchRejected)
          | Some response =>
              if negb (responseOk (up_status response)) then
                if (200 <=? up_status response)%Z && (up_status response <=? 599)%Z
                then
                  if nullBodyStatus (up_status response)
                  then ([params], ThrownTypeError)
                  else ([params], ThrownResponse
                          (mkHttpResponse (up_status response) [] "Failed to fetch photo"))
                else ([params], ThrownRangeError)
              else
                ([params], Returned
                   (mkHttpResponse 200
                      [("Cache-Control", "public, max-age=86400");
                       ("Content-Type", orDefault (up_contentType response) "image/jpeg")]
                      (up_body response)))
          end
      end
  end.

(* ===================================================================== *)
(** ** Reading the Restaurant table, and further samples *)

(** The first Restaurant row with a given id. *)
Definition restaurantById (i : string) (d : Db) : option Restaurant :=
  List.find (fun x => String.eqb (id x) i) (restaurants d).

(** The page loaded by alice, without filters, on the server where alice
    and bob dine at place "a". *)
Definition loaderRun : Server * result LoaderData :=
  loader sampleDistance samplePlaces 0 "alice" (mkQuery Undefined Undefined Undefined)
    diningServer.

Definition loaderData : LoaderData :=
  match snd loaderRun with
  | inr data => data
  | inl _ => mkLoaderData [] [] (mkFilters None None None)
  end.

(** Providers that fail: without an API key, with a search that is
    rejected, and with a details call that is rejected for place "b". *)
Definition noKeyPlaces : Places :=
  {| GOOGLE_PLACES_API_KEY := None;
     nearbysearch := nearbysearch samplePlaces;
     details := details samplePlaces |}.

Definition offlinePlaces : Places :=
  {| GOOGLE_PLACES_API_KEY := Some "key";
     nearbysearch := fun _ _ _ _ => inl FetchError;
     details := fun _ _ => inl FetchError |}.

Definition flakyPlaces : Places :=
  {| GOOGLE_PLACES_API_KEY := Some "key";
     nearbysearch := nearbysearch samplePlaces;
     details := fun placeId apiKey =>
       if String.eqb placeId "b" then inl FetchError
       else details samplePlaces placeId apiKey |}.

(** A query parameter that the schema rejects: not a number, or a number
    outside the bounds. *)
Definition rejected (lo hi : number) (c : coerced) : Prop :=
  c = NotANumber \/ exists x, c = Num x /\ (x < lo \/ hi < x)%Q.

(** The query [?distance=5&rating=9]. *)
Definition badRatingQuery : Query := mkQuery (Num 5%Q) (Num 9%Q) Undefined.

(** Thirty-two restaurants without attendees, all within a mile, with
    ratings from 1 to 5. *)
Definition manyPlaces : list RestaurantWithDetails :=
  List.map
    (fun n => sampleDetails (intToString (Z.of_nat n))
                (Some (inject_Z (Z.of_nat (1 + n mod 5)))) (Some 2%Q)
                (Z.of_nat n # 100) 0)
    (List.seq 0 32).

(** Submitted forms: join restaurant r2, leave, and an unknown intent. *)
Definition joinForm : list (string * FormValue) :=
  [("intent", Text "join"); ("restaurantId", Text "r2")].

Definition leaveForm : list (string * FormValue) := [("intent", Text "leave")].

Definition danceForm : list (string * FormValue) :=
  [("intent", Text "dance"); ("restaurantId", Text "r2")].

(** A photo endpoint that knows the reference "ref1" and answers 404 for
    any other. *)
Definition photoFetch (params : list (string * string)) : option Upstream :=
  match params with
  | ("photoreference", ref) :: _ =>
      if String.eqb ref "ref1" then Some (mkUpstream 200 (Some "image/png") "PNG")
      else Some (mkUpstream 404 None "")
  | _ => None
  end.

(** A stored row that carries what the provider record [p] gives: its id,
    name, coordinates and maps URL, and every optional value it has. *)
Definition fromProvider (row p : Restaurant) : Prop :=
  id row = id p /\ name row = name p /\ lat row = lat p /\ lng row = lng p
  /\ mapsUrl row = mapsUrl p
  /\ (forall v, priceLevel p = Some v -> priceLevel row = Some v)
  /\ (forall v, rating p = Some v -> rating row = Some v)
  /\ (forall v, photoRef p = Some v -> photoRef row = Some v).

(** Two stores outside the data-model invariants.  In the first a
    DinnerGroup for r2 has no attendee; in the second alice has three
    Attendee rows. *)
Definition emptyGroupDb : Db :=
  {| restaurants := [];
     dinnerGroups := [mkDinnerGroup 0 "r1"; mkDinnerGroup 5 "r2"];
     attendees := [mkAttendee 1 "alice" 0; mkAttendee 2 "bob" 0];
     nextId := 6 |}.

Definition tripleRowDb : Db :=
  {| restaurants := [];
     dinnerGroups := [mkDinnerGroup 0 "r1"];
     attendees := [mkAttendee 1 "alice" 0; mkAttendee 2 "alice" 0; mkAttendee 3 "alice" 0];
     nextId := 4 |}.

(** [leaveDinnerGroup] called twice in sequence: the store after the second
    call and what the two calls returned. *)
Definition leaveTwice (userId : string) (d : Db)
  : Db * (result (option string) * result (option string)) :=
  let first := leaveDinnerGroup userId d in
  let second := leaveDinnerGroup userId (fst first) in
  (fst second, (snd first, snd second)).

(** A provider that knows the places "a" and "__proto__", and a server
    where alice dines at "__proto__". *)
Definition protoPlaces : Places :=
  {| GOOGLE_PLACES_API_KEY := Some "key";
     nearbysearch := fun _ _ _ _ =>
       inr (mkNearbyResponse "OK" None
              (Some [samplePlace "a"; samplePlace "__proto__"]));
     details := fun placeId _ =>
       inr (mkDetailsResponse "OK" None (Some (sampleResult placeId))) |}.

Definition protoServer : Server :=
  {| db := {| restaurants := [];
              dinnerGroups := [mkDinnerGroup 0 "__proto__"];
              attendees := [mkAttendee 1 "alice" 0];
              nextId := 2 |};
     lruCache := ∅ |}.



(* ===================================================================== *)
(** ** Theorems *)

(** *** Lists *)

Lemma NoDup_map_filter {A B} (f : A -> B) (p : A -> bool) (l : list A) :
  List.NoDup (List.map f l) -> List.NoDup (List.map f (List.filter p l)).
Proof.
  induction l as [|x l IH]; simpl; intros H; [constructor|].
  inversion H as [|? ? Hnin Hnd]; subst.
  destruct (p x); simpl; [constructor|]; auto.
  intros Hin. apply Hnin. apply in_map_iff in Hin as (y & <- & Hy).
  apply filter_In in Hy as [Hy _]. now apply in_map.
Qed.

Lemma NoDup_map_In_eq {A B} (f : A -> B) (l : list A) (x y : A) :
  List.NoDup (List.map f l) -> In x l -> In y l -> f x = f y -> x = y.
Proof.
  induction l as [|z l IH]; simpl; intros H Hx Hy Hf; [contradiction|].
  inversion H as [|? ? Hnin Hnd]; subst.
  destruct Hx as [->|Hx], Hy as [->|Hy]; auto.
  - exfalso. apply Hnin. rewrite Hf. now apply in_map.
  - exfalso. apply Hnin. rewrite <- Hf. now apply in_map.
Qed.

Lemma NoDup_map_snoc {A B} (f : A -> B) (l : list A) (x : A) :
  List.NoDup (List.map f l) -> ~ In (f x) (List.map f l) -> List.NoDup (List.map f (l ++ [x])).
Proof.
  intros Hnd Hnin. rewrite List.map_app. simpl.
  apply List.NoDup_app; repeat split; auto.
  - constructor; [intros []|constructor].
  - intros y Hy [<-|[]]. contradiction.
Qed.

Lemma filter_length_le_1 {A B} (f : A -> B) (p : A -> bool) (l : list A) :
  List.NoDup (List.map f l) ->
  (forall x y, In x l -> In y l -> p x = true -> p y = true -> f x = f y) ->
  List.length (List.filter p l) <= 1.
Proof.
  intros Hnd Hp.
  destruct (List.filter p l) as [|x [|y t]] eqn:E; simpl; try lia.
  exfalso.
  assert (Hx : In x (List.filter p l)) by (rewrite E; simpl; auto).
  assert (Hy : In y (List.filter p l)) by (rewrite E; simpl; auto).
  apply filter_In in Hx as [Hx Hpx]. apply filter_In in Hy as [Hy Hpy].
  assert (Hxy : x = y) by (eapply NoDup_map_In_eq; eauto).
  subst y.
  assert (Hnd' : List.NoDup (List.filter p l)).
  { apply List.NoDup_filter. eapply List.NoDup_map_inv; eauto. }
  rewrite E in Hnd'. inversion Hnd' as [|? ? Hnin _]; subst.
  apply Hnin. simpl; auto.
Qed.

Lemma nodupb_nat_sound (l : list nat) : nodupb Nat.eqb l = true -> List.NoDup l.
Proof.
  induction l as [|x l IH]; simpl; intros H; [constructor|].
  apply andb_true_iff in H as [Hx Hl]. constructor; auto.
  intros Hin. apply negb_true_iff in Hx.
  assert (List.existsb (Nat.eqb x) l = true); [|congruence].
  apply existsb_exists. exists x. split; auto. apply Nat.eqb_refl.
Qed.

Lemma nodupb_string_sound (l : list string) : nodupb String.eqb l = true -> List.NoDup l.
Proof.
  induction l as [|x l IH]; simpl; intros H; [constructor|].
  apply andb_true_iff in H as [Hx Hl]. constructor; auto.
  intros Hin. apply negb_true_iff in Hx.
  assert (List.existsb (String.eqb x) l = true); [|congruence].
  apply existsb_exists. exists x. split; auto. apply String.eqb_refl.
Qed.

Lemma store_invb_sound (d : Db) : store_invb d = true -> store_inv d.
Proof.
  unfold store_invb. intros H.
  repeat (apply andb_true_iff in H as [H ?]).
  constructor.
  - now apply nodupb_nat_sound.
  - now apply nodupb_string_sound.
  - now apply nodupb_nat_sound.
  - now apply nodupb_string_sound.
  - intros a Ha.
    match goal with
    | H : List.forallb (fun a => List.existsb (prisma.groupIdIs _) _) _ = true |- _ =>
        rewrite forallb_forall in H; specialize (H a Ha);
        apply existsb_exists in H as (g & Hg & E)
    end.
    exists g. split; auto. now apply Nat.eqb_eq in E.
  - intros g Hg.
    match goal with
    | H : List.forallb (fun g => List.existsb (prisma.inGroup _) _) _ = true |- _ =>
        rewrite forallb_forall in H; specialize (H g Hg);
        apply existsb_exists in H as (a & Ha & E)
    end.
    exists a. split; auto. now apply Nat.eqb_eq in E.
  - intros g Hg.
    match goal with
    | H : List.forallb (fun g => Nat.ltb (dg_id g) _) _ = true |- _ =>
        rewrite forallb_forall in H; specialize (H g Hg)
    end.
    now apply Nat.ltb_lt.
  - intros a Ha.
    match goal with
    | H : List.forallb (fun a => Nat.ltb (at_id a) _) _ = true |- _ =>
        rewrite forallb_forall in H; specialize (H a Ha)
    end.
    now apply Nat.ltb_lt.
Qed.

(** *** Leaving a dinner group *)

Lemma userIs_true (u : string) (a : Attendee) : prisma.userIs u a = true <-> at_userId a = u.
Proof. unfold prisma.userIs. apply String.eqb_eq. Qed.

Lemma find_userIs_None (u : string) (l : list Attendee) :
  List.find (prisma.userIs u) l = None <-> (forall a, In a l -> at_userId a <> u).
Proof.
  split.
  - intros H a Ha E. apply (find_none _ _ H) in Ha.
    apply userIs_true in E. congruence.
  - intros H. destruct (List.find (prisma.userIs u) l) as [a|] eqn:E; auto.
    apply find_some in E as [Ha E]. apply userIs_true in E. now apply H in Ha.
Qed.

Lemma leave_absent (u : string) (d : Db) :
  (forall a, In a (attendees d) -> at_userId a <> u) ->
  leaveDinnerGroup u d = (d, inr None).
Proof.
  intros H. apply find_userIs_None in H.
  unfold leaveDinnerGroup, bind, prisma.attendee_findFirst, gets.
  now rewrite H.
Qed.

Lemma leave_spec (u : string) (d : Db) :
  store_inv d ->
  exists d1 r,
    leaveDinnerGroup u d = (d1, inr r)
    /\ store_inv d1
    /\ (forall a, In a (attendees d1) -> at_userId a <> u)
    /\ nextId d1 = nextId d
    /\ (forall a, In a (attendees d1) -> In a (attendees d))
    /\ (forall a, In a (attendees d) -> at_userId a <> u -> In a (attendees d1))
    /\ (forall g, In g (dinnerGroups d1) -> In g (dinnerGroups d)).
Proof.
  intros Hinv.
  destruct (List.find (prisma.userIs u) (attendees d)) as [a|] eqn:Hfind.
  2:{ pose proof (proj1 (find_userIs_None _ _) Hfind) as Hnone. exists d, None.
      rewrite (leave_absent _ _ Hnone).
      split; [reflexivity|]. split; [exact Hinv|]. repeat split; auto. }
  apply find_some in Hfind as Ha. destruct Ha as [Ha Hu]. apply userIs_true in Hu.
  destruct (inv_relation _ Hinv a Ha) as (g0 & Hg0 & Eg0).
  destruct (List.find (prisma.groupIdIs (at_dinnerGroupId a)) (dinnerGroups d))
    as [g|] eqn:Hg.
  2:{ apply (find_none _ _ Hg) in Hg0. unfold prisma.groupIdIs in Hg0.
      rewrite Eg0, Nat.eqb_refl in Hg0. discriminate. }
  assert (Hex : List.existsb (fun x => Nat.eqb (at_id x) (at_id a)) (attendees d) = true).
  { apply existsb_exists. exists a. split; auto. apply Nat.eqb_refl. }
  assert (Hexg : List.existsb (prisma.groupIdIs (at_dinnerGroupId a)) (dinnerGroups d) = true).
  { apply existsb_exists. exists g0. split; auto. unfold prisma.groupIdIs.
    rewrite Eg0. apply Nat.eqb_refl. }
  set (rest := List.filter (fun x => negb (Nat.eqb (at_id x) (at_id a))) (attendees d)).
  assert (Hrest : forall x, In x rest <-> In x (attendees d) /\ x <> a).
  { intros x. unfold rest. rewrite filter_In. split; intros [Hx Hne]; split; auto.
    - intros ->. rewrite Nat.eqb_refl in Hne. discriminate.
    - apply negb_true_iff, Nat.eqb_neq. intros E. apply Hne.
      eapply NoDup_map_In_eq; eauto using inv_attendee_ids. }
  assert (Hgone : forall x, In x rest -> at_userId x <> u).
  { intros x Hx E. apply Hrest in Hx as [Hx Hne]. apply Hne.
    eapply NoDup_map_In_eq; eauto using inv_attendee_users. congruence. }
  destruct (Nat.eqb (List.length (List.filter (prisma.inGroup (at_dinnerGroupId a)) rest)) 0)
    eqn:Hcount.
  - (* the group is now empty and is deleted *)
    exists (mkDb (restaurants d)
              (List.filter (fun x => negb (prisma.groupIdIs (at_dinnerGroupId a) x))
                 (dinnerGroups d))
              rest (nextId d)), (Some (dg_restaurantId g)).
    split.
    { unfold leaveDinnerGroup, bind, prisma.attendee_findFirst, prisma.attendee_dinnerGroup,
        prisma.attendee_delete, prisma.attendee_count, prisma.dinnerGroup_delete, gets, ret.
      rewrite Hfind, Hg, Hex. cbn [attendees dinnerGroups restaurants nextId].
      fold rest. rewrite Hcount. cbn [attendees dinnerGroups restaurants nextId].
      rewrite Hexg. reflexivity. }
    apply Nat.eqb_eq, List.length_zero_iff_nil in Hcount.
    assert (Hnone : forall x, In x rest -> at_dinnerGroupId x <> at_dinnerGroupId a).
    { intros x Hx E.
      assert (Hin : In x (List.filter (prisma.inGroup (at_dinnerGroupId a)) rest)).
      { apply filter_In. split; auto. unfold prisma.inGroup. now apply Nat.eqb_eq. }
      rewrite Hcount in Hin. destruct Hin. }
    split; [|cbn [attendees dinnerGroups restaurants nextId]; repeat split; auto].
    + constructor; cbn [attendees dinnerGroups restaurants nextId].
      * apply NoDup_map_filter, Hinv.
      * apply NoDup_map_filter, Hinv.
      * apply NoDup_map_filter, Hinv.
      * apply NoDup_map_filter, Hinv.
      * intros x Hx. pose proof (Hnone x Hx) as Hne.
        apply Hrest in Hx as [Hx _].
        destruct (inv_relation _ Hinv x Hx) as (gx & Hgx & Egx).
        exists gx. split; auto. apply filter_In. split; auto.
        apply negb_true_iff, Nat.eqb_neq. congruence.
      * intros gx Hgx. apply filter_In in Hgx as [Hgx Hne].
        apply negb_true_iff, Nat.eqb_neq in Hne.
        destruct (inv_no_empty_group _ Hinv gx Hgx) as (x & Hx & Ex).
        exists x. split; auto. apply Hrest. split; auto. intros ->. congruence.
      * intros gx Hgx. apply filter_In in Hgx as [Hgx _]. now apply Hinv.
      * intros x Hx. apply Hrest in Hx as [Hx _]. now apply Hinv.
    + intros x Hx. now apply Hrest in Hx.
    + intros x Hx Hne. apply Hrest. split; auto. intros ->. contradiction.
    + intros gx Hgx. now apply filter_In in Hgx.
  - (* other attendees remain: the group stays *)
    exists (mkDb (restaurants d) (dinnerGroups d) rest (nextId d)), (Some (dg_restaurantId g)).
    split.
    { unfold leaveDinnerGroup, bind, prisma.attendee_findFirst, prisma.attendee_dinnerGroup,
        prisma.attendee_delete, prisma.attendee_count, prisma.dinnerGroup_delete, gets, ret.
      rewrite Hfind, Hg, Hex. cbn [attendees dinnerGroups restaurants nextId].
      fold rest. rewrite Hcount. reflexivity. }
    apply Nat.eqb_neq in Hcount.
    assert (Hsome : exists x, In x rest /\ at_dinnerGroupId x = at_dinnerGroupId a).
    { destruct (List.filter (prisma.inGroup (at_dinnerGroupId a)) rest) as [|x t] eqn:E;
        [contradiction|].
      assert (Hin : In x (List.filter (prisma.inGroup (at_dinnerGroupId a)) rest))
        by (rewrite E; simpl; auto).
      apply filter_In in Hin as [Hin Hx]. exists x. split; auto.
      now apply Nat.eqb_eq in Hx. }
    split; [|cbn [attendees dinnerGroups restaurants nextId]; repeat split; auto].
    + constructor; cbn [attendees dinnerGroups restaurants nextId]; try apply Hinv.
      * apply NoDup_map_filter, Hinv.
      * apply NoDup_map_filter, Hinv.
      * intros x Hx. apply Hrest in Hx as [Hx _]. now apply Hinv.
      * intros gx Hgx.
        destruct (Nat.eq_dec (dg_id gx) (at_dinnerGroupId a)) as [E|Hne].
        -- destruct Hsome as (x & Hx & Ex). exists x. split; auto. congruence.
        -- destruct (inv_no_empty_group _ Hinv gx Hgx) as (x & Hx & Ex).
           exists x. split; auto. apply Hrest. split; auto. intros ->. congruence.
      * intros x Hx. apply Hrest in Hx as [Hx _]. now apply Hinv.
    + intros x Hx. now apply Hrest in Hx.
    + intros x Hx Hne. apply Hrest. split; auto. intros ->. contradiction.
Qed.

(** *** Joining a dinner group *)

Lemma filter_nil_of_false {A} (p : A -> bool) (l : list A) :
  (forall x, In x l -> p x = false) -> List.filter p l = [].
Proof.
  induction l as [|x l IH]; simpl; intros H; auto.
  rewrite (H x (or_introl eq_refl)). apply IH. intros y Hy. apply H. now right.
Qed.

Lemma join_spec (u r : string) (d : Db) :
  store_inv d ->
  exists d' a,
    joinDinnerGroup u r d = (d', inr a)
    /\ store_inv d'
    /\ rowsOfUser u d' = [a]
    /\ (exists g, In g (dinnerGroups d') /\ dg_id g = at_dinnerGroupId a
                  /\ dg_restaurantId g = r)
    /\ (forall old, In old (attendees d) -> at_userId old = u ->
          ~ In (at_id old) (List.map at_id (attendees d'))).
Proof.
  intros Hinv.
  destruct (leave_spec u d Hinv) as (d1 & r1 & Hleave & Hinv1 & Hgone & Hnext & Hsub & Hkeep & Hgsub).
  assert (Hrows : List.filter (prisma.userIs u) (attendees d1) = []).
  { apply filter_nil_of_false. intros x Hx.
    destruct (prisma.userIs u x) eqn:E; auto.
    apply userIs_true in E. now apply Hgone in Hx. }
  assert (Hfreshold : forall old, In old (attendees d) -> at_userId old = u ->
            ~ In (at_id old) (List.map at_id (attendees d1))).
  { intros old Ho Eu Hin. apply in_map_iff in Hin as (x & Ex & Hx).
    pose proof (Hgone x Hx) as Hne. apply Hsub in Hx.
    assert (x = old).
    { eapply (NoDup_map_In_eq at_id); [apply (inv_attendee_ids _ Hinv)| | |]; eauto. }
    congruence. }
  assert (Huser_fresh : ~ In u (List.map at_userId (attendees d1))).
  { intros Hin. apply in_map_iff in Hin as (x & Ex & Hx). now apply Hgone in Hx. }
  assert (Hid_fresh : forall n, nextId d1 <= n -> ~ In n (List.map at_id (attendees d1))).
  { intros n Hn Hin. apply in_map_iff in Hin as (x & Ex & Hx).
    apply (inv_attendee_fresh _ Hinv1) in Hx. lia. }
  destruct (List.find (prisma.restaurantIs r) (dinnerGroups d1)) as [g|] eqn:Hfind.
  - (* the group exists *)
    apply find_some in Hfind as Hg. destruct Hg as [Hg Er].
    unfold prisma.restaurantIs in Er. apply String.eqb_eq in Er.
    assert (Hex : List.existsb (prisma.groupIdIs (dg_id g)) (dinnerGroups d1) = true).
    { apply existsb_exists. exists g. split; auto. apply Nat.eqb_refl. }
    set (a := mkAttendee (nextId d1) u (dg_id g)).
    exists (mkDb (restaurants d1) (dinnerGroups d1) (attendees d1 ++ [a]) (S (nextId d1))), a.
    split.
    { unfold joinDinnerGroup, bind at 1. rewrite Hleave.
      unfold bind, prisma.dinnerGroup_findUnique, gets, ret, prisma.attendee_create.
      rewrite Hfind. cbn [dg_id]. rewrite Hex. reflexivity. }
    split; [|split; [|split]].
    + constructor; cbn [attendees dinnerGroups restaurants nextId]; try apply Hinv1.
      * apply NoDup_map_snoc; [apply Hinv1|]. apply Hid_fresh. cbn. lia.
      * apply NoDup_map_snoc; [apply Hinv1|]. exact Huser_fresh.
      * intros x Hx. apply in_app_iff in Hx as [Hx|[<-|[]]]; [now apply Hinv1|].
        exists g. split; auto.
      * intros gx Hgx. destruct (inv_no_empty_group _ Hinv1 gx Hgx) as (x & Hx & Ex).
        exists x. split; auto. apply in_app_iff. now left.
      * intros gx Hgx. apply (inv_group_fresh _ Hinv1) in Hgx. lia.
      * intros x Hx. apply in_app_iff in Hx as [Hx|[<-|[]]]; cbn; [|lia].
        apply (inv_attendee_fresh _ Hinv1) in Hx. lia.
    + unfold rowsOfUser. cbn [attendees]. rewrite List.filter_app, Hrows. cbn.
      unfold prisma.userIs. cbn. now rewrite String.eqb_refl.
    + exists g. cbn. auto.
    + intros old Ho Eu Hin. cbn [attendees] in Hin.
      rewrite List.map_app in Hin. apply in_app_iff in Hin as [Hin|[E|[]]].
      * now apply (Hfreshold old Ho Eu).
      * cbn in E. apply (inv_attendee_fresh _ Hinv) in Ho. lia.
  - (* the group is created *)
    assert (Hnew : List.existsb (prisma.restaurantIs r) (dinnerGroups d1) = false).
    { destruct (List.existsb (prisma.restaurantIs r) (dinnerGroups d1)) eqn:E; auto.
      apply existsb_exists in E as (x & Hx & E). apply (find_none _ _ Hfind) in Hx.
      congruence. }
    set (g := mkDinnerGroup (nextId d1) r).
    set (a := mkAttendee (S (nextId d1)) u (nextId d1)).
    assert (Hex : List.existsb (prisma.groupIdIs (nextId d1)) (dinnerGroups d1 ++ [g]) = true).
    { apply existsb_exists. exists g. split; [apply in_app_iff; right; now left|].
      apply Nat.eqb_refl. }
    exists (mkDb (restaurants d1) (dinnerGroups d1 ++ [g]) (attendees d1 ++ [a])
              (S (S (nextId d1)))), a.
    split.
    { unfold joinDinnerGroup, bind at 1. rewrite Hleave.
      unfold bind, prisma.dinnerGroup_findUnique, gets, ret, prisma.dinnerGroup_create,
        prisma.attendee_create.
      rewrite Hfind, Hnew. cbn [dg_id dinnerGroups attendees restaurants nextId].
      fold g. rewrite Hex. reflexivity. }
    split; [|split; [|split]].
    + constructor; cbn [attendees dinnerGroups restaurants nextId].
      * apply NoDup_map_snoc; [apply Hinv1|]. intros Hin.
        apply in_map_iff in Hin as (x & Ex & Hx).
        apply (inv_group_fresh _ Hinv1) in Hx. cbn in Ex. lia.
      * apply NoDup_map_snoc; [apply Hinv1|]. intros Hin.
        apply in_map_iff in Hin as (x & Ex & Hx). cbn in Ex.
        apply (find_none _ _ Hfind) in Hx. unfold prisma.restaurantIs in Hx.
        rewrite Ex, String.eqb_refl in Hx. discriminate.
      * apply NoDup_map_snoc; [apply Hinv1|]. apply Hid_fresh. cbn. lia.
      * apply NoDup_map_snoc; [apply Hinv1|]. exact Huser_fresh.
      * intros x Hx. apply in_app_iff in Hx as [Hx|[<-|[]]].
        -- destruct (inv_relation _ Hinv1 x Hx) as (gx & Hgx & Egx).
           exists gx. split; auto. apply in_app_iff. now left.
        -- exists g. split; auto. apply in_app_iff. right. now left.
      * intros gx Hgx. apply in_app_iff in Hgx as [Hgx|[<-|[]]].
        -- destruct (inv_no_empty_group _ Hinv1 gx Hgx) as (x & Hx & Ex).
           exists x. split; auto. apply in_app_iff. now left.
        -- exists a. split; auto. apply in_app_iff. right. now left.
      * intros gx Hgx. apply in_app_iff in Hgx as [Hgx|[<-|[]]]; cbn; [|lia].
        apply (inv_group_fresh _ Hinv1) in Hgx. lia.
      * intros x Hx. apply in_app_iff in Hx as [Hx|[<-|[]]]; cbn; [|lia].
        apply (inv_attendee_fresh _ Hinv1) in Hx. lia.
    + unfold rowsOfUser. cbn [attendees]. rewrite List.filter_app, Hrows. cbn.
      unfold prisma.userIs. cbn. now rewrite String.eqb_refl.
    + exists g. cbn. split; auto. apply in_app_iff. right. now left.
    + intros old Ho Eu Hin. cbn [attendees] in Hin.
      rewrite List.map_app in Hin. apply in_app_iff in Hin as [Hin|[E|[]]].
      * now apply (Hfreshold old Ho Eu).
      * cbn in E. apply (inv_attendee_fresh _ Hinv) in Ho. lia.
Qed.

Lemma reachable_store_inv (d : Db) : reachable d -> store_inv d.
Proof.
  induction 1 as [|c d Hr IH].
  - apply store_invb_sound. reflexivity.
  - destruct c as [u r|u]; cbn [runCall].
    + destruct (join_spec u r d IH) as (d' & a & E & Hinv & _). now rewrite E.
    + destruct (leave_spec u d IH) as (d' & r & E & Hinv & _). now rewrite E.
Qed.

(** *** Claims on membership *)

(** C1: on a well-formed store, [joinDinnerGroup(userId, restaurantId)]
    returns; afterwards the user has exactly one Attendee row, the returned
    one; it belongs to the one DinnerGroup whose restaurantId is the target;
    and no Attendee row the user had before the call is left, neither the
    row nor its identifier. *)
Theorem joinDinnerGroup_single_membership (userId restaurantId : string) (d : Db) :
  store_inv d ->
  exists d' a,
    joinDinnerGroup userId restaurantId d = (d', inr a)
    /\ rowsOfUser userId d' = [a]
    /\ (exists g, groupsOfRestaurant restaurantId d' = [g]
                  /\ dg_id g = at_dinnerGroupId a)
    /\ (forall old, In old (attendees d) -> at_userId old = userId ->
          ~ In old (attendees d')
          /\ ~ In (at_id old) (List.map at_id (attendees d'))).
Proof.
  intros Hinv.
  destruct (join_spec userId restaurantId d Hinv)
    as (d' & a & E & Hinv' & Hrows & (g & Hg & Eg & Er) & Hold).
  exists d', a. split; [exact E|]. split; [exact Hrows|]. split.
  - exists g. split; auto.
    assert (Hin : In g (groupsOfRestaurant restaurantId d')).
    { apply filter_In. split; auto. unfold prisma.restaurantIs.
      now apply String.eqb_eq. }
    assert (Hlen : List.length (groupsOfRestaurant restaurantId d') <= 1).
    { apply (filter_length_le_1 dg_restaurantId); [apply Hinv'|].
      unfold prisma.restaurantIs. intros x y _ _ Hx Hy.
      apply String.eqb_eq in Hx, Hy. congruence. }
    destruct (groupsOfRestaurant restaurantId d') as [|x [|y t]];
      cbn [List.length In] in *; [contradiction| |lia].
    destruct Hin as [->|[]]. reflexivity.
  - intros old Ho Eu. split; [|now apply Hold].
    intros Hin. apply (Hold old Ho Eu). now apply in_map.
Qed.

Lemma joinDinnerGroup_single_membership_witness :
  store_inv sampleDb
  /\ exists d' a,
      joinDinnerGroup "alice" "r2" sampleDb = (d', inr a)
      /\ rowsOfUser "alice" d' = [a]
      /\ (exists g, groupsOfRestaurant "r2" d' = [g] /\ dg_id g = at_dinnerGroupId a)
      /\ (forall old, In old (attendees sampleDb) -> at_userId old = "alice" ->
            ~ In old (attendees d')
            /\ ~ In (at_id old) (List.map at_id (attendees d'))).
Proof.
  split.
  - apply store_invb_sound. vm_compute. reflexivity.
  - apply (joinDinnerGroup_single_membership "alice" "r2" sampleDb).
    apply store_invb_sound. vm_compute. reflexivity.
Defined.

(** C2: [leaveDinnerGroup] is idempotent.  A call for a user without an
    Attendee row leaves the store as it is and returns null.  On a
    well-formed store a first call returns, after it the user has no
    Attendee row and no DinnerGroup is empty, and a second call changes
    nothing and returns null. *)
Theorem leaveDinnerGroup_idempotent (userId : string) (d : Db) :
  ((forall a, In a (attendees d) -> at_userId a <> userId) ->
     leaveDinnerGroup userId d = (d, inr None))
  /\ (store_inv d ->
      exists d1 r1,
        leaveDinnerGroup userId d = (d1, inr r1)
        /\ leaveDinnerGroup userId d1 = (d1, inr None)
        /\ rowsOfUser userId d1 = []
        /\ (forall g, In g (dinnerGroups d1) ->
              exists a, In a (attendees d1) /\ at_dinnerGroupId a = dg_id g)).
Proof.
  split; [apply leave_absent|].
  intros Hinv.
  destruct (leave_spec userId d Hinv) as (d1 & r1 & E & Hinv1 & Hgone & _).
  exists d1, r1. repeat split; auto.
  - now apply leave_absent.
  - apply filter_nil_of_false. intros x Hx.
    destruct (prisma.userIs userId x) eqn:Eu; auto.
    apply userIs_true in Eu. now apply Hgone in Hx.
  - apply Hinv1.
Qed.

Lemma leaveDinnerGroup_idempotent_witness :
  store_inv sampleDb
  /\ (forall a, In a (attendees sampleDb) -> at_userId a <> "dave")
  /\ leaveDinnerGroup "dave" sampleDb = (sampleDb, inr None)
  /\ exists d1 r1,
      leaveDinnerGroup "carol" sampleDb = (d1, inr r1)
      /\ leaveDinnerGroup "carol" d1 = (d1, inr None)
      /\ rowsOfUser "carol" d1 = []
      /\ (forall g, In g (dinnerGroups d1) ->
            exists a, In a (attendees d1) /\ at_dinnerGroupId a = dg_id g).
Proof.
  assert (Hinv : store_inv sampleDb) by (apply store_invb_sound; vm_compute; reflexivity).
  assert (Hdave : forall a, In a (attendees sampleDb) -> at_userId a <> "dave").
  { cbn. intros a [<-|[<-|[<-|[]]]]; cbn; discriminate. }
  split; [exact Hinv|]. split; [exact Hdave|]. split.
  - exact (proj1 (leaveDinnerGroup_idempotent "dave" sampleDb) Hdave).
  - exact (proj2 (leaveDinnerGroup_idempotent "carol" sampleDb) Hinv).
Defined.

(** C2, as stated for every starting state, fails.  On a store where the
    DinnerGroup of r2 has no attendee, two calls for alice return, and the
    empty group is still there.  On a store where alice has three Attendee
    rows, the second call is not a no-op: it returns r1, not null, and
    deletes a row; after the two calls alice still has an Attendee row. *)
Lemma leaveDinnerGroup_any_state_counterexample :
  leaveTwice "alice" emptyGroupDb
    = ({| restaurants := [];
          dinnerGroups := [mkDinnerGroup 0 "r1"; mkDinnerGroup 5 "r2"];
          attendees := [mkAttendee 2 "bob" 0];
          nextId := 6 |}, (inr (Some "r1"), inr None))
  /\ List.filter (prisma.inGroup 5) (attendees (fst (leaveTwice "alice" emptyGroupDb))) = []
  /\ leaveDinnerGroup "alice" tripleRowDb
     = ({| restaurants := [];
           dinnerGroups := [mkDinnerGroup 0 "r1"];
           attendees := [mkAttendee 2 "alice" 0; mkAttendee 3 "alice" 0];
           nextId := 4 |}, inr (Some "r1"))
  /\ leaveTwice "alice" tripleRowDb
     = ({| restaurants := [];
           dinnerGroups := [mkDinnerGroup 0 "r1"];
           attendees := [mkAttendee 3 "alice" 0];
           nextId := 4 |}, (inr (Some "r1"), inr (Some "r1")))
  /\ rowsOfUser "alice" (fst (leaveTwice "alice" tripleRowDb)) = [mkAttendee 3 "alice" 0].
Proof. repeat split; vm_compute; reflexivity. Qed.

(** C4: in every store reached from the empty store by joinDinnerGroup and
    leaveDinnerGroup calls run one after the other, each restaurantId has at
    most one DinnerGroup and each user has at most one Attendee row. *)
Theorem reachable_unique_rows (d : Db) :
  reachable d ->
  (forall restaurantId, List.length (groupsOfRestaurant restaurantId d) <= 1)
  /\ (forall userId, List.length (rowsOfUser userId d) <= 1).
Proof.
  intros Hr. apply reachable_store_inv in Hr. split.
  - intros r. apply (filter_length_le_1 dg_restaurantId); [apply Hr|].
    unfold prisma.restaurantIs. intros x y _ _ Hx Hy.
    apply String.eqb_eq in Hx, Hy. congruence.
  - intros u. apply (filter_length_le_1 at_userId); [apply Hr|].
    intros x y _ _ Hx Hy. apply userIs_true in Hx, Hy. congruence.
Qed.

Lemma reachable_unique_rows_witness :
  reachable reachedDb
  /\ (forall restaurantId, List.length (groupsOfRestaurant restaurantId reachedDb) <= 1)
  /\ (forall userId, List.length (rowsOfUser userId reachedDb) <= 1).
Proof.
  assert (Hr : reachable reachedDb).
  { unfold reachedDb. repeat apply reachable_call. apply reachable_empty. }
  split; [exact Hr|]. exact (reachable_unique_rows reachedDb Hr).
Defined.

(** *** The places provider *)

Lemma invariant_set (key message : string) :
  key <> "" -> invariant (Some key) message = inr key.
Proof.
  intros H. unfold invariant, truthyString.
  destruct (String.eqb_spec key ""); [contradiction|reflexivity].
Qed.

Lemma placeDetails_None (env : Places) (apiKey : string) (place : NearbyPlace) :
  placeDetails env apiKey place = inr None <-> detailsFailed env apiKey place.
Proof.
  unfold placeDetails, detailsFailed. split.
  - destruct (details env (place_id place) apiKey) as [e|dd]; [discriminate|].
    intros H. exists dd. split; auto.
    destruct (String.eqb_spec (dr_status dd) "OK") as [E|E]; auto.
    destruct (dr_result dd); cbn in H; [discriminate|auto].
  - intros (dd & -> & [H|H]).
    + destruct (String.eqb_spec (dr_status dd) "OK"); [contradiction|reflexivity].
    + rewrite H. cbn. now rewrite orb_true_r.
Qed.

Lemma Promise_all_inr {A B} (f : A -> result B) (xs : list A) (ys : list B) :
  Promise_all (List.map f xs) = inr ys <-> List.map f xs = List.map inr ys.
Proof.
  revert ys. induction xs as [|x xs IH]; intros ys; cbn.
  - split; intros H.
    + injection H as <-. reflexivity.
    + destruct ys; [reflexivity|discriminate].
  - destruct (f x) as [e|b].
    + split; [discriminate|]. destruct ys; discriminate.
    + destruct (Promise_all (List.map f xs)) as [e|l] eqn:E.
      * split; [discriminate|]. destruct ys as [|y ys]; [discriminate|].
        cbn. intros H. injection H as _ H. apply IH in H. discriminate.
      * split.
        -- intros H. injection H as <-. cbn. f_equal. now apply IH.
        -- destruct ys as [|y ys]; [discriminate|]. cbn. intros H.
           injection H as -> H. apply IH in H. congruence.
Qed.

Lemma filterBoolean_nil {A} (xs : list (option A)) :
  filterBoolean xs = [] <-> (forall x, In x xs -> x = None).
Proof.
  induction xs as [|[a|] xs IH]; cbn.
  - split; [intros _ x []|reflexivity].
  - split; [discriminate|]. intros H. specialize (H (Some a) (or_introl eq_refl)).
    discriminate.
  - rewrite IH. split.
    + intros H x [<-|Hx]; auto.
    + intros H x Hx. apply H. now right.
Qed.

Lemma getNearbyRestaurants_OK (env : Places) (lat lng radius : number)
    (apiKey : string) (nearbyData : GooglePlacesNearbyResponse) :
  GOOGLE_PLACES_API_KEY env = Some apiKey -> apiKey <> "" ->
  nearbysearch env lat lng radius apiKey = inr nearbyData ->
  nr_status nearbyData = "OK" ->
  getNearbyRestaurants env lat lng radius =
    if noResults nearbyData then inr []
    else match Promise_all (List.map (placeDetails env apiKey)
                              (default [] (nr_results nearbyData))) with
         | inl e => inl e
         | inr l => inr (filterBoolean l)
         end.
Proof.
  intros Hkey Hne Hsearch Hst. unfold getNearbyRestaurants.
  rewrite Hkey, (invariant_set _ _ Hne), Hsearch, Hst. reflexivity.
Qed.


(** C7, as amended: once the API key is set and the nearby search is
    answered, [getNearbyRestaurants] returns the empty list without error
    exactly when the status is ZERO_RESULTS, or the status is OK and there
    are no results, or the status is OK and the details call of every
    result fails; for every status other than OK and ZERO_RESULTS it throws
    the API error. *)
Theorem getNearbyRestaurants_empty_or_throws (env : Places) (lat lng radius : number)
    (apiKey : string) (nearbyData : GooglePlacesNearbyResponse) :
  GOOGLE_PLACES_API_KEY env = Some apiKey -> apiKey <> "" ->
  nearbysearch env lat lng radius apiKey = inr nearbyData ->
  (getNearbyRestaurants env lat lng radius = inr [] <->
     nr_status nearbyData = "ZERO_RESULTS"
     \/ (nr_status nearbyData = "OK" /\ noResults nearbyData = true)
     \/ (nr_status nearbyData = "OK"
         /\ forall place, In place (default [] (nr_results nearbyData)) ->
                          detailsFailed env apiKey place))
  /\ (nr_status nearbyData <> "OK" -> nr_status nearbyData <> "ZERO_RESULTS" ->
      getNearbyRestaurants env lat lng radius = inl (PlacesApiError (nr_status nearbyData))).
Proof.
  intros Hkey Hne Hsearch.
  destruct (String.eqb_spec (nr_status nearbyData) "OK") as [Hok|Hnok].
  - split; [|contradiction].
    rewrite (getNearbyRestaurants_OK _ _ _ _ _ _ Hkey Hne Hsearch Hok).
    destruct (noResults nearbyData) eqn:Hno.
    + split; auto.
    + split.
      * destruct (Promise_all _) as [e|l] eqn:E; [discriminate|].
        intros H. injection H as H. right. right. split; auto.
        intros place Hp. apply placeDetails_None.
        apply Promise_all_inr in E.
        pose proof (proj1 (filterBoolean_nil l) H) as Hall.
        assert (Hin : In (placeDetails env apiKey place)
                        (List.map (placeDetails env apiKey)
                           (default [] (nr_results nearbyData))))
          by now apply in_map.
        rewrite E in Hin. apply in_map_iff in Hin as (o & <- & Ho).
        now rewrite (Hall o Ho).
      * intros [H|[[_ H]|[_ H]]].
        -- rewrite Hok in H. discriminate.
        -- discriminate.
        -- assert (E : List.map (placeDetails env apiKey)
                         (default [] (nr_results nearbyData))
                       = List.map inr
                           (List.map (fun _ => @None Restaurant)
                              (default [] (nr_results nearbyData)))).
           { rewrite List.map_map. apply List.map_ext_in. intros place Hp.
             now apply placeDetails_None, H. }
           apply Promise_all_inr in E. rewrite E. f_equal.
           apply filterBoolean_nil. intros x Hx.
           now apply in_map_iff in Hx as (? & <- & _).
  - assert (Hstep : getNearbyRestaurants env lat lng radius =
              if negb (String.eqb (nr_status nearbyData) "ZERO_RESULTS")
              then inl (PlacesApiError (nr_status nearbyData)) else inr []).
    { unfold getNearbyRestaurants.
      rewrite Hkey, (invariant_set _ _ Hne), Hsearch.
      destruct (String.eqb_spec (nr_status nearbyData) "OK"); [contradiction|].
      cbn. destruct (String.eqb (nr_status nearbyData) "ZERO_RESULTS"); reflexivity. }
    rewrite Hstep.
    destruct (String.eqb_spec (nr_status nearbyData) "ZERO_RESULTS") as [Hz|Hnz]; cbn.
    + split; [|contradiction]. split; auto.
    + split; [|reflexivity]. split; [discriminate|].
      intros [H|[[H _]|[H _]]]; contradiction.
Qed.

Lemma getNearbyRestaurants_empty_or_throws_witness :
  (GOOGLE_PLACES_API_KEY failingDetailsPlaces = Some "key" /\ "key" <> ""
   /\ nearbysearch failingDetailsPlaces 0%Q 0%Q 1600%Q "key"
        = inr (mkNearbyResponse "OK" None (Some [samplePlace "a"]))
   /\ getNearbyRestaurants failingDetailsPlaces 0%Q 0%Q 1600%Q = inr [])
  /\ (GOOGLE_PLACES_API_KEY deniedPlaces = Some "key"
      /\ nearbysearch deniedPlaces 0%Q 0%Q 1600%Q "key"
           = inr (mkNearbyResponse "REQUEST_DENIED"
                    (Some "The provided API key is invalid.") None)
      /\ "REQUEST_DENIED" <> "OK" /\ "REQUEST_DENIED" <> "ZERO_RESULTS"
      /\ getNearbyRestaurants deniedPlaces 0%Q 0%Q 1600%Q
           = inl (PlacesApiError "REQUEST_DENIED")).
Proof.
  assert (Hkey : "key" <> "") by discriminate.
  split.
  - split; [reflexivity|]. split; [exact Hkey|]. split; [reflexivity|].
    apply (proj1 (getNearbyRestaurants_empty_or_throws failingDetailsPlaces 0%Q 0%Q 1600%Q
                    "key" _ eq_refl Hkey eq_refl)).
    right. right. split; [reflexivity|].
    intros place _. eexists. split; [reflexivity|]. left. cbn. discriminate.
  - split; [reflexivity|]. split; [reflexivity|].
    assert (H1 : "REQUEST_DENIED" <> "OK") by discriminate.
    assert (H2 : "REQUEST_DENIED" <> "ZERO_RESULTS") by discriminate.
    split; [exact H1|]. split; [exact H2|].
    exact (proj2 (getNearbyRestaurants_empty_or_throws deniedPlaces 0%Q 0%Q 1600%Q
                    "key" _ eq_refl Hkey eq_refl) H1 H2).
Defined.

(** C7, as stated, fails: the search answers OK with one result, so the
    status is not ZERO_RESULTS and the results are not empty, the details
    call for that place fails, and the empty list is returned without
    error. *)
Lemma getNearbyRestaurants_empty_counterexample :
  nearbysearch failingDetailsPlaces 0%Q 0%Q 1600%Q "key"
    = inr (mkNearbyResponse "OK" None (Some [samplePlace "a"]))
  /\ String.eqb (nr_status (mkNearbyResponse "OK" None (Some [samplePlace "a"])))
       "ZERO_RESULTS" = false
  /\ noResults (mkNearbyResponse "OK" None (Some [samplePlace "a"])) = false
  /\ getNearbyRestaurants failingDetailsPlaces 0%Q 0%Q 1600%Q = inr [].
Proof. repeat split. Qed.



(** *** Sorting and slicing *)

Lemma sortInsert_Permutation {A} (compare : A -> A -> number) (x : A) (l : list A) :
  Permutation (sortInsert compare x l) (x :: l).
Proof.
  induction l as [|y l IH]; cbn; [reflexivity|].
  destruct (Qle_bool (compare x y) 0); [reflexivity|].
  rewrite IH. apply perm_swap.
Qed.

Lemma Array_sort_Permutation {A} (compare : A -> A -> number) (l : list A) :
  Permutation (Array_sort compare l) l.
Proof.
  induction l as [|x l IH]; cbn; [reflexivity|].
  rewrite sortInsert_Permutation. now constructor.
Qed.

Lemma slice0_incl {A} (n : nat) (l : list A) (x : A) : In x (slice0 n l) -> In x l.
Proof.
  unfold slice0. revert l. induction n as [|n IH]; intros [|y l]; cbn; auto;
    try contradiction.
  intros [->|H]; auto.
Qed.

Lemma slice0_sorted {A} (R : A -> A -> Prop) (n : nat) (l : list A) :
  StronglySorted R l -> StronglySorted R (slice0 n l).
Proof.
  unfold slice0. intros H. revert n.
  induction H as [|x l Hs IH Hall]; intros [|k]; cbn; try constructor; auto.
  rewrite List.Forall_forall in *. intros y Hy. apply Hall.
  now apply (slice0_incl k).
Qed.

Section ArraySort.

Context {A : Type} (compare : A -> A -> number) (R : A -> A -> Prop).
Hypothesis R_of_le : forall x y, Qle_bool (compare x y) 0 = true -> R x y.
Hypothesis R_of_gt : forall x y, Qle_bool (compare x y) 0 = false -> R y x.
Hypothesis R_trans : forall x y z, R x y -> R y z -> R x z.

Lemma sortInsert_sorted (x : A) (l : list A) :
  StronglySorted R l -> StronglySorted R (sortInsert compare x l).
Proof using R_of_le R_of_gt R_trans.
  induction 1 as [|y l Hs IH Hall]; cbn.
  - constructor; constructor.
  - destruct (Qle_bool (compare x y) 0) eqn:E.
    + constructor; [now constructor|].
      constructor; [now apply R_of_le|].
      rewrite List.Forall_forall in *. intros z Hz.
      apply R_trans with y; auto.
    + constructor; auto.
      rewrite List.Forall_forall in *. intros z Hz.
      apply (Permutation_in _ (sortInsert_Permutation compare x l)) in Hz.
      destruct Hz as [<-|Hz]; auto.
Qed.

Lemma Array_sort_sorted (l : list A) : StronglySorted R (Array_sort compare l).
Proof using R_of_le R_of_gt R_trans.
  induction l as [|x l IH]; cbn; [constructor|].
  now apply sortInsert_sorted.
Qed.

End ArraySort.

Lemma Qltb_false (a b : number) : Qltb a b = false <-> (b <= a)%Q.
Proof.
  unfold Qltb. rewrite negb_false_iff. apply Qle_bool_iff.
Qed.

Lemma Qle_bool_false (a b : number) : Qle_bool a b = false <-> (b < a)%Q.
Proof.
  split; intros H.
  - apply Qnot_le_lt. intros Hle. apply Qle_bool_iff in Hle. congruence.
  - destruct (Qle_bool a b) eqn:E; auto.
    apply Qle_bool_iff in E. apply Qle_not_lt in E. contradiction.
Qed.

(** The order the nearby list is sorted by: higher [rating || 0] first,
    and the nearer restaurant first when these are equal. *)
Lemma compareNearby_le (a b : RestaurantWithDetails) :
  Qle_bool (compareNearby a b) 0 = true <->
  (ratingOrZero b < ratingOrZero a
   \/ (ratingOrZero a == ratingOrZero b /\ distance a <= distance b))%Q.
Proof.
  unfold compareNearby. rewrite Qle_bool_iff.
  destruct (Qeq_bool (ratingOrZero b - ratingOrZero a) 0) eqn:E; cbn.
  - apply Qeq_bool_iff in E. split; intros H.
    + right. split; lra.
    + destruct H as [H|[_ H]]; lra.
  - assert (Hne : ~ (ratingOrZero b - ratingOrZero a == 0)%Q).
    { intros H. apply Qeq_bool_iff in H. congruence. }
    split; intros H.
    + left. lra.
    + destruct H as [H|[H _]]; [lra|]. exfalso. apply Hne. lra.
Qed.

Lemma compareAttendance_le (a b : RestaurantWithDetails) :
  Qle_bool (compareAttendance a b) 0 = true <-> attendeeCount b <= attendeeCount a.
Proof.
  unfold compareAttendance. rewrite Qle_bool_iff.
  change 0%Q with (inject_Z 0). rewrite <- Zle_Qle. lia.
Qed.

Lemma nearbyFilter_true (filterParams : option Filters) (r : RestaurantWithDetails) :
  nearbyFilter filterParams r = true ->
  attendeeCount r = 0
  /\ (distance r <= match active filterParams f_distance with
                    | Some d => d
                    | None => 1
                    end)%Q
  /\ (forall minRating, active filterParams f_rating = Some minRating ->
        exists x, rating (restaurant r) = Some x /\ (minRating <= x)%Q)
  /\ (forall price, active filterParams f_price = Some price ->
        exists p, priceLevel (restaurant r) = Some p /\ (p == price)%Q).
Proof.
  unfold nearbyFilter.
  destruct (Nat.ltb 0 (attendeeCount r)) eqn:Hc; [discriminate|].
  apply Nat.ltb_ge in Hc.
  destruct (match active filterParams f_distance with
            | Some d => Qltb d (distance r)
            | None => Qltb 1%Q (distance r)
            end) eqn:Hd; [discriminate|].
  destruct (match active filterParams f_rating with
            | Some minRating => _
            | None => false
            end) eqn:Hr; [discriminate|].
  destruct (match active filterParams f_price with
            | Some price => _
            | None => false
            end) eqn:Hp; [discriminate|].
  intros _. split; [lia|]. split; [|split].
  - destruct (active filterParams f_distance); now apply Qltb_false.
  - intros minRating E. rewrite E in Hr.
    destruct (rating (restaurant r)) as [x|]; [|discriminate].
    exists x. split; auto.
    apply orb_false_iff in Hr as [_ Hr]. now apply Qltb_false.
  - intros price E. rewrite E in Hp.
    destruct (priceLevel (restaurant r)) as [p|]; [|discriminate].
    exists p. split; auto.
    apply negb_false_iff in Hp. now apply Qeq_bool_iff.
Qed.

(** *** Claims on the loader *)



Lemma byRatingThenDistance_trans (a b c : RestaurantWithDetails) :
  byRatingThenDistance a b -> byRatingThenDistance b c -> byRatingThenDistance a c.
Proof.
  unfold byRatingThenDistance. intros [H1|[H1 H1']] [H2|[H2 H2']].
  - left. lra.
  - left. lra.
  - left. lra.
  - right. split; lra.
Qed.

Lemma compareNearby_gt (a b : RestaurantWithDetails) :
  Qle_bool (compareNearby a b) 0 = false -> byRatingThenDistance b a.
Proof.
  intros H. apply Qle_bool_false in H. unfold compareNearby in H.
  unfold byRatingThenDistance.
  destruct (Qeq_bool (ratingOrZero b - ratingOrZero a) 0) eqn:E; cbn in H.
  - apply Qeq_bool_iff in E. right. split; lra.
  - left. lra.
Qed.

(** C6: the first list of the loader holds exactly the restaurants with
    attendeeCount > 0, ordered by attendeeCount descending; the nearby list
    is ordered by rating descending with distance ascending among equal
    ratings, where a missing rating counts as 0, which no rating of the
    data model (0 to 5) is below. *)
Theorem loader_lists_sorted (filterParams : option Filters)
    (restaurants : list RestaurantWithDetails) :
  Permutation (restaurantsWithAttendance restaurants)
              (List.filter (fun r => Nat.ltb 0 (attendeeCount r)) restaurants)
  /\ (forall r, In r (restaurantsWithAttendance restaurants) <->
                In r restaurants /\ 0 < attendeeCount r)
  /\ StronglySorted byAttendanceDesc (restaurantsWithAttendance restaurants)
  /\ StronglySorted byRatingThenDistance (restaurantsNearby filterParams restaurants)
  /\ (forall r, rating (restaurant r) = None -> ratingOrZero r = 0%Q)
  /\ (forall a b x, rating (restaurant a) = None -> rating (restaurant b) = Some x ->
        (0 <= x)%Q -> (ratingOrZero a <= ratingOrZero b)%Q).
Proof.
  split; [apply Array_sort_Permutation|]. split; [|split; [|split; [|split]]].
  - intros r. unfold restaurantsWithAttendance. split.
    + intros H. apply (Permutation_in _ (Array_sort_Permutation _ _)) in H.
      apply filter_In in H as [H1 H2]. split; auto. now apply Nat.ltb_lt.
    + intros [H1 H2].
      apply (Permutation_in _ (Permutation_sym (Array_sort_Permutation _ _))).
      apply filter_In. split; auto. now apply Nat.ltb_lt.
  - apply Array_sort_sorted.
    + intros x y H. now apply compareAttendance_le.
    + intros x y H. unfold byAttendanceDesc.
      destruct (Nat.le_gt_cases (attendeeCount x) (attendeeCount y)) as [Hle|Hgt]; auto.
      assert (Qle_bool (compareAttendance x y) 0 = true); [|congruence].
      apply compareAttendance_le. lia.
    + unfold byAttendanceDesc. intros x y z. lia.
  - apply slice0_sorted, Array_sort_sorted.
    + intros x y H. now apply compareNearby_le.
    + apply compareNearby_gt.
    + apply byRatingThenDistance_trans.
  - intros r H. unfold ratingOrZero. now rewrite H.
  - intros a b x Ha Hb Hx. unfold ratingOrZero. rewrite Ha, Hb.
    destruct (truthyNumber x); [exact Hx|apply Qle_refl].
Qed.

Lemma loader_lists_sorted_witness :
  restaurantsWithAttendance sampleList = [placeF; placeE]
  /\ restaurantsNearby noFilters sampleList = [placeD; placeA; placeG; placeB]
  /\ (In placeE sampleList /\ 0 < attendeeCount placeE)
  /\ In placeE (restaurantsWithAttendance sampleList)
  /\ StronglySorted byAttendanceDesc (restaurantsWithAttendance sampleList)
  /\ StronglySorted byRatingThenDistance (restaurantsNearby noFilters sampleList)
  /\ rating (restaurant placeB) = None
  /\ ratingOrZero placeB = 0%Q
  /\ (rating (restaurant placeG) = Some (30 # 10) /\ (0 <= 30 # 10)%Q)
  /\ (ratingOrZero placeB <= ratingOrZero placeG)%Q.
Proof.
  destruct (loader_lists_sorted noFilters sampleList)
    as (_ & Hmem & Hs1 & Hs2 & Hnone & Hlow).
  assert (He : In placeE sampleList /\ 0 < attendeeCount placeE).
  { split; [cbn; tauto|cbn; lia]. }
  assert (Hpos : (0 <= 30 # 10)%Q) by (vm_compute; discriminate).
  split; [reflexivity|]. split; [reflexivity|]. split; [exact He|].
  split; [exact (proj2 (Hmem placeE) He)|]. split; [exact Hs1|]. split; [exact Hs2|].
  split; [reflexivity|]. split; [exact (Hnone placeB eq_refl)|].
  split; [split; [reflexivity|exact Hpos]|].
  exact (Hlow placeB placeG (30 # 10) eq_refl eq_refl Hpos).
Defined.

(** *** The restaurant cache *)

Lemma cachified_hit (now : Z) (key : string) (ttl : Z)
    (getFreshValue : M Server (list Restaurant)) (s : Server) (e : CacheEntry) :
  lruCache s !! key = Some e ->
  (now <= createdTime e + entry_ttl e)%Z ->
  cachified now key ttl getFreshValue s = (s, inr (value e)).
Proof.
  intros Hl Ht. unfold cachified, bind, gets. rewrite Hl.
  apply Z.leb_le in Ht. now rewrite Ht.
Qed.

Lemma cachified_fresh (now : Z) (key : string) (ttl : Z)
    (getFreshValue : M Server (list Restaurant)) (s : Server) :
  (forall e, lruCache s !! key = Some e -> (createdTime e + entry_ttl e < now)%Z) ->
  cachified now key ttl getFreshValue s =
    match getFreshValue s with
    | (s', inr fresh) =>
        (mkServer (db s') (<[key := mkCacheEntry fresh now ttl]> (lruCache s')), inr fresh)
    | (s', inl err) => (s', inl err)
    end.
Proof.
  intros H. unfold cachified, bind, gets.
  destruct (lruCache s !! key) as [e|] eqn:Hl.
  - specialize (H e eq_refl). apply Z.leb_gt in H. rewrite H.
    destruct (getFreshValue s) as [s' [err|fresh]]; reflexivity.
  - destruct (getFreshValue s) as [s' [err|fresh]]; reflexivity.
Qed.

Lemma liftDb_lruCache {A} (m : M Db A) (s s' : Server) (r : result A) :
  liftDb m s = (s', r) -> lruCache s' = lruCache s.
Proof.
  unfold liftDb. destruct (m (db s)) as [d x]. intros H. now injection H as <- _.
Qed.

Lemma fetchAndUpsertRestaurants_lruCache (env : Places) (lat lng radius : number)
    (s s' : Server) (r : result (list Restaurant)) :
  fetchAndUpsertRestaurants env lat lng radius s = (s', r) -> lruCache s' = lruCache s.
Proof.
  unfold fetchAndUpsertRestaurants.
  destruct (getNearbyRestaurants env lat lng radius) as [e|rs].
  - intros H. now injection H as <- _.
  - apply liftDb_lruCache.
Qed.

(** C3, as amended: the cache key is made of lat, lng and radius as they
    are given, without rounding, and the time-to-live is 24 hours.  When a
    call returns restaurants, the cache holds them under that key; when no
    live entry was there, the entry carries the time of the call and
    86400000 ms; and a later call with the same lat, lng and radius, up to
    the expiry of the entry, returns the same restaurants from the cache,
    whatever the provider would answer, and changes nothing. *)
Theorem getCachedRestaurants_same_key_hits (env : Places) (now : Z)
    (lat lng radius : number) (s s1 : Server) (rs : list Restaurant) :
  getCachedRestaurants env now lat lng radius s = (s1, inr rs) ->
  exists e,
    lruCache s1 !! cacheKey lat lng radius = Some e
    /\ value e = rs
    /\ ((forall old, lruCache s !! cacheKey lat lng radius = Some old ->
                     (createdTime old + entry_ttl old < now)%Z) ->
        e = mkCacheEntry rs now 86400000)
    /\ forall env' now', (now' <= createdTime e + entry_ttl e)%Z ->
         getCachedRestaurants env' now' lat lng radius s1 = (s1, inr rs).
Proof.
  unfold getCachedRestaurants. intros H.
  set (key := cacheKey lat lng radius) in *.
  assert (Hcases :
    (exists e, lruCache s !! key = Some e /\ (now <= createdTime e + entry_ttl e)%Z)
    \/ (forall e, lruCache s !! key = Some e -> (createdTime e + entry_ttl e < now)%Z)).
  { destruct (lruCache s !! key) as [e|]; [|right; discriminate].
    destruct (Z_le_gt_dec now (createdTime e + entry_ttl e)).
    - left. eauto.
    - right. intros e' E. injection E as <-. lia. }
  destruct Hcases as [(e & Hl & Ht)|Hold].
  - rewrite (cachified_hit _ _ _ _ _ _ Hl Ht) in H. injection H as <- <-.
    exists e. split; [exact Hl|]. split; [reflexivity|]. split.
    { intros Hexp. specialize (Hexp e Hl). lia. }
    intros env' now' Hn. now apply cachified_hit.
  - rewrite (cachified_fresh _ _ _ _ _ Hold) in H.
    destruct (fetchAndUpsertRestaurants env lat lng radius s) as [s' [err|fresh]] eqn:E;
      [discriminate|].
    injection H as <- <-.
    exists (mkCacheEntry fresh now RESTAURANT_CACHE_TTL).
    assert (Hl : lruCache (mkServer (db s')
                   (<[key := mkCacheEntry fresh now RESTAURANT_CACHE_TTL]> (lruCache s')))
                 !! key = Some (mkCacheEntry fresh now RESTAURANT_CACHE_TTL)).
    { cbn. apply lookup_insert_eq. }
    split; [exact Hl|]. split; [reflexivity|]. split; [reflexivity|].
    intros env' now' Hn.
    exact (cachified_hit _ _ _ _ _ _ Hl Hn).
Qed.

(** *** The merged restaurant view *)

Lemma upsert_sameMembership (r : Restaurant) (d d' : Db) (x : result Restaurant) :
  prisma_restaurant.upsert r d = (d', x) -> sameMembership d d'.
Proof.
  unfold prisma_restaurant.upsert, sameMembership.
  destruct (List.find _ _); intros H; injection H as <- _; cbn; auto.
Qed.

Lemma mapM_upsert_sameMembership (rs : list Restaurant) (d d' : Db)
    (x : result (list Restaurant)) :
  mapM prisma_restaurant.upsert rs d = (d', x) -> sameMembership d d'.
Proof.
  revert d d' x. induction rs as [|r rs IH]; intros d d' x; cbn.
  - unfold ret. intros H. injection H as <- _. split; reflexivity.
  - unfold bind.
    destruct (prisma_restaurant.upsert r d) as [d1 [e|y]] eqn:E1.
    + intros H. injection H as <- _. eapply upsert_sameMembership; eauto.
    + apply upsert_sameMembership in E1 as [G1 A1].
      destruct (mapM prisma_restaurant.upsert rs d1) as [d2 [e|ys]] eqn:E2;
        apply IH in E2 as [G2 A2]; unfold ret; intros H; injection H as <- _;
        split; congruence.
Qed.

Lemma getCachedRestaurants_sameMembership (env : Places) (now : Z)
    (lat lng radius : number) (s s' : Server) (x : result (list Restaurant)) :
  getCachedRestaurants env now lat lng radius s = (s', x) -> sameMembership (db s) (db s').
Proof.
  assert (Hfresh : forall s1 y,
            fetchAndUpsertRestaurants env lat lng radius s = (s1, y) ->
            sameMembership (db s) (db s1)).
  { unfold fetchAndUpsertRestaurants, liftDb. intros s1 y.
    destruct (getNearbyRestaurants env lat lng radius) as [e|rs].
    - intros H. injection H as <- _. split; reflexivity.
    - destruct (mapM prisma_restaurant.upsert rs (db s)) as [d1 z] eqn:E.
      intros H. injection H as <- _. cbn. eapply mapM_upsert_sameMembership; eauto. }
  unfold getCachedRestaurants, cachified, bind, gets, modify, ret.
  destruct (lruCache s !! cacheKey lat lng radius) as [e|].
  - destruct (now <=? createdTime e + entry_ttl e)%Z.
    + intros H. injection H as <- _. split; reflexivity.
    + destruct (fetchAndUpsertRestaurants env lat lng radius s) as [s1 [err|fresh]] eqn:E;
        intros H; injection H as <- _; cbn; eapply Hfresh; eauto.
  - destruct (fetchAndUpsertRestaurants env lat lng radius s) as [s1 [err|fresh]] eqn:E;
      intros H; injection H as <- _; cbn; eapply Hfresh; eauto.
Qed.

Lemma getUserAttendingRestaurant_run (userId : string) (d : Db) :
  getUserAttendingRestaurant userId d = (d, inr (userAttendanceOf userId d)).
Proof.
  unfold getUserAttendingRestaurant, userAttendanceOf, bind, prisma.attendee_findFirst,
    prisma.attendee_dinnerGroup, gets, ret.
  destruct (List.find (prisma.userIs userId) (attendees d)); reflexivity.
Qed.

Lemma objectSet_lookup_ne (k' k : string) (n : nat) (m : gmap string nat) :
  k' <> k -> objectSet k' n m !! k = m !! k.
Proof.
  intros H. unfold objectSet. destruct (String.eqb k' "__proto__"); [reflexivity|].
  now apply lookup_insert_ne.
Qed.

Lemma objectSet_lookup_eq (k : string) (n : nat) (m : gmap string nat) :
  k <> "__proto__" -> objectSet k n m !! k = Some n.
Proof.
  intros H. unfold objectSet. destruct (String.eqb_spec k "__proto__"); [contradiction|].
  apply lookup_insert_eq.
Qed.

Lemma objectSet_lookup_proto (k : string) (n : nat) (m : gmap string nat) :
  objectSet k n m !! "__proto__" = m !! "__proto__".
Proof.
  unfold objectSet. destruct (String.eqb_spec k "__proto__") as [E|E]; [reflexivity|].
  now apply lookup_insert_ne.
Qed.

Lemma counts_lookup_None (groups : list (DinnerGroup * nat)) (m : gmap string nat)
    (k : string) :
  m !! k = None ->
  (forall g, In g groups -> dg_restaurantId (fst g) <> k) ->
  List.fold_left
    (fun (counts : gmap string nat) (group : DinnerGroup * nat) =>
       objectSet (dg_restaurantId (fst group)) (snd group) counts) groups m !! k = None.
Proof.
  revert m. induction groups as [|g groups IH]; intros m Hm Hall; cbn; auto.
  apply IH.
  - rewrite objectSet_lookup_ne; auto. apply Hall. now left.
  - intros g' Hg'. apply Hall. now right.
Qed.

Lemma counts_lookup_proto (groups : list (DinnerGroup * nat)) (m : gmap string nat) :
  List.fold_left
    (fun (counts : gmap string nat) (group : DinnerGroup * nat) =>
       objectSet (dg_restaurantId (fst group)) (snd group) counts) groups m
    !! "__proto__" = m !! "__proto__".
Proof.
  revert m. induction groups as [|g groups IH]; intros m; cbn; auto.
  rewrite IH. apply objectSet_lookup_proto.
Qed.

Lemma getAllRestaurantDetails_run
    (calculateDistance : number -> number -> number -> number -> number)
    (env : Places) (now : Z) (lat lng : number) (userId : string) (radius : number)
    (s s' : Server) (out : list DetailsValue) :
  getAllRestaurantDetails calculateDistance env now lat lng userId radius s = (s', inr out) ->
  sameMembership (db s) (db s')
  /\ exists rs counts,
       getAttendeeCounts (List.map id rs) (db s') = (db s', inr counts)
       /\ out = List.map (withDetails calculateDistance lat lng
                            (userAttendanceOf userId (db s)) counts) rs.
Proof.
  unfold getAllRestaurantDetails, bind at 1.
  unfold liftDb at 1. rewrite getUserAttendingRestaurant_run.
  replace (mkServer (db s) (lruCache s)) with s by (destruct s; reflexivity).
  unfold bind at 1.
  destruct (getCachedRestaurants env now lat lng radius s) as [s1 [e|rs]] eqn:E;
    [discriminate|].
  apply getCachedRestaurants_sameMembership in E.
  unfold bind, liftDb, ret.
  destruct (getAttendeeCounts (List.map id rs) (db s1)) as [d2 [e|counts]] eqn:Ec;
    [discriminate|].
  assert (d2 = db s1).
  { unfold getAttendeeCounts, bind, prisma_restaurant.dinnerGroup_findMany, gets, ret in Ec.
    now injection Ec as <- _. }
  subst d2. intros H. injection H as <- <-. cbn [db].
  split; [exact E|]. exists rs, counts. split; [exact Ec|reflexivity].
Qed.

Lemma userAttendanceOf_iff (userId restaurantId : string) (d : Db) :
  store_inv d ->
  (userAttendanceOf userId d = Some (Some restaurantId) <->
   exists a g, In a (attendees d) /\ at_userId a = userId
               /\ In g (dinnerGroups d) /\ dg_id g = at_dinnerGroupId a
               /\ dg_restaurantId g = restaurantId).
Proof.
  intros Hinv. unfold userAttendanceOf. split.
  - destruct (List.find (prisma.userIs userId) (attendees d)) as [a|] eqn:Ea;
      [|discriminate].
    destruct (List.find (prisma.groupIdIs (at_dinnerGroupId a)) (dinnerGroups d))
      as [g|] eqn:Eg; [|discriminate].
    cbn. intros H. injection H as H.
    apply find_some in Ea as [Ha Hu]. apply userIs_true in Hu.
    apply find_some in Eg as [Hg Hi]. apply Nat.eqb_eq in Hi.
    exists a, g. auto.
  - intros (a & g & Ha & Hu & Hg & Hi & Hr).
    destruct (List.find (prisma.userIs userId) (attendees d)) as [a'|] eqn:Ea.
    2:{ apply (find_none _ _ Ea) in Ha. apply userIs_true in Hu. congruence. }
    apply find_some in Ea as [Ha' Hu']. apply userIs_true in Hu'.
    assert (a' = a).
    { eapply (NoDup_map_In_eq at_userId); [apply (inv_attendee_users _ Hinv)| | |];
        eauto. congruence. }
    subst a'.
    destruct (List.find (prisma.groupIdIs (at_dinnerGroupId a)) (dinnerGroups d))
      as [g'|] eqn:Eg.
    2:{ apply (find_none _ _ Eg) in Hg. unfold prisma.groupIdIs in Hg.
        rewrite Hi, Nat.eqb_refl in Hg. discriminate. }
    apply find_some in Eg as [Hg' Hi']. apply Nat.eqb_eq in Hi'.
    assert (g' = g).
    { eapply (NoDup_map_In_eq dg_id); [apply (inv_group_ids _ Hinv)| | |]; eauto.
      congruence. }
    subst g'. cbn. now rewrite Hr.
Qed.

Lemma isUserAttending_withDetails
    (calculateDistance : number -> number -> number -> number -> number)
    (lat0 lng0 : number) (ua : option (option string)) (counts : gmap string nat)
    (x : Restaurant) :
  v_isUserAttending (withDetails calculateDistance lat0 lng0 ua counts x) = true <->
  ua = Some (Some (id x)).
Proof.
  cbn. destruct ua as [[rid|]|]; split; try discriminate.
  - intros H. apply String.eqb_eq in H. now subst.
  - intros H. injection H as ->. apply String.eqb_refl.
Qed.

(** C10, evaluated where it fails.  The provider knows the places "a" and
    "constructor"; alice and bob dine at "a", and no DinnerGroup row exists
    for "constructor".  The call returns, and the attendeeCount of
    "constructor" is not 0: [attendeeCounts["constructor"]] finds the
    member that every object inherits, which is truthy, so [|| 0] keeps
    it. *)
Theorem getAllRestaurantDetails_inherited_count :
  List.existsb (prisma.restaurantIs "constructor") (dinnerGroups (db diningServer)) = false
  /\ attendeesAt "constructor" (db diningServer) = []
  /\ match snd constructorRun with
     | inr out =>
         List.map (fun r => (id (v_restaurant r), v_attendeeCount r, v_isUserAttending r)) out
         = [("a", Count 2, true);
            ("constructor", InheritedMember "constructor", false)]
     | inl _ => False
     end.
Proof. repeat split; vm_compute; reflexivity. Qed.

Lemma getCachedRestaurants_same_key_hits_witness :
  firstCall = (afterFirstCall, inr firstRestaurants)
  /\ lruCache emptyServer !! cacheKey HILTON_LAT HILTON_LNG 3200%Q = None
  /\ lruCache afterFirstCall !! cacheKey HILTON_LAT HILTON_LNG 3200%Q
     = Some (mkCacheEntry firstRestaurants 0 86400000)
  /\ (86400000 <= 0 + 86400000)%Z
  /\ getCachedRestaurants deniedPlaces 86400000 HILTON_LAT HILTON_LNG 3200%Q afterFirstCall
     = (afterFirstCall, inr firstRestaurants).
Proof.
  assert (E : firstCall = (afterFirstCall, inr firstRestaurants))
    by (vm_compute; reflexivity).
  assert (Hempty : lruCache emptyServer !! cacheKey HILTON_LAT HILTON_LNG 3200%Q = None)
    by apply lookup_empty.
  assert (Hnolive : forall old,
            lruCache emptyServer !! cacheKey HILTON_LAT HILTON_LNG 3200%Q = Some old ->
            (createdTime old + entry_ttl old < 0)%Z).
  { intros old Hold. rewrite Hempty in Hold. discriminate. }
  assert (Ht : (86400000 <= 0 + 86400000)%Z) by lia.
  destruct (getCachedRestaurants_same_key_hits samplePlaces 0 HILTON_LAT HILTON_LNG
              3200%Q emptyServer afterFirstCall firstRestaurants E)
    as (e & Hl & Hv & Hnew & Hhit).
  specialize (Hnew Hnolive). subst e.
  split; [exact E|]. split; [exact Hempty|]. split; [exact Hl|]. split; [exact Ht|].
  exact (Hhit deniedPlaces 86400000%Z Ht).
Defined.

(** C3, as stated, fails: the two latitudes agree when rounded to any
    number of decimals up to eight, longitude and radius are the same, and
    the second call comes one second after the first; yet the keys differ,
    the entry of the first call is not the one looked up, and the second
    call goes to the provider, whose refusal it throws. *)
Lemma getCachedRestaurants_rounded_key_counterexample :
  List.forallb (fun k => Qeq_bool (roundTo k HILTON_LAT) (roundTo k NEAR_HILTON_LAT))
    (List.seq 0 9) = true
  /\ cacheKey HILTON_LAT HILTON_LNG 3200%Q = "restaurants-40.7596--111.8867-3200"
  /\ cacheKey NEAR_HILTON_LAT HILTON_LNG 3200%Q = "restaurants-40.759600001--111.8867-3200"
  /\ firstCall = (afterFirstCall, inr firstRestaurants)
  /\ lruCache afterFirstCall !! cacheKey HILTON_LAT HILTON_LNG 3200%Q
     = Some (mkCacheEntry firstRestaurants 0 86400000)
  /\ lruCache afterFirstCall !! cacheKey NEAR_HILTON_LAT HILTON_LNG 3200%Q = None
  /\ snd (getCachedRestaurants deniedPlaces 1000 NEAR_HILTON_LAT HILTON_LNG 3200%Q
            afterFirstCall)
     = inl (PlacesApiError "REQUEST_DENIED").
Proof. repeat split; vm_compute; reflexivity. Qed.

(** *** Membership transitions, step by step *)

Lemma leave_run (u : string) (d : Db) (a : Attendee) (g : DinnerGroup) :
  List.find (prisma.userIs u) (attendees d) = Some a ->
  List.find (prisma.groupIdIs (at_dinnerGroupId a)) (dinnerGroups d) = Some g ->
  leaveDinnerGroup u d =
    (mkDb (restaurants d)
       (if Nat.eqb
             (List.length
                (List.filter (prisma.inGroup (at_dinnerGroupId a))
                   (List.filter (fun x => negb (Nat.eqb (at_id x) (at_id a))) (attendees d))))
             0
        then List.filter (fun x => negb (prisma.groupIdIs (at_dinnerGroupId a) x))
               (dinnerGroups d)
        else dinnerGroups d)
       (List.filter (fun x => negb (Nat.eqb (at_id x) (at_id a))) (attendees d))
       (nextId d),
     inr (Some (dg_restaurantId g))).
Proof.
  intros Hfind Hg.
  assert (Hex : List.existsb (fun x => Nat.eqb (at_id x) (at_id a)) (attendees d) = true).
  { apply existsb_exists. exists a. split; [|apply Nat.eqb_refl].
    now apply find_some in Hfind. }
  assert (Hexg : List.existsb (prisma.groupIdIs (at_dinnerGroupId a)) (dinnerGroups d) = true).
  { apply existsb_exists. exists g. now apply find_some in Hg. }
  unfold leaveDinnerGroup, bind, prisma.attendee_findFirst, prisma.attendee_dinnerGroup,
    prisma.attendee_delete, prisma.attendee_count, prisma.dinnerGroup_delete, gets, ret.
  rewrite Hfind, Hg, Hex. cbn [attendees dinnerGroups restaurants nextId].
  destruct (Nat.eqb _ 0); cbn [attendees dinnerGroups restaurants nextId].
  - rewrite Hexg. reflexivity.
  - reflexivity.
Qed.

Lemma join_run (u r : string) (d d1 : Db) (r1 : option string) :
  leaveDinnerGroup u d = (d1, inr r1) ->
  joinDinnerGroup u r d =
    match List.find (prisma.restaurantIs r) (dinnerGroups d1) with
    | Some g =>
        (mkDb (restaurants d1) (dinnerGroups d1)
           (attendees d1 ++ [mkAttendee (nextId d1) u (dg_id g)]) (S (nextId d1)),
         inr (mkAttendee (nextId d1) u (dg_id g)))
    | None =>
        (mkDb (restaurants d1) (dinnerGroups d1 ++ [mkDinnerGroup (nextId d1) r])
           (attendees d1 ++ [mkAttendee (S (nextId d1)) u (nextId d1)])
           (S (S (nextId d1))),
         inr (mkAttendee (S (nextId d1)) u (nextId d1)))
    end.
Proof.
  intros Hleave. unfold joinDinnerGroup, bind at 1. rewrite Hleave.
  unfold bind, prisma.dinnerGroup_findUnique, gets, ret, prisma.dinnerGroup_create,
    prisma.attendee_create.
  destruct (List.find (prisma.restaurantIs r) (dinnerGroups d1)) as [g|] eqn:Hfind.
  - assert (Hex : List.existsb (prisma.groupIdIs (dg_id g)) (dinnerGroups d1) = true).
    { apply existsb_exists. exists g. split; [|apply Nat.eqb_refl].
      now apply find_some in Hfind. }
    now rewrite Hex.
  - assert (Hnew : List.existsb (prisma.restaurantIs r) (dinnerGroups d1) = false).
    { destruct (List.existsb (prisma.restaurantIs r) (dinnerGroups d1)) eqn:E; auto.
      apply existsb_exists in E as (x & Hx & E). apply (find_none _ _ Hfind) in Hx.
      congruence. }
    rewrite Hnew. cbn [dg_id dinnerGroups attendees restaurants nextId].
    assert (Hex : List.existsb (prisma.groupIdIs (nextId d1))
                    (dinnerGroups d1 ++ [mkDinnerGroup (nextId d1) r]) = true).
    { apply existsb_exists. exists (mkDinnerGroup (nextId d1) r).
      split; [apply in_app_iff; right; now left|apply Nat.eqb_refl]. }
    now rewrite Hex.
Qed.

Lemma find_group_of (d : Db) (a : Attendee) :
  store_inv d -> In a (attendees d) ->
  exists g, List.find (prisma.groupIdIs (at_dinnerGroupId a)) (dinnerGroups d) = Some g
            /\ In g (dinnerGroups d) /\ dg_id g = at_dinnerGroupId a.
Proof.
  intros Hinv Ha. destruct (inv_relation _ Hinv a Ha) as (g0 & Hg0 & Eg0).
  destruct (List.find (prisma.groupIdIs (at_dinnerGroupId a)) (dinnerGroups d))
    as [g|] eqn:Hg.
  - exists g. apply find_some in Hg as [Hin E]. apply Nat.eqb_eq in E. auto.
  - apply (find_none _ _ Hg) in Hg0. unfold prisma.groupIdIs in Hg0.
    rewrite Eg0, Nat.eqb_refl in Hg0. discriminate.
Qed.

Lemma memberOf_unique_group (d : Db) (a : Attendee) (g : DinnerGroup) (v r : string) :
  store_inv d -> In a (attendees d) -> at_userId a = v ->
  In g (dinnerGroups d) -> dg_id g = at_dinnerGroupId a ->
  memberOf d v r -> dg_restaurantId g = r.
Proof.
  intros Hinv Ha Hv Hg Eg (a' & g' & Ha' & Hv' & Hg' & Eg' & Er).
  assert (a' = a).
  { eapply (NoDup_map_In_eq at_userId); [apply (inv_attendee_users _ Hinv)| | |]; eauto.
    congruence. }
  subst a'.
  assert (g' = g).
  { eapply (NoDup_map_In_eq dg_id); [apply (inv_group_ids _ Hinv)| | |]; eauto.
    congruence. }
  now subst g'.
Qed.

(** Membership after a leave, from the facts [leave_spec] gives. *)
Lemma leave_member (u : string) (d d1 : Db) (r1 : option string) :
  store_inv d -> leaveDinnerGroup u d = (d1, inr r1) ->
  forall v r, memberOf d1 v r <-> v <> u /\ memberOf d v r.
Proof.
  intros Hinv E v r.
  destruct (leave_spec u d Hinv) as (d1' & r1' & E' & Hinv1 & Hgone & _ & Hsub & Hkeep & Hgsub).
  rewrite E in E'. injection E' as <- <-.
  split.
  - intros (a & g & Ha & Hv & Hg & Eg & Er). split.
    + subst v. now apply Hgone.
    + exists a, g. auto 10.
  - intros [Hne (a & g & Ha & Hv & Hg & Eg & Er)].
    assert (Ha1 : In a (attendees d1)) by (apply Hkeep; congruence).
    destruct (inv_relation _ Hinv1 a Ha1) as (g1 & Hg1 & Eg1).
    assert (g1 = g).
    { eapply (NoDup_map_In_eq dg_id); [apply (inv_group_ids _ Hinv)| | |]; eauto.
      congruence. }
    subst g1. exists a, g. auto 10.
Qed.

Lemma rows_after_delete (v : string) (a : Attendee) (l : list Attendee) :
  List.NoDup (List.map at_id l) -> In a l -> at_userId a <> v ->
  List.filter (prisma.userIs v)
    (List.filter (fun x => negb (Nat.eqb (at_id x) (at_id a))) l)
  = List.filter (prisma.userIs v) l.
Proof.
  intros Hnd Ha Hne.
  assert (H : forall x, In x l -> prisma.userIs v x = true ->
                        negb (Nat.eqb (at_id x) (at_id a)) = true).
  { intros x Hx Hv. apply negb_true_iff, Nat.eqb_neq. intros E.
    assert (x = a) by (eapply (NoDup_map_In_eq at_id); eauto).
    subst x. apply userIs_true in Hv. contradiction. }
  clear Hnd Ha. induction l as [|x l IH]; cbn; auto.
  destruct (prisma.userIs v x) eqn:Hv.
  - rewrite (H x (or_introl eq_refl) Hv). cbn. rewrite Hv. f_equal.
    apply IH. intros y Hy. apply H. now right.
  - destruct (negb (Nat.eqb (at_id x) (at_id a))); cbn; [rewrite Hv|];
      apply IH; intros y Hy; apply H; now right.
Qed.

Lemma leave_frame (u v : string) (d : Db) :
  store_inv d -> v <> u ->
  rowsOfUser v (fst (leaveDinnerGroup u d)) = rowsOfUser v d
  /\ restaurants (fst (leaveDinnerGroup u d)) = restaurants d
  /\ nextId (fst (leaveDinnerGroup u d)) = nextId d.
Proof.
  intros Hinv Hne.
  destruct (List.find (prisma.userIs u) (attendees d)) as [a|] eqn:Hfind.
  - apply find_some in Hfind as Ha. destruct Ha as [Ha Hu]. apply userIs_true in Hu.
    destruct (find_group_of d a Hinv Ha) as (g & Hg & _).
    rewrite (leave_run u d a g Hfind Hg). cbn [fst]. unfold rowsOfUser.
    cbn [attendees restaurants nextId]. repeat split.
    apply rows_after_delete; [apply Hinv|exact Ha|congruence].
  - rewrite (leave_absent u d); [repeat split|].
    now apply find_userIs_None.
Qed.

(** *** Further properties of the membership calls *)

Lemma join_member (userId restaurantId : string) (d d' : Db) (a : Attendee) :
  store_inv d ->
  joinDinnerGroup userId restaurantId d = (d', inr a) ->
  forall v r,
    memberOf d' v r <->
    (v = userId /\ r = restaurantId) \/ (v <> userId /\ memberOf d v r).
Proof.
  intros Hinv E0 v r.
  destruct (leave_spec userId d Hinv)
    as (d1 & r1 & Hleave & Hinv1 & Hgone & _ & _ & _ & _).
  pose proof (leave_member userId d d1 r1 Hinv Hleave) as Hmem.
  destruct (join_spec userId restaurantId d Hinv)
    as (d0 & a0 & E & Hinv' & Hrows & (gt & Hgt & Egt & Ert) & _).
  rewrite E0 in E. injection E as <- <-. pose proof E0 as E.
  assert (Ha' : In a (attendees d') /\ at_userId a = userId).
  { assert (H : In a (rowsOfUser userId d')) by (rewrite Hrows; now left).
    apply filter_In in H as [H1 H2]. split; auto. now apply userIs_true. }
  destruct Ha' as [Ha' Hau].
  assert (Hshape : (forall x, In x (attendees d') <-> In x (attendees d1) \/ x = a)
                   /\ (forall g, In g (dinnerGroups d1) -> In g (dinnerGroups d'))).
  { rewrite (join_run userId restaurantId d d1 r1 Hleave) in E.
    destruct (List.find (prisma.restaurantIs restaurantId) (dinnerGroups d1));
      injection E as <- <-; cbn [attendees dinnerGroups]; split.
    - intros x. rewrite in_app_iff. cbn. intuition.
    - auto.
    - intros x. rewrite in_app_iff. cbn. intuition.
    - intros g Hg. apply in_app_iff. now left. }
  destruct Hshape as [Hatt Hgrp].
  split.
  - intros (x & g & Hx & Hv & Hg & Eg & Er).
    apply Hatt in Hx as [Hx| ->].
    + right. destruct (inv_relation _ Hinv1 x Hx) as (g1 & Hg1 & Eg1).
      assert (g1 = g).
      { eapply (NoDup_map_In_eq dg_id); [apply (inv_group_ids _ Hinv')| | |]; eauto.
        congruence. }
      subst g1.
      assert (Hm1 : memberOf d1 v r) by (exists x, g; auto 10).
      exact (proj1 (Hmem v r) Hm1).
    + left. split; [congruence|].
      assert (g = gt).
      { eapply (NoDup_map_In_eq dg_id); [apply (inv_group_ids _ Hinv')| | |]; eauto.
        congruence. }
      congruence.
  - intros [[-> ->]|[Hne Hm]].
    + exists a, gt. auto 10.
    + assert (Hm1 : memberOf d1 v r) by (apply (proj2 (Hmem v r)); auto).
      destruct Hm1 as (x & g & Hx & Hv & Hg & Eg & Er).
      exists x, g. repeat split; auto. apply Hatt. now left.
Qed.

(** X1: on a well-formed store, after [joinDinnerGroup(userId, restaurantId)]
    the user dines at the target restaurant and nowhere else, and every
    other user dines where they dined before. *)
Theorem joinDinnerGroup_membership (userId restaurantId : string) (d : Db) :
  store_inv d ->
  forall v r,
    memberOf (fst (joinDinnerGroup userId restaurantId d)) v r <->
    (v = userId /\ r = restaurantId) \/ (v <> userId /\ memberOf d v r).
Proof.
  intros Hinv v r.
  destruct (join_spec userId restaurantId d Hinv) as (d' & a & E & _).
  rewrite E. cbn [fst].
  exact (join_member userId restaurantId d d' a Hinv E v r).
Qed.

Lemma joinDinnerGroup_membership_witness :
  store_inv sampleDb
  /\ forall v r,
       memberOf (fst (joinDinnerGroup "alice" "r2" sampleDb)) v r <->
       (v = "alice" /\ r = "r2") \/ (v <> "alice" /\ memberOf sampleDb v r).
Proof.
  assert (Hinv : store_inv sampleDb) by (apply store_invb_sound; vm_compute; reflexivity).
  split; [exact Hinv|]. exact (joinDinnerGroup_membership "alice" "r2" sampleDb Hinv).
Defined.

(** X2: on a well-formed store, after [leaveDinnerGroup(userId)] the user
    dines nowhere and every other user dines where they dined before; the
    call returns the restaurant the user was dining at, and null exactly
    when there was none. *)
Theorem leaveDinnerGroup_membership (userId : string) (d : Db) :
  store_inv d ->
  (forall v r, memberOf (fst (leaveDinnerGroup userId d)) v r <->
               v <> userId /\ memberOf d v r)
  /\ (forall r, snd (leaveDinnerGroup userId d) = inr (Some r) <-> memberOf d userId r)
  /\ (snd (leaveDinnerGroup userId d) = inr None <-> forall r, ~ memberOf d userId r).
Proof.
  intros Hinv. split.
  { destruct (leave_spec userId d Hinv) as (d1 & r1 & E & _).
    rewrite E. cbn [fst]. exact (leave_member userId d d1 r1 Hinv E). }
  destruct (List.find (prisma.userIs userId) (attendees d)) as [a|] eqn:Hfind.
  - apply find_some in Hfind as Ha. destruct Ha as [Ha Hu]. apply userIs_true in Hu.
    destruct (find_group_of d a Hinv Ha) as (g & Hg & Hgin & Eg).
    rewrite (leave_run userId d a g Hfind Hg). cbn [snd].
    assert (Hm : memberOf d userId (dg_restaurantId g)) by (exists a, g; auto 10).
    split.
    + intros r. split.
      * intros H. injection H as <-. exact Hm.
      * intros H. do 2 f_equal.
        exact (memberOf_unique_group d a g userId r Hinv Ha Hu Hgin Eg H).
    + split; [discriminate|]. intros H. now apply H in Hm.
  - pose proof (proj1 (find_userIs_None _ _) Hfind) as Hnone.
    rewrite (leave_absent userId d Hnone). cbn [snd].
    assert (Hno : forall r, ~ memberOf d userId r).
    { intros r (a & g & Ha & Hu & _). now apply Hnone in Ha. }
    split.
    + intros r. split; [discriminate|]. intros H. now apply Hno in H.
    + split; auto.
Qed.

Lemma leaveDinnerGroup_membership_witness :
  store_inv sampleDb
  /\ (forall v r, memberOf (fst (leaveDinnerGroup "carol" sampleDb)) v r <->
                  v <> "carol" /\ memberOf sampleDb v r)
  /\ (forall r, snd (leaveDinnerGroup "carol" sampleDb) = inr (Some r) <->
                memberOf sampleDb "carol" r)
  /\ (snd (leaveDinnerGroup "carol" sampleDb) = inr None <->
      forall r, ~ memberOf sampleDb "carol" r).
Proof.
  assert (Hinv : store_inv sampleDb) by (apply store_invb_sound; vm_compute; reflexivity).
  split; [exact Hinv|]. exact (leaveDinnerGroup_membership "carol" sampleDb Hinv).
Defined.

(** X3: on a well-formed store, neither call touches the Attendee rows of
    another user, nor the Restaurant table. *)
Theorem membership_calls_frame (userId restaurantId other : string) (d : Db) :
  store_inv d -> other <> userId ->
  rowsOfUser other (fst (leaveDinnerGroup userId d)) = rowsOfUser other d
  /\ rowsOfUser other (fst (joinDinnerGroup userId restaurantId d)) = rowsOfUser other d
  /\ restaurants (fst (leaveDinnerGroup userId d)) = restaurants d
  /\ restaurants (fst (joinDinnerGroup userId restaurantId d)) = restaurants d.
Proof.
  intros Hinv Hne.
  destruct (leave_frame userId other d Hinv Hne) as (Hrows & Hrest & _).
  destruct (leave_spec userId d Hinv) as (d1 & r1 & Hleave & _).
  rewrite Hleave in Hrows, Hrest. cbn [fst] in Hrows, Hrest.
  split; [now rewrite Hleave|]. split; [|split; [now rewrite Hleave|]].
  - rewrite (join_run userId restaurantId d d1 r1 Hleave).
    assert (Hu : forall i g, prisma.userIs other (mkAttendee i userId g) = false).
    { intros i g. unfold prisma.userIs. cbn. apply String.eqb_neq. congruence. }
    destruct (List.find (prisma.restaurantIs restaurantId) (dinnerGroups d1));
      cbn [fst]; unfold rowsOfUser in *; cbn [attendees];
      rewrite List.filter_app; cbn [List.filter]; rewrite Hu, app_nil_r; exact Hrows.
  - rewrite (join_run userId restaurantId d d1 r1 Hleave).
    destruct (List.find (prisma.restaurantIs restaurantId) (dinnerGroups d1));
      cbn [fst restaurants]; exact Hrest.
Qed.

Lemma membership_calls_frame_witness :
  store_inv sampleDb /\ "bob" <> "alice"
  /\ rowsOfUser "bob" (fst (leaveDinnerGroup "alice" sampleDb)) = rowsOfUser "bob" sampleDb
  /\ rowsOfUser "bob" (fst (joinDinnerGroup "alice" "r2" sampleDb)) = rowsOfUser "bob" sampleDb
  /\ restaurants (fst (leaveDinnerGroup "alice" sampleDb)) = restaurants sampleDb
  /\ restaurants (fst (joinDinnerGroup "alice" "r2" sampleDb)) = restaurants sampleDb.
Proof.
  assert (Hinv : store_inv sampleDb) by (apply store_invb_sound; vm_compute; reflexivity).
  assert (Hne : "bob" <> "alice") by discriminate.
  split; [exact Hinv|]. split; [exact Hne|].
  exact (membership_calls_frame "alice" "r2" "bob" sampleDb Hinv Hne).
Defined.

(** X4: every store reached from the empty store by joinDinnerGroup and
    leaveDinnerGroup calls keeps referential integrity: each Attendee row
    points to an existing DinnerGroup, and each DinnerGroup has at least one
    Attendee row. *)
Theorem reachable_integrity (d : Db) :
  reachable d ->
  (forall a, In a (attendees d) ->
     exists g, In g (dinnerGroups d) /\ dg_id g = at_dinnerGroupId a)
  /\ (forall g, In g (dinnerGroups d) ->
        List.filter (prisma.inGroup (dg_id g)) (attendees d) <> []).
Proof.
  intros Hr. apply reachable_store_inv in Hr. split; [apply Hr|].
  intros g Hg E. destruct (inv_no_empty_group _ Hr g Hg) as (a & Ha & Ea).
  assert (H : In a (List.filter (prisma.inGroup (dg_id g)) (attendees d))).
  { apply filter_In. split; auto. unfold prisma.inGroup. now apply Nat.eqb_eq. }
  rewrite E in H. destruct H.
Qed.

Lemma reachable_integrity_witness :
  reachable reachedDb
  /\ (forall a, In a (attendees reachedDb) ->
        exists g, In g (dinnerGroups reachedDb) /\ dg_id g = at_dinnerGroupId a)
  /\ (forall g, In g (dinnerGroups reachedDb) ->
        List.filter (prisma.inGroup (dg_id g)) (attendees reachedDb) <> []).
Proof.
  assert (Hr : reachable reachedDb).
  { unfold reachedDb. repeat apply reachable_call. apply reachable_empty. }
  split; [exact Hr|]. exact (reachable_integrity reachedDb Hr).
Defined.

(** *** Attendee counts *)

Lemma counts_lookup_other (groups : list (DinnerGroup * nat)) (m : gmap string nat)
    (k : string) :
  (forall g, In g groups -> dg_restaurantId (fst g) <> k) ->
  List.fold_left
    (fun (counts : gmap string nat) (group : DinnerGroup * nat) =>
       objectSet (dg_restaurantId (fst group)) (snd group) counts) groups m !! k = m !! k.
Proof.
  revert m. induction groups as [|g groups IH]; intros m Hall; cbn; auto.
  rewrite IH.
  - apply objectSet_lookup_ne. apply Hall. now left.
  - intros g' Hg'. apply Hall. now right.
Qed.

Lemma counts_lookup_Some (groups : list (DinnerGroup * nat)) (m : gmap string nat)
    (g : DinnerGroup) (n : nat) :
  List.NoDup (List.map (fun x => dg_restaurantId (fst x)) groups) ->
  In (g, n) groups ->
  dg_restaurantId g <> "__proto__" ->
  List.fold_left
    (fun (counts : gmap string nat) (group : DinnerGroup * nat) =>
       objectSet (dg_restaurantId (fst group)) (snd group) counts) groups m
    !! dg_restaurantId g = Some n.
Proof.
  revert m. induction groups as [|x groups IH]; intros m Hnd Hin Hp; [destruct Hin|].
  inversion Hnd as [|? ? Hnin Hnd']; subst. cbn [List.fold_left].
  destruct Hin as [->|Hin].
  - rewrite counts_lookup_other; [now apply objectSet_lookup_eq|].
    intros g' Hg' E. apply Hnin. cbn [fst] in *. rewrite <- E.
    now apply (in_map (fun x => dg_restaurantId (fst x))).
  - now apply IH.
Qed.

Lemma attendeesAt_group (d : Db) (g : DinnerGroup) :
  store_inv d -> In g (dinnerGroups d) ->
  attendeesAt (dg_restaurantId g) d
  = List.filter (prisma.inGroup (dg_id g)) (attendees d).
Proof.
  intros Hinv Hg. unfold attendeesAt. apply List.filter_ext. intros a.
  destruct (prisma.inGroup (dg_id g) a) eqn:E.
  - apply existsb_exists. exists g. split; auto.
    unfold prisma.inGroup in E. apply Nat.eqb_eq in E.
    apply andb_true_iff. split.
    + unfold prisma.groupIdIs. rewrite E. apply Nat.eqb_refl.
    + unfold prisma.restaurantIs. apply String.eqb_refl.
  - destruct (List.existsb _ (dinnerGroups d)) eqn:Ex; auto.
    apply existsb_exists in Ex as (g' & Hg' & H).
    apply andb_true_iff in H as [H1 H2].
    unfold prisma.groupIdIs, prisma.restaurantIs in *.
    apply Nat.eqb_eq in H1. apply String.eqb_eq in H2.
    assert (g' = g).
    { eapply (NoDup_map_In_eq dg_restaurantId);
        [apply (inv_group_restaurants _ Hinv)| | |]; eauto. }
    subst g'. unfold prisma.inGroup in E. rewrite H1, Nat.eqb_refl in E. discriminate.
Qed.

Lemma attendeesAt_no_group (d : Db) (r : string) :
  (forall g, In g (dinnerGroups d) -> dg_restaurantId g <> r) ->
  attendeesAt r d = [].
Proof.
  intros H. unfold attendeesAt. apply filter_nil_of_false. intros a _.
  destruct (List.existsb _ (dinnerGroups d)) eqn:Ex; auto.
  apply existsb_exists in Ex as (g & Hg & E). apply andb_true_iff in E as [_ E].
  apply String.eqb_eq in E. now apply H in Hg.
Qed.

Lemma memberOf_attendeesAt (d : Db) (u r : string) :
  memberOf d u r -> 1 <= List.length (attendeesAt r d).
Proof.
  intros (a & g & Ha & _ & Hg & Eg & Er).
  assert (H : In a (attendeesAt r d)).
  { apply filter_In. split; auto. apply existsb_exists. exists g. split; auto.
    unfold prisma.groupIdIs, prisma.restaurantIs.
    rewrite Eg, Er, Nat.eqb_refl, String.eqb_refl. reflexivity. }
  destruct (attendeesAt r d); [destruct H|cbn; lia].
Qed.

Lemma attendeeCounts_lookup (restaurantIds : list string) (d : Db) :
  store_inv d ->
  exists counts,
    getAttendeeCounts restaurantIds d = (d, inr counts)
    /\ forall r n,
         counts !! r = Some n <->
         In r restaurantIds
         /\ r <> "__proto__"
         /\ (exists g, In g (dinnerGroups d) /\ dg_restaurantId g = r)
         /\ n = List.length (attendeesAt r d).
Proof.
  intros Hinv.
  unfold getAttendeeCounts, bind, prisma_restaurant.dinnerGroup_findMany, gets, ret.
  eexists. split; [reflexivity|].
  set (selected := List.filter
                     (fun g => List.existsb (String.eqb (dg_restaurantId g)) restaurantIds)
                     (dinnerGroups d)).
  set (rows := List.map
                 (fun g => (g, List.length (List.filter (prisma.inGroup (dg_id g))
                                              (attendees d)))) selected).
  assert (Hnd : List.NoDup (List.map (fun x => dg_restaurantId (fst x)) rows)).
  { unfold rows. rewrite List.map_map. cbn [fst]. unfold selected.
    apply NoDup_map_filter, Hinv. }
  assert (Hsel : forall g, In g selected <->
                           In g (dinnerGroups d) /\ In (dg_restaurantId g) restaurantIds).
  { intros g. unfold selected. rewrite filter_In. split; intros [H1 H2]; split; auto.
    - apply existsb_exists in H2 as (x & Hx & E). apply String.eqb_eq in E. now subst.
    - apply existsb_exists. exists (dg_restaurantId g). split; auto.
      apply String.eqb_refl. }
  assert (Hyes : forall g, In g selected -> dg_restaurantId g <> "__proto__" ->
            List.fold_left
              (fun (counts : gmap string nat) (group : DinnerGroup * nat) =>
                 objectSet (dg_restaurantId (fst group)) (snd group) counts) rows ∅
              !! dg_restaurantId g
            = Some (List.length (attendeesAt (dg_restaurantId g) d))).
  { intros g Hg Hp. rewrite (attendeesAt_group d g Hinv); [|now apply Hsel in Hg].
    apply counts_lookup_Some; auto. unfold rows.
    apply (in_map (fun g => (g, List.length (List.filter (prisma.inGroup (dg_id g))
                                               (attendees d))))). exact Hg. }
  intros r n. split.
  - intros H.
    assert (Hp : r <> "__proto__").
    { intros ->. rewrite counts_lookup_proto, lookup_empty in H. discriminate. }
    destruct (List.find (prisma.restaurantIs r) selected) as [g|] eqn:Ef.
    + apply find_some in Ef as [Hg Er]. apply String.eqb_eq in Er. subst r.
      rewrite (Hyes g Hg Hp) in H. injection H as <-.
      apply Hsel in Hg as [Hg Hin]. split; auto. split; auto. split; eauto.
    + rewrite counts_lookup_None in H; [discriminate|apply lookup_empty|].
      intros x Hx E. unfold rows in Hx. apply in_map_iff in Hx as (g & <- & Hg).
      cbn in E. apply (find_none _ _ Ef) in Hg. unfold prisma.restaurantIs in Hg.
      rewrite E, String.eqb_refl in Hg. discriminate.
  - intros (Hin & Hp & (g & Hg & <-) & ->). apply Hyes; [|exact Hp]. apply Hsel. auto.
Qed.

(** X5: on a well-formed store, the object [getAttendeeCounts] returns has
    an own entry for a restaurant id exactly when the id was asked for, is
    not "__proto__" (an assignment under that name makes no entry), and the
    restaurant has a DinnerGroup; the entry is the number of Attendee rows
    of that group, and is never 0. *)
Theorem getAttendeeCounts_exact (restaurantIds : list string) (d : Db) :
  store_inv d ->
  exists counts,
    getAttendeeCounts restaurantIds d = (d, inr counts)
    /\ (forall r n,
          counts !! r = Some n <->
          In r restaurantIds
          /\ r <> "__proto__"
          /\ (exists g, In g (dinnerGroups d) /\ dg_restaurantId g = r)
          /\ n = List.length (attendeesAt r d))
    /\ (forall r n, counts !! r = Some n -> 1 <= n).
Proof.
  intros Hinv.
  destruct (attendeeCounts_lookup restaurantIds d Hinv) as (counts & E & Hlook).
  exists counts. split; [exact E|]. split; [exact Hlook|].
  intros r n H. apply Hlook in H as (_ & _ & (g & Hg & <-) & ->).
  destruct (inv_no_empty_group _ Hinv g Hg) as (a & Ha & Ea).
  apply (memberOf_attendeesAt d (at_userId a)). exists a, g. auto 10.
Qed.

Lemma getAttendeeCounts_exact_witness :
  store_inv sampleDb
  /\ exists counts,
       getAttendeeCounts ["r1"; "r9"] sampleDb = (sampleDb, inr counts)
       /\ (forall r n,
             counts !! r = Some n <->
             In r ["r1"; "r9"]
             /\ r <> "__proto__"
             /\ (exists g, In g (dinnerGroups sampleDb) /\ dg_restaurantId g = r)
             /\ n = List.length (attendeesAt r sampleDb))
       /\ (forall r n, counts !! r = Some n -> 1 <= n).
Proof.
  assert (Hinv : store_inv sampleDb) by (apply store_invb_sound; vm_compute; reflexivity).
  split; [exact Hinv|]. exact (getAttendeeCounts_exact ["r1"; "r9"] sampleDb Hinv).
Defined.

Lemma attendeesAt_sameMembership (r : string) (d d' : Db) :
  sameMembership d d' -> attendeesAt r d' = attendeesAt r d.
Proof. intros [Hg Ha]. unfold attendeesAt. now rewrite Hg, Ha. Qed.

Lemma store_inv_sameMembership (d d' : Db) :
  sameMembership d d' -> nextId d' = nextId d -> store_inv d -> store_inv d'.
Proof.
  intros [Hg Ha] Hn Hinv. constructor; rewrite ?Hg, ?Ha, ?Hn; apply Hinv.
Qed.

Lemma upsert_nextId (r : Restaurant) (d d' : Db) (x : result Restaurant) :
  prisma_restaurant.upsert r d = (d', x) -> nextId d' = nextId d.
Proof.
  unfold prisma_restaurant.upsert.
  destruct (List.find _ _); intros H; injection H as <- _; reflexivity.
Qed.

Lemma mapM_upsert_nextId (rs : list Restaurant) (d d' : Db)
    (x : result (list Restaurant)) :
  mapM prisma_restaurant.upsert rs d = (d', x) -> nextId d' = nextId d.
Proof.
  revert d d' x. induction rs as [|r rs IH]; intros d d' x; cbn.
  - unfold ret. intros H. now injection H as <- _.
  - unfold bind.
    destruct (prisma_restaurant.upsert r d) as [d1 [e|y]] eqn:E1.
    + intros H. injection H as <- _. eapply upsert_nextId; eauto.
    + apply upsert_nextId in E1.
      destruct (mapM prisma_restaurant.upsert rs d1) as [d2 [e|ys]] eqn:E2;
        apply IH in E2; unfold ret; intros H; injection H as <- _; congruence.
Qed.

Lemma getCachedRestaurants_nextId (env : Places) (now : Z)
    (lat lng radius : number) (s s' : Server) (x : result (list Restaurant)) :
  getCachedRestaurants env now lat lng radius s = (s', x) -> nextId (db s') = nextId (db s).
Proof.
  assert (Hfresh : forall s1 y,
            fetchAndUpsertRestaurants env lat lng radius s = (s1, y) ->
            nextId (db s1) = nextId (db s)).
  { unfold fetchAndUpsertRestaurants, liftDb. intros s1 y.
    destruct (getNearbyRestaurants env lat lng radius) as [e|rs].
    - intros H. now injection H as <- _.
    - destruct (mapM prisma_restaurant.upsert rs (db s)) as [d1 z] eqn:E.
      intros H. injection H as <- _. cbn. eapply mapM_upsert_nextId; eauto. }
  unfold getCachedRestaurants, cachified, bind, gets, modify, ret.
  destruct (lruCache s !! cacheKey lat lng radius) as [e|].
  - destruct (now <=? createdTime e + entry_ttl e)%Z.
    + intros H. now injection H as <- _.
    + destruct (fetchAndUpsertRestaurants env lat lng radius s) as [s1 [err|fresh]] eqn:E;
        intros H; injection H as <- _; cbn; eapply Hfresh; eauto.
  - destruct (fetchAndUpsertRestaurants env lat lng radius s) as [s1 [err|fresh]] eqn:E;
      intros H; injection H as <- _; cbn; eapply Hfresh; eauto.
Qed.

(** *** The merged view and the membership tables *)

Lemma getAllRestaurantDetails_state
    (calculateDistance : number -> number -> number -> number -> number)
    (env : Places) (now : Z) (lat lng : number) (userId : string) (radius : number)
    (s s' : Server) (x : result (list DetailsValue)) :
  getAllRestaurantDetails calculateDistance env now lat lng userId radius s = (s', x) ->
  sameMembership (db s) (db s') /\ nextId (db s') = nextId (db s).
Proof.
  unfold getAllRestaurantDetails, bind at 1.
  unfold liftDb at 1. rewrite getUserAttendingRestaurant_run.
  replace (mkServer (db s) (lruCache s)) with s by (destruct s; reflexivity).
  unfold bind at 1.
  destruct (getCachedRestaurants env now lat lng radius s) as [s1 [e|rs]] eqn:E.
  - intros H. injection H as <- _.
    split; [eapply getCachedRestaurants_sameMembership|eapply getCachedRestaurants_nextId];
      eauto.
  - pose proof (getCachedRestaurants_sameMembership _ _ _ _ _ _ _ _ E) as Hm.
    pose proof (getCachedRestaurants_nextId _ _ _ _ _ _ _ _ E) as Hn.
    unfold bind, liftDb, ret.
    unfold getAttendeeCounts, bind, prisma_restaurant.dinnerGroup_findMany, gets, ret.
    intros H. injection H as <- _. cbn [db]. auto.
Qed.

Lemma view_entry
    (calculateDistance : number -> number -> number -> number -> number)
    (env : Places) (now : Z) (lat lng : number) (userId : string) (radius : number)
    (s s' : Server) (out : list DetailsValue) :
  getAllRestaurantDetails calculateDistance env now lat lng userId radius s = (s', inr out) ->
  store_inv (db s) ->
  forall r, In r out ->
    (id (v_restaurant r) <> "__proto__" ->
     (exists g, In g (dinnerGroups (db s)) /\ dg_restaurantId g = id (v_restaurant r)) ->
     v_attendeeCount r = Count (List.length (attendeesAt (id (v_restaurant r)) (db s))))
    /\ (id (v_restaurant r) = "__proto__"
        \/ (forall g, In g (dinnerGroups (db s)) ->
                      dg_restaurantId g <> id (v_restaurant r)) ->
        v_attendeeCount r = if inherited (id (v_restaurant r))
                            then InheritedMember (id (v_restaurant r))
                            else Count 0)
    /\ (v_isUserAttending r = true <-> memberOf (db s) userId (id (v_restaurant r))).
Proof.
  intros H Hinv.
  destruct (getAllRestaurantDetails_state _ _ _ _ _ _ _ _ _ _ H) as [Hm Hn].
  apply getAllRestaurantDetails_run in H as (_ & rs & counts & Hc & ->).
  assert (Hinv' : store_inv (db s')) by (eapply store_inv_sameMembership; eauto).
  destruct (attendeeCounts_lookup (List.map id rs) (db s') Hinv') as (counts' & Hc' & Hlook).
  rewrite Hc in Hc'. injection Hc' as <-.
  destruct Hm as [Hg Ha].
  intros r Hr. apply in_map_iff in Hr as (x & <- & Hx).
  cbn [v_attendeeCount v_restaurant withDetails]. unfold countOrZero.
  split; [|split].
  - intros Hp (g & Hin & Er).
    assert (Hs : counts !! id x = Some (List.length (attendeesAt (id x) (db s')))).
    { apply Hlook. split; [now apply in_map|]. split; [exact Hp|]. split; [|reflexivity].
      exists g. rewrite Hg. auto. }
    rewrite Hs, (attendeesAt_sameMembership (id x) (db s) (db s')) by (split; auto).
    destruct (Nat.eqb_spec (List.length (attendeesAt (id x) (db s))) 0) as [E|E];
      [now rewrite E|reflexivity].
  - intros Hor. destruct (counts !! id x) as [n|] eqn:E; [|reflexivity].
    apply Hlook in E as (_ & Hp & (g & Hin & Er) & _). exfalso.
    destruct Hor as [Hor|Hor]; [contradiction|].
    rewrite Hg in Hin. exact (Hor g Hin Er).
  - rewrite isUserAttending_withDetails. now apply userAttendanceOf_iff.
Qed.

(** X6: on a well-formed store, for every entry of the list that
    [getAllRestaurantDetails] returns: when its restaurant has a dinner
    group and its id is not "__proto__", attendeeCount is the number of
    Attendee rows of that group, which is at least 1; when the restaurant
    has no dinner group, or its id is "__proto__", attendeeCount is 0 when
    the id names no member of [Object.prototype], and is that member, not a
    number, when it names one; and the entry marked isUserAttending has
    an attendeeCount of at least 1 unless its id is "__proto__". *)
Theorem getAllRestaurantDetails_counts
    (calculateDistance : number -> number -> number -> number -> number)
    (env : Places) (now : Z) (lat lng : number) (userId : string) (radius : number)
    (s s' : Server) (out : list DetailsValue) :
  getAllRestaurantDetails calculateDistance env now lat lng userId radius s = (s', inr out) ->
  store_inv (db s) ->
  forall r, In r out ->
    (id (v_restaurant r) <> "__proto__" ->
     (exists g, In g (dinnerGroups (db s)) /\ dg_restaurantId g = id (v_restaurant r)) ->
     v_attendeeCount r = Count (List.length (attendeesAt (id (v_restaurant r)) (db s)))
     /\ 1 <= List.length (attendeesAt (id (v_restaurant r)) (db s)))
    /\ (id (v_restaurant r) = "__proto__"
        \/ (forall g, In g (dinnerGroups (db s)) ->
                      dg_restaurantId g <> id (v_restaurant r)) ->
        (inherited (id (v_restaurant r)) = false -> v_attendeeCount r = Count 0)
        /\ (inherited (id (v_restaurant r)) = true ->
            v_attendeeCount r = InheritedMember (id (v_restaurant r))))
    /\ (v_isUserAttending r = true -> id (v_restaurant r) <> "__proto__" ->
        exists n, v_attendeeCount r = Count n /\ 1 <= n).
Proof.
  intros H Hinv r Hr.
  destruct (view_entry _ _ _ _ _ _ _ _ _ _ H Hinv r Hr) as (Hc & Hz & Ha).
  split; [|split].
  - intros Hp (g & Hg & Er). split; [apply Hc; eauto|].
    destruct (inv_no_empty_group _ Hinv g Hg) as (a & Hin & Ea).
    apply (memberOf_attendeesAt _ (at_userId a)). exists a, g. auto 10.
  - intros Hor. rewrite (Hz Hor). split; intros ->; reflexivity.
  - intros Hu Hp. apply Ha in Hu. eexists. split.
    + apply Hc; [exact Hp|]. destruct Hu as (a & g & _ & _ & Hg & _ & Er). eauto.
    + now apply (memberOf_attendeesAt _ userId).
Qed.

Lemma getAllRestaurantDetails_counts_witness :
  diningRun = (fst diningRun, inr diningOut)
  /\ store_inv (db diningServer)
  /\ In (mkDetailsValue (toNearbyRestaurant (sampleResult "a"))
          (sampleDistance HILTON_LAT HILTON_LNG (4076 # 100) (- (11188 # 100)))
          (Count 2) true) diningOut
  /\ (exists n,
        v_attendeeCount
          (mkDetailsValue (toNearbyRestaurant (sampleResult "a"))
             (sampleDistance HILTON_LAT HILTON_LNG (4076 # 100) (- (11188 # 100)))
             (Count 2) true) = Count n /\ 1 <= n).
Proof.
  assert (E : diningRun = (fst diningRun, inr diningOut)) by (vm_compute; reflexivity).
  assert (Hinv : store_inv (db diningServer))
    by (apply store_invb_sound; vm_compute; reflexivity).
  assert (Hin : In (mkDetailsValue (toNearbyRestaurant (sampleResult "a"))
                      (sampleDistance HILTON_LAT HILTON_LNG (4076 # 100) (- (11188 # 100)))
                      (Count 2) true) diningOut) by (left; reflexivity).
  assert (Hp : "a" <> "__proto__") by discriminate.
  split; [exact E|]. split; [exact Hinv|]. split; [exact Hin|].
  exact (proj2 (proj2 (getAllRestaurantDetails_counts sampleDistance samplePlaces 0
                         HILTON_LAT HILTON_LNG "alice" 3200%Q diningServer _ _ E Hinv
                         _ Hin)) eq_refl Hp).
Defined.

(** X22: in the list [getAllRestaurantDetails] returns on a well-formed
    store, isUserAttending is true exactly for the restaurants whose id is
    the restaurantId of the dinner group of the user's Attendee row; and
    whatever the store, when the ids of the list are distinct at most one
    entry has isUserAttending true. *)
Theorem getAllRestaurantDetails_isUserAttending
    (calculateDistance : number -> number -> number -> number -> number)
    (env : Places) (now : Z) (lat lng : number) (userId : string) (radius : number)
    (s s' : Server) (out : list DetailsValue) :
  getAllRestaurantDetails calculateDistance env now lat lng userId radius s = (s', inr out) ->
  (store_inv (db s) -> forall r, In r out ->
     (v_isUserAttending r = true <->
      exists a g, In a (attendees (db s)) /\ at_userId a = userId
                  /\ In g (dinnerGroups (db s)) /\ dg_id g = at_dinnerGroupId a
                  /\ dg_restaurantId g = id (v_restaurant r)))
  /\ (List.NoDup (List.map (fun r => id (v_restaurant r)) out) ->
      List.length (List.filter v_isUserAttending out) <= 1).
Proof.
  intros H. apply getAllRestaurantDetails_run in H as (_ & rs & counts & _ & ->).
  split.
  - intros Hinv r Hr. apply in_map_iff in Hr as (x & <- & Hx).
    rewrite isUserAttending_withDetails. cbn [v_restaurant withDetails].
    now apply userAttendanceOf_iff.
  - intros Hnd. apply (filter_length_le_1 (fun r => id (v_restaurant r))); [exact Hnd|].
    intros x y Hx Hy Px Py.
    apply in_map_iff in Hx as (x0 & <- & _). apply in_map_iff in Hy as (y0 & <- & _).
    apply isUserAttending_withDetails in Px, Py. cbn. congruence.
Qed.

Lemma getAllRestaurantDetails_isUserAttending_witness :
  diningRun = (fst diningRun, inr diningOut)
  /\ store_inv (db diningServer)
  /\ List.NoDup (List.map (fun r => id (v_restaurant r)) diningOut)
  /\ List.map (fun r => (id (v_restaurant r), v_attendeeCount r, v_isUserAttending r))
       diningOut
     = [("a", Count 2, true); ("c", Count 0, false)]
  /\ (forall r, In r diningOut ->
        (v_isUserAttending r = true <->
         exists a g, In a (attendees (db diningServer)) /\ at_userId a = "alice"
                     /\ In g (dinnerGroups (db diningServer))
                     /\ dg_id g = at_dinnerGroupId a
                     /\ dg_restaurantId g = id (v_restaurant r)))
  /\ List.length (List.filter v_isUserAttending diningOut) <= 1.
Proof.
  assert (E : diningRun = (fst diningRun, inr diningOut)) by (vm_compute; reflexivity).
  assert (Hinv : store_inv (db diningServer))
    by (apply store_invb_sound; vm_compute; reflexivity).
  assert (Hnd : List.NoDup (List.map (fun r => id (v_restaurant r)) diningOut)).
  { apply nodupb_string_sound. vm_compute. reflexivity. }
  destruct (getAllRestaurantDetails_isUserAttending sampleDistance samplePlaces 0
              HILTON_LAT HILTON_LNG "alice" 3200%Q diningServer _ _ E)
    as (H2 & H3).
  split; [exact E|]. split; [exact Hinv|]. split; [exact Hnd|].
  split; [vm_compute; reflexivity|].
  split; [exact (H2 Hinv)|exact (H3 Hnd)].
Defined.

(** X23: a place whose id is "__proto__" never gets a count.  On the
    well-formed store where alice dines at "__proto__", the counts object
    has no own entry at all, since the assignment under that name is
    ignored; the merged view gives the place the prototype object as
    attendeeCount and marks it as attended; and the loader, for which that
    value is not greater than 0, puts it in the nearby list and leaves the
    first list empty, so the page shows no dinner plans for alice. *)
Theorem proto_place_is_never_counted :
  store_invb (db protoServer) = true
  /\ List.length (attendeesAt "__proto__" (db protoServer)) = 1
  /\ getAttendeeCounts ["a"; "__proto__"] (db protoServer) = (db protoServer, inr ∅)
  /\ match snd (getAllRestaurantDetails sampleDistance protoPlaces 0 HILTON_LAT HILTON_LNG
                  "alice" 3200%Q protoServer) with
     | inr out =>
         List.map (fun r => (id (v_restaurant r), v_attendeeCount r, v_isUserAttending r)) out
         = [("a", Count 0, false); ("__proto__", InheritedMember "__proto__", true)]
     | inl _ => False
     end
  /\ match snd (loader sampleDistance protoPlaces 0 "alice"
                  (mkQuery Undefined Undefined Undefined) protoServer) with
     | inr data =>
         ld_restaurantsWithAttendance data = []
         /\ List.map (fun r => (id (restaurant r), isUserAttending r))
              (ld_restaurantsNearby data)
            = [("a", false); ("__proto__", true)]
         /\ hasUserAttending data = false
     | inl _ => False
     end.
Proof. repeat split; vm_compute; reflexivity. Qed.

(** X7: [getAllRestaurantDetails] only reads the membership tables:
    whether it returns or throws, the DinnerGroup and Attendee rows after
    the call are the rows before it. *)
Theorem getAllRestaurantDetails_reads_membership
    (calculateDistance : number -> number -> number -> number -> number)
    (env : Places) (now : Z) (lat lng : number) (userId : string) (radius : number)
    (s : Server) :
  dinnerGroups (db (fst (getAllRestaurantDetails calculateDistance env now lat lng
                           userId radius s))) = dinnerGroups (db s)
  /\ attendees (db (fst (getAllRestaurantDetails calculateDistance env now lat lng
                           userId radius s))) = attendees (db s).
Proof.
  destruct (getAllRestaurantDetails calculateDistance env now lat lng userId radius s)
    as [s' x] eqn:E.
  apply getAllRestaurantDetails_state in E as [Hm _]. exact Hm.
Qed.

Lemma loader_run
    (calculateDistance : number -> number -> number -> number -> number)
    (env : Places) (now : Z) (userId : string) (query : Query)
    (s s' : Server) (data : LoaderData) :
  loader calculateDistance env now userId query s = (s', inr data) ->
  exists radius out,
    getAllRestaurantDetails calculateDistance env now HILTON_LAT HILTON_LNG userId
      radius s = (s', inr out)
    /\ ld_restaurantsWithAttendance data
       = restaurantsWithAttendance (List.map declared out)
    /\ ld_restaurantsNearby data
       = restaurantsNearby (FilterParamsSchema_safeParse query) (List.map declared out).
Proof.
  unfold loader, bind, ret.
  destruct (getAllRestaurantDetails _ _ _ _ _ _ _ s) as [s1 [e|out]] eqn:E;
    [discriminate|].
  intros H. injection H as <- <-. eexists _, out. split; [exact E|]. split; reflexivity.
Qed.

(** The test [r.attendeeCount > 0] on a run-time element is the test on
    the element read at the declared type. *)
Lemma declared_greaterThanZero (v : DetailsValue) :
  greaterThanZero (v_attendeeCount v) = Nat.ltb 0 (attendeeCount (declared v)).
Proof. destruct v as [r d [n|k] u]; reflexivity. Qed.

Lemma declared_entry
    (calculateDistance : number -> number -> number -> number -> number)
    (env : Places) (now : Z) (lat lng : number) (userId : string) (radius : number)
    (s s' : Server) (out : list DetailsValue) :
  getAllRestaurantDetails calculateDistance env now lat lng userId radius s = (s', inr out) ->
  store_inv (db s) ->
  forall r, In r (List.map declared out) ->
    (0 < attendeeCount r -> 1 <= List.length (attendeesAt (id (restaurant r)) (db s)))
    /\ (isUserAttending r = true <-> memberOf (db s) userId (id (restaurant r)))
    /\ (isUserAttending r = true -> ~ memberOf (db s) userId "__proto__" ->
        0 < attendeeCount r).
Proof.
  intros H Hinv r Hr. apply in_map_iff in Hr as (v & <- & Hv).
  destruct (view_entry _ _ _ _ _ _ _ _ _ _ H Hinv v Hv) as (Hc & Hz & Ha).
  cbn [declared restaurant attendeeCount isUserAttending].
  split; [|split; [exact Ha|]].
  - intros Hpos.
    destruct (String.eqb_spec (id (v_restaurant v)) "__proto__") as [Ep|Ep].
    { rewrite (Hz (or_introl Ep)) in Hpos.
      destruct (inherited (id (v_restaurant v))); cbn in Hpos; lia. }
    destruct (List.find (prisma.restaurantIs (id (v_restaurant v)))
                (dinnerGroups (db s))) as [g|] eqn:Ef.
    + apply find_some in Ef as [Hg Er]. apply String.eqb_eq in Er.
      rewrite (Hc Ep (ex_intro _ g (conj Hg Er))) in Hpos. lia.
    + rewrite Hz in Hpos.
      * destruct (inherited (id (v_restaurant v))); cbn in Hpos; lia.
      * right. intros g Hg Er. apply (find_none _ _ Ef) in Hg.
        unfold prisma.restaurantIs in Hg. rewrite Er, String.eqb_refl in Hg.
        discriminate.
  - intros Hu Hno. apply Ha in Hu.
    assert (Ep : id (v_restaurant v) <> "__proto__").
    { intros Ep. rewrite Ep in Hu. contradiction. }
    pose proof (memberOf_attendeesAt _ _ _ Hu) as Hlen.
    destruct Hu as (a & g & _ & _ & Hg & _ & Er).
    rewrite (Hc Ep (ex_intro _ g (conj Hg Er))). lia.
Qed.

(** X8: on a well-formed store, in what the page loader returns every
    entry of the first list has a dinner group with attendees, and the page
    shows its dinner-plans header exactly when the user dines at a
    restaurant of the first list; and unless the user dines at a restaurant
    whose id is "__proto__", no entry of the nearby list is marked as
    attended by the user. *)
Theorem loader_attended_restaurant
    (calculateDistance : number -> number -> number -> number -> number)
    (env : Places) (now : Z) (userId : string) (query : Query)
    (s s' : Server) (data : LoaderData) :
  loader calculateDistance env now userId query s = (s', inr data) ->
  store_inv (db s) ->
  (~ memberOf (db s) userId "__proto__" ->
   forall r, In r (ld_restaurantsNearby data) -> isUserAttending r = false)
  /\ (forall r, In r (ld_restaurantsWithAttendance data) ->
        1 <= List.length (attendeesAt (id (restaurant r)) (db s)))
  /\ (hasUserAttending data = true <->
      exists r, In r (ld_restaurantsWithAttendance data)
                /\ memberOf (db s) userId (id (restaurant r))).
Proof.
  intros H Hinv. apply loader_run in H as (radius & out & H & Hw & Hn).
  pose proof (declared_entry _ _ _ _ _ _ _ _ _ _ H Hinv) as Hview.
  assert (Hwin : forall r, In r (ld_restaurantsWithAttendance data) ->
                           In r (List.map declared out) /\ 0 < attendeeCount r).
  { intros r Hr. rewrite Hw in Hr. unfold restaurantsWithAttendance in Hr.
    apply (Permutation_in _ (Array_sort_Permutation _ _)) in Hr.
    apply filter_In in Hr as [H1 H2]. split; auto. now apply Nat.ltb_lt. }
  split; [|split].
  - intros Hno r Hr. rewrite Hn in Hr. unfold restaurantsNearby in Hr.
    apply slice0_incl in Hr.
    apply (Permutation_in _ (Array_sort_Permutation _ _)) in Hr.
    apply filter_In in Hr as [Hin Hf].
    apply nearbyFilter_true in Hf as [Hz _].
    destruct (Hview r Hin) as (_ & _ & Hpos).
    destruct (isUserAttending r) eqn:Hu; auto.
    specialize (Hpos eq_refl Hno). lia.
  - intros r Hr. apply Hwin in Hr as [Hin Hpos].
    destruct (Hview r Hin) as (Hc & _). auto.
  - unfold hasUserAttending. rewrite existsb_exists. split.
    + intros (r & Hr & Hu). exists r. split; auto.
      apply Hwin in Hr as [Hin _]. now apply (Hview r Hin).
    + intros (r & Hr & Hm). exists r. split; auto.
      apply Hwin in Hr as [Hin _]. now apply (Hview r Hin).
Qed.

Lemma loader_attended_restaurant_witness :
  loaderRun = (fst loaderRun, inr loaderData)
  /\ store_inv (db diningServer)
  /\ ~ memberOf (db diningServer) "alice" "__proto__"
  /\ List.map (fun r => id (restaurant r)) (ld_restaurantsWithAttendance loaderData) = ["a"]
  /\ List.map (fun r => id (restaurant r)) (ld_restaurantsNearby loaderData) = ["c"]
  /\ (forall r, In r (ld_restaurantsNearby loaderData) -> isUserAttending r = false)
  /\ (forall r, In r (ld_restaurantsWithAttendance loaderData) ->
        1 <= List.length (attendeesAt (id (restaurant r)) (db diningServer)))
  /\ (hasUserAttending loaderData = true <->
      exists r, In r (ld_restaurantsWithAttendance loaderData)
                /\ memberOf (db diningServer) "alice" (id (restaurant r))).
Proof.
  assert (E : loaderRun = (fst loaderRun, inr loaderData)) by (vm_compute; reflexivity).
  assert (Hinv : store_inv (db diningServer))
    by (apply store_invb_sound; vm_compute; reflexivity).
  assert (Hno : ~ memberOf (db diningServer) "alice" "__proto__").
  { intros (a & g & _ & _ & Hg & _ & Er). cbn in Hg.
    destruct Hg as [<-|[]]. discriminate Er. }
  split; [exact E|]. split; [exact Hinv|]. split; [exact Hno|].
  split; [vm_compute; reflexivity|]. split; [vm_compute; reflexivity|].
  destruct (loader_attended_restaurant sampleDistance samplePlaces 0 "alice"
              (mkQuery Undefined Undefined Undefined) diningServer _ _ E Hinv)
    as (H1 & H2 & H3).
  split; [exact (H1 Hno)|]. split; [exact H2|exact H3].
Defined.

(** *** The cache and the Restaurant table *)

Lemma upsert_returns (r : Restaurant) (d : Db) :
  exists row, prisma_restaurant.upsert r d = (fst (prisma_restaurant.upsert r d), inr row).
Proof.
  unfold prisma_restaurant.upsert. destruct (List.find _ _); eexists; reflexivity.
Qed.

Lemma mapM_upsert_returns (rs : list Restaurant) (d : Db) :
  exists rows,
    mapM prisma_restaurant.upsert rs d
    = (List.fold_left (fun d r => fst (prisma_restaurant.upsert r d)) rs d, inr rows).
Proof.
  revert d. induction rs as [|r rs IH]; intros d; cbn; [eexists; reflexivity|].
  unfold bind. destruct (upsert_returns r d) as [row E]. rewrite E.
  destruct (IH (fst (prisma_restaurant.upsert r d))) as [rows E']. rewrite E'.
  eexists. reflexivity.
Qed.

Lemma fetchAndUpsertRestaurants_error (env : Places) (lat lng radius : number)
    (s s' : Server) (e : error) :
  fetchAndUpsertRestaurants env lat lng radius s = (s', inl e) ->
  s' = s /\ getNearbyRestaurants env lat lng radius = inl e.
Proof.
  unfold fetchAndUpsertRestaurants, liftDb.
  destruct (getNearbyRestaurants env lat lng radius) as [e'|rs].
  - intros H. injection H as <- <-. auto.
  - destruct (mapM_upsert_returns rs (db s)) as [rows E]. rewrite E. discriminate.
Qed.

(** X9: a failure is not cached.  When the cached fetch throws, the error
    is the provider's, and the server is left as it was: no cache entry is
    written and no Restaurant row is stored, so the next call asks the
    provider again. *)
Theorem getCachedRestaurants_failure_not_cached (env : Places) (now : Z)
    (lat lng radius : number) (s s' : Server) (e : error) :
  getCachedRestaurants env now lat lng radius s = (s', inl e) ->
  s' = s /\ getNearbyRestaurants env lat lng radius = inl e.
Proof.
  unfold getCachedRestaurants, cachified, bind, gets, modify, ret.
  destruct (lruCache s !! cacheKey lat lng radius) as [c|].
  - destruct (now <=? createdTime c + entry_ttl c)%Z; [discriminate|].
    destruct (fetchAndUpsertRestaurants env lat lng radius s) as [s1 [err|fresh]] eqn:E;
      [|discriminate].
    intros H. injection H as <- <-. eapply fetchAndUpsertRestaurants_error; eauto.
  - destruct (fetchAndUpsertRestaurants env lat lng radius s) as [s1 [err|fresh]] eqn:E;
      [|discriminate].
    intros H. injection H as <- <-. eapply fetchAndUpsertRestaurants_error; eauto.
Qed.

Lemma getCachedRestaurants_failure_not_cached_witness :
  getCachedRestaurants deniedPlaces 0 HILTON_LAT HILTON_LNG 3200%Q emptyServer
    = (emptyServer, inl (PlacesApiError "REQUEST_DENIED"))
  /\ emptyServer = emptyServer
  /\ getNearbyRestaurants deniedPlaces HILTON_LAT HILTON_LNG 3200%Q
     = inl (PlacesApiError "REQUEST_DENIED").
Proof.
  assert (E : getCachedRestaurants deniedPlaces 0 HILTON_LAT HILTON_LNG 3200%Q emptyServer
              = (emptyServer, inl (PlacesApiError "REQUEST_DENIED")))
    by (vm_compute; reflexivity).
  split; [exact E|].
  exact (getCachedRestaurants_failure_not_cached deniedPlaces 0 HILTON_LAT HILTON_LNG
           3200%Q emptyServer emptyServer (PlacesApiError "REQUEST_DENIED") E).
Defined.

(** *** The Restaurant table *)

Lemma find_map_upsert (r : Restaurant) (i : string) (l : list Restaurant) :
  List.find (fun x => String.eqb (id x) i)
    (List.map (fun y => if String.eqb (id y) (id r)
                        then prisma_restaurant.updateRow y r else y) l)
  = option_map (fun y => if String.eqb (id y) (id r)
                         then prisma_restaurant.updateRow y r else y)
      (List.find (fun x => String.eqb (id x) i) l).
Proof.
  induction l as [|x l IH]; cbn; [reflexivity|].
  assert (E : id (if String.eqb (id x) (id r)
                  then prisma_restaurant.updateRow x r else x) = id x).
  { destruct (String.eqb (id x) (id r)); reflexivity. }
  rewrite E. destruct (String.eqb (id x) i); [reflexivity|exact IH].
Qed.

Lemma find_snoc_id (r : Restaurant) (i : string) (l : list Restaurant) :
  List.find (fun x => String.eqb (id x) i) (l ++ [r])
  = match List.find (fun x => String.eqb (id x) i) l with
    | Some x => Some x
    | None => if String.eqb (id r) i then Some r else None
    end.
Proof.
  induction l as [|x l IH]; cbn; [reflexivity|].
  destruct (String.eqb (id x) i); [reflexivity|exact IH].
Qed.



(** The row [upsert] stores and returns. *)
Lemma upsert_run (r : Restaurant) (d : Db) :
  prisma_restaurant.upsert r d
  = match restaurantById (id r) d with
    | Some x =>
        (mkDb (List.map (fun y => if String.eqb (id y) (id r)
                                  then prisma_restaurant.updateRow y r else y)
                        (restaurants d))
              (dinnerGroups d) (attendees d) (nextId d),
         inr (prisma_restaurant.updateRow x r))
    | None =>
        (mkDb (restaurants d ++ [r]) (dinnerGroups d) (attendees d) (nextId d), inr r)
    end.
Proof. reflexivity. Qed.

Lemma restaurantById_upsert (r : Restaurant) (d : Db) (i : string) :
  restaurantById i (fst (prisma_restaurant.upsert r d))
  = if String.eqb (id r) i
    then match snd (prisma_restaurant.upsert r d) with
         | inr row => Some row
         | inl _ => None
         end
    else restaurantById i d.
Proof.
  rewrite upsert_run.
  destruct (restaurantById (id r) d) as [x|] eqn:Ex; cbn [fst snd].
  - unfold restaurantById in *. cbn [restaurants]. rewrite find_map_upsert.
    destruct (String.eqb_spec (id r) i) as [<-|Ei].
    + rewrite Ex. cbn. apply find_some in Ex as [_ Ex]. now rewrite Ex.
    + destruct (List.find (fun x => String.eqb (id x) i) (restaurants d))
        as [y|] eqn:Ey; [|reflexivity].
      apply find_some in Ey as [_ Ey]. apply String.eqb_eq in Ey. cbn.
      destruct (String.eqb_spec (id y) (id r)); [congruence|reflexivity].
  - unfold restaurantById in *. cbn [restaurants]. rewrite find_snoc_id.
    destruct (String.eqb_spec (id r) i) as [<-|Ei].
    + now rewrite Ex.
    + destruct (List.find (fun x => String.eqb (id x) i) (restaurants d));
        reflexivity.
Qed.




Lemma upsert_NoDup (r : Restaurant) (d : Db) :
  List.NoDup (List.map id (restaurants d)) ->
  List.NoDup (List.map id (restaurants (fst (prisma_restaurant.upsert r d)))).
Proof.
  intros H. rewrite upsert_run.
  destruct (restaurantById (id r) d) as [x|] eqn:Ex; cbn [fst restaurants].
  - rewrite List.map_map.
    erewrite List.map_ext; [exact H|]. intros y. cbn.
    destruct (String.eqb (id y) (id r)); reflexivity.
  - apply NoDup_map_snoc; [exact H|].
    intros Hin. apply List.in_map_iff in Hin as [y [Ey Hy]].
    unfold restaurantById in Ex.
    apply (List.find_none _ _ Ex) in Hy. cbn in Hy.
    rewrite Ey, String.eqb_refl in Hy. discriminate.
Qed.

Lemma updateRow_fromProvider (x r : Restaurant) :
  id x = id r -> fromProvider (prisma_restaurant.updateRow x r) r.
Proof.
  intros E. unfold fromProvider, prisma_restaurant.updateRow. cbn.
  repeat split; auto; intros v Hv; now rewrite Hv.
Qed.

Lemma fromProvider_refl (r : Restaurant) : fromProvider r r.
Proof. unfold fromProvider. repeat split; auto. Qed.

Lemma upsert_fromProvider (r : Restaurant) (d d' : Db) (row : Restaurant) :
  prisma_restaurant.upsert r d = (d', inr row) -> fromProvider row r.
Proof.
  rewrite upsert_run.
  destruct (restaurantById (id r) d) as [x|] eqn:Ex; intros [= _ <-].
  - apply updateRow_fromProvider. unfold restaurantById in Ex.
    apply List.find_some in Ex as [_ Ex]. now apply String.eqb_eq in Ex.
  - apply fromProvider_refl.
Qed.



Lemma mapM_upsert_rows (rs : list Restaurant) (d : Db) :
  exists rows,
    mapM prisma_restaurant.upsert rs d
    = (List.fold_left (fun d r => fst (prisma_restaurant.upsert r d)) rs d, inr rows)
    /\ List.Forall2 fromProvider rows rs.
Proof.
  revert d. induction rs as [|r rs IH]; intros d; cbn.
  - exists []. split; [reflexivity|constructor].
  - unfold bind. destruct (upsert_returns r d) as [row E]. rewrite E.
    destruct (IH (fst (prisma_restaurant.upsert r d))) as (rows & E' & HF).
    rewrite E'. exists (row :: rows). split; [reflexivity|].
    constructor; [exact (upsert_fromProvider _ _ _ _ E)|exact HF].
Qed.

Lemma upsert_all_other (rs : list Restaurant) (d : Db) (i : string) :
  ~ In i (List.map id rs) ->
  restaurantById i (List.fold_left (fun d r => fst (prisma_restaurant.upsert r d)) rs d)
  = restaurantById i d.
Proof.
  revert d. induction rs as [|r rs IH]; intros d Hi; cbn [List.fold_left];
    [reflexivity|].
  rewrite IH by (intros H; apply Hi; now right).
  rewrite restaurantById_upsert.
  destruct (String.eqb_spec (id r) i) as [E|_]; [|reflexivity].
  exfalso. apply Hi. now left.
Qed.

Lemma upsert_all_present (rs : list Restaurant) (d : Db) (i : string) :
  restaurantById i d <> None ->
  restaurantById i (List.fold_left (fun d r => fst (prisma_restaurant.upsert r d)) rs d)
  <> None.
Proof.
  revert d. induction rs as [|r rs IH]; intros d Hi; cbn [List.fold_left];
    [exact Hi|].
  apply IH. rewrite restaurantById_upsert.
  destruct (String.eqb (id r) i); [|exact Hi].
  destruct (upsert_returns r d) as [row E]. rewrite E. discriminate.
Qed.

Lemma upsert_all_stored (rs : list Restaurant) (d : Db) (p : Restaurant) :
  In p rs ->
  restaurantById (id p)
    (List.fold_left (fun d r => fst (prisma_restaurant.upsert r d)) rs d) <> None.
Proof.
  revert d. induction rs as [|r rs IH]; intros d Hp; [destruct Hp|].
  destruct Hp as [->|Hin]; cbn [List.fold_left].
  - apply upsert_all_present. rewrite restaurantById_upsert, String.eqb_refl.
    destruct (upsert_returns p d) as [row E]. rewrite E. discriminate.
  - now apply IH.
Qed.

Lemma upsert_all_NoDup (rs : list Restaurant) (d : Db) :
  List.NoDup (List.map id (restaurants d)) ->
  List.NoDup (List.map id (restaurants
    (List.fold_left (fun d r => fst (prisma_restaurant.upsert r d)) rs d))).
Proof.
  revert d. induction rs as [|r rs IH]; intros d H; cbn [List.fold_left];
    [exact H|].
  apply IH. now apply upsert_NoDup.
Qed.

Lemma Forall2_In_l {A B} (R : A -> B -> Prop) (xs : list A) (ys : list B) (x : A) :
  List.Forall2 R xs ys -> In x xs -> exists y, In y ys /\ R x y.
Proof.
  induction 1 as [|a b xs ys Hab _ IH]; intros Hin; [destruct Hin|].
  destruct Hin as [<-|Hin].
  - exists b. split; [now left|exact Hab].
  - destruct (IH Hin) as (y & Hy & Hr). exists y. split; [now right|exact Hr].
Qed.

(** X12: when [fetchAndUpsertRestaurants] returns, the provider answered
    with a list, and the rows returned match that list one for one and in
    order: each row has its record's id, name, coordinates and maps URL and
    every optional value the record gives.  Under the id of each returned
    row the Restaurant table then holds a row; rows under ids that the
    provider's list does not have are as before; ids that were distinct
    stay distinct; and the cache is not touched. *)
Theorem fetchAndUpsertRestaurants_stores (env : Places) (lat lng radius : number)
    (s s' : Server) (rows : list Restaurant) :
  fetchAndUpsertRestaurants env lat lng radius s = (s', inr rows) ->
  exists ps,
    getNearbyRestaurants env lat lng radius = inr ps
    /\ List.Forall2 fromProvider rows ps
    /\ (forall x, In x rows ->
          exists y, restaurantById (id x) (db s') = Some y /\ id y = id x)
    /\ (forall i, ~ In i (List.map id ps) ->
          restaurantById i (db s') = restaurantById i (db s))
    /\ (List.NoDup (List.map id (restaurants (db s))) ->
        List.NoDup (List.map id (restaurants (db s'))))
    /\ lruCache s' = lruCache s.
Proof.
  intros H. pose proof (fetchAndUpsertRestaurants_lruCache _ _ _ _ _ _ _ H) as Hc.
  unfold fetchAndUpsertRestaurants, liftDb in H.
  destruct (getNearbyRestaurants env lat lng radius) as [e|ps]; [discriminate|].
  destruct (mapM_upsert_rows ps (db s)) as (rows0 & E & HF).
  rewrite E in H. injection H as <- <-. cbn [db].
  exists ps. split; [reflexivity|]. split; [exact HF|].
  split; [|split; [|split; [|exact Hc]]].
  - intros x Hx. destruct (Forall2_In_l _ _ _ _ HF Hx) as (q & Hq & Hid & _).
    pose proof (upsert_all_stored ps (db s) q Hq) as Hst. rewrite <- Hid in Hst.
    destruct (restaurantById (id x) _) as [y|] eqn:Ey; [|contradiction].
    exists y. split; [reflexivity|].
    unfold restaurantById in Ey. apply List.find_some in Ey as [_ Ey].
    now apply String.eqb_eq in Ey.
  - intros i Hi. now apply upsert_all_other.
  - apply upsert_all_NoDup.
Qed.

Lemma fetchAndUpsertRestaurants_stores_witness :
  fetchAndUpsertRestaurants samplePlaces HILTON_LAT HILTON_LNG 3200%Q emptyServer
    = (fst (fetchAndUpsertRestaurants samplePlaces HILTON_LAT HILTON_LNG 3200%Q emptyServer),
       inr firstRestaurants)
  /\ In (toNearbyRestaurant (sampleResult "c")) firstRestaurants
  /\ exists y,
       restaurantById "c"
         (db (fst (fetchAndUpsertRestaurants samplePlaces HILTON_LAT HILTON_LNG 3200%Q
                     emptyServer))) = Some y
       /\ id y = "c".
Proof.
  assert (E : fetchAndUpsertRestaurants samplePlaces HILTON_LAT HILTON_LNG 3200%Q emptyServer
              = (fst (fetchAndUpsertRestaurants samplePlaces HILTON_LAT HILTON_LNG 3200%Q
                        emptyServer), inr firstRestaurants))
    by (vm_compute; reflexivity).
  assert (Hin : In (toNearbyRestaurant (sampleResult "c")) firstRestaurants)
    by (right; left; reflexivity).
  destruct (fetchAndUpsertRestaurants_stores samplePlaces HILTON_LAT HILTON_LNG 3200%Q
              emptyServer _ _ E) as (ps & _ & _ & H2 & _).
  split; [exact E|]. split; [exact Hin|].
  exact (H2 _ Hin).
Defined.

(** *** How the provider fails, and where its results come from *)

Lemma placeDetails_inl (env : Places) (apiKey : string) (place : NearbyPlace) (e : error) :
  placeDetails env apiKey place = inl e <-> details env (place_id place) apiKey = inl e.
Proof.
  unfold placeDetails.
  destruct (details env (place_id place) apiKey) as [e'|dd].
  { split; intros H; injection H as ->; reflexivity. }
  split; [|discriminate].
  destruct (String.eqb (dr_status dd) "OK"), (dr_result dd); discriminate.
Qed.

Lemma placeDetails_Some (env : Places) (apiKey : string) (place : NearbyPlace)
    (r : Restaurant) :
  placeDetails env apiKey place = inr (Some r) ->
  exists dd res,
    details env (place_id place) apiKey = inr dd
    /\ dr_status dd = "OK" /\ dr_result dd = Some res /\ r = toNearbyRestaurant res.
Proof.
  unfold placeDetails.
  destruct (details env (place_id place) apiKey) as [e'|dd]; [discriminate|].
  destruct (String.eqb (dr_status dd) "OK") eqn:E;
    destruct (dr_result dd) as [res|] eqn:Er; cbn; try discriminate.
  intros H. injection H as <-. apply String.eqb_eq in E. exists dd, res. auto.
Qed.

Lemma Promise_all_inl {A B} (f : A -> result B) (xs : list A) :
  (exists e, Promise_all (List.map f xs) = inl e) <->
  (exists x, In x xs /\ exists e, f x = inl e).
Proof.
  induction xs as [|x xs IH]; cbn.
  - split; [intros [e H]; discriminate|intros (x & [] & _)].
  - destruct (f x) as [e|b] eqn:E.
    + split; [|eauto]. intros _. exists x. split; eauto.
    + destruct (Promise_all (List.map f xs)) as [e|l].
      * split; [|eauto]. intros _.
        destruct (proj1 IH) as (y & Hy & He); eauto.
      * split; [intros [e H]; discriminate|].
        intros (y & [->|Hy] & e & He); [congruence|].
        destruct (proj2 IH) as [e' H']; eauto. discriminate.
Qed.

(** X13: how [getNearbyRestaurants] fails besides a bad status.  Without
    an API key, or with an empty one, it throws the invariant error
    whatever the endpoints would answer; a rejected search is thrown on;
    and after a search answered OK the call fails exactly when the details
    call of one of the results is rejected: one rejected request fails the
    whole batch. *)
Theorem getNearbyRestaurants_failures (env : Places) (lat lng radius : number) :
  (GOOGLE_PLACES_API_KEY env = None \/ GOOGLE_PLACES_API_KEY env = Some "" ->
   getNearbyRestaurants env lat lng radius
   = inl (InvariantError "GOOGLE_PLACES_API_KEY must be set"))
  /\ (forall apiKey e,
        GOOGLE_PLACES_API_KEY env = Some apiKey -> apiKey <> "" ->
        nearbysearch env lat lng radius apiKey = inl e ->
        getNearbyRestaurants env lat lng radius = inl e)
  /\ (forall apiKey nearbyData,
        GOOGLE_PLACES_API_KEY env = Some apiKey -> apiKey <> "" ->
        nearbysearch env lat lng radius apiKey = inr nearbyData ->
        nr_status nearbyData = "OK" ->
        ((exists e, getNearbyRestaurants env lat lng radius = inl e) <->
         (exists place, In place (default [] (nr_results nearbyData))
                        /\ exists e, details env (place_id place) apiKey = inl e))).
Proof.
  split; [|split].
  - unfold getNearbyRestaurants. intros [->| ->]; reflexivity.
  - intros apiKey e Hkey Hne Hs. unfold getNearbyRestaurants.
    now rewrite Hkey, (invariant_set _ _ Hne), Hs.
  - intros apiKey nd Hkey Hne Hs Hok.
    rewrite (getNearbyRestaurants_OK _ _ _ _ _ _ Hkey Hne Hs Hok).
    destruct (noResults nd) eqn:Hno.
    + split; [intros [e H]; discriminate|].
      intros (place & Hp & _). unfold noResults in Hno.
      destruct (nr_results nd) as [[|x l]|]; try discriminate; destruct Hp.
    + split.
      * intros [e H].
        destruct (Promise_all _) as [e'|l] eqn:E; [|discriminate].
        destruct (proj1 (Promise_all_inl _ _) (ex_intro _ e' E)) as (place & Hp & e1 & H1).
        exists place. split; auto. exists e1. now apply placeDetails_inl.
      * intros (place & Hp & e & He).
        assert (Hex : exists e, Promise_all (List.map (placeDetails env apiKey)
                                   (default [] (nr_results nd))) = inl e).
        { apply Promise_all_inl. exists place. split; auto. exists e.
          now apply placeDetails_inl. }
        destruct Hex as [e' ->]. eauto.
Qed.

Lemma getNearbyRestaurants_failures_witness :
  (GOOGLE_PLACES_API_KEY noKeyPlaces = None
   /\ getNearbyRestaurants noKeyPlaces 0%Q 0%Q 1600%Q
      = inl (InvariantError "GOOGLE_PLACES_API_KEY must be set"))
  /\ (GOOGLE_PLACES_API_KEY offlinePlaces = Some "key" /\ "key" <> ""
      /\ nearbysearch offlinePlaces 0%Q 0%Q 1600%Q "key" = inl FetchError
      /\ getNearbyRestaurants offlinePlaces 0%Q 0%Q 1600%Q = inl FetchError)
  /\ (nr_status (mkNearbyResponse "OK" None
                   (Some [samplePlace "a"; samplePlace "b"; samplePlace "c"])) = "OK"
      /\ In (samplePlace "b") [samplePlace "a"; samplePlace "b"; samplePlace "c"]
      /\ details flakyPlaces (place_id (samplePlace "b")) "key" = inl FetchError
      /\ exists e, getNearbyRestaurants flakyPlaces 0%Q 0%Q 1600%Q = inl e).
Proof.
  assert (Hkey : "key" <> "") by discriminate.
  split; [|split].
  - split; [reflexivity|].
    exact (proj1 (getNearbyRestaurants_failures noKeyPlaces 0%Q 0%Q 1600%Q)
             (or_introl eq_refl)).
  - split; [reflexivity|]. split; [exact Hkey|]. split; [reflexivity|].
    exact (proj1 (proj2 (getNearbyRestaurants_failures offlinePlaces 0%Q 0%Q 1600%Q))
             "key" FetchError eq_refl Hkey eq_refl).
  - assert (Hin : In (samplePlace "b") [samplePlace "a"; samplePlace "b"; samplePlace "c"])
      by (right; left; reflexivity).
    split; [reflexivity|]. split; [exact Hin|]. split; [reflexivity|].
    apply (proj2 (proj2 (proj2 (getNearbyRestaurants_failures flakyPlaces 0%Q 0%Q 1600%Q))
                   "key" _ eq_refl Hkey eq_refl eq_refl)).
    exists (samplePlace "b"). split; [exact Hin|]. exists FetchError. reflexivity.
Defined.

(** X14: whatever [getNearbyRestaurants] returns comes from the details
    calls: it has no more entries than the search has results, and each
    entry is the record of a details result that came back with status OK
    for one of those results. *)
Theorem getNearbyRestaurants_provenance (env : Places) (lat lng radius : number)
    (rs : list Restaurant) :
  getNearbyRestaurants env lat lng radius = inr rs ->
  exists apiKey nearbyData,
    GOOGLE_PLACES_API_KEY env = Some apiKey
    /\ nearbysearch env lat lng radius apiKey = inr nearbyData
    /\ List.length rs <= List.length (default [] (nr_results nearbyData))
    /\ forall r, In r rs ->
         exists place detailsData res,
           In place (default [] (nr_results nearbyData))
           /\ details env (place_id place) apiKey = inr detailsData
           /\ dr_status detailsData = "OK"
           /\ dr_result detailsData = Some res
           /\ r = toNearbyRestaurant res.
Proof.
  unfold getNearbyRestaurants.
  destruct (GOOGLE_PLACES_API_KEY env) as [apiKey|] eqn:Hkey; [|discriminate].
  cbn [invariant]. destruct (truthyString apiKey); [|discriminate].
  destruct (nearbysearch env lat lng radius apiKey) as [e|nd] eqn:Hs; [discriminate|].
  destruct (negb (String.eqb (nr_status nd) "OK")
            && negb (String.eqb (nr_status nd) "ZERO_RESULTS")); [discriminate|].
  intros H. exists apiKey, nd. split; [reflexivity|]. split; [exact Hs|].
  destruct (String.eqb (nr_status nd) "ZERO_RESULTS" || noResults nd).
  - injection H as <-. split; [cbn; lia|intros r []].
  - destruct (Promise_all _) as [e|l] eqn:E; [discriminate|]. injection H as <-.
    apply Promise_all_inr in E. revert l E.
    induction (default [] (nr_results nd)) as [|place places IH]; intros l E.
    + destruct l; [|discriminate]. split; [cbn; lia|intros r []].
    + destruct l as [|o l]; [discriminate|]. cbn [List.map] in E.
      injection E as Ho E. destruct (IH l E) as [Hlen Hall].
      destruct o as [r0|]; cbn [filterBoolean List.length].
      * split; [lia|]. intros r [<-|Hr].
        -- apply placeDetails_Some in Ho as (dd & res & H1 & H2 & H3 & H4).
           exists place, dd, res. repeat split; auto. now left.
        -- destruct (Hall r Hr) as (p & dd & res & Hp & Hrest).
           exists p, dd, res. split; [now right|exact Hrest].
      * split; [lia|]. intros r Hr.
        destruct (Hall r Hr) as (p & dd & res & Hp & Hrest).
        exists p, dd, res. split; [now right|exact Hrest].
Qed.

Lemma getNearbyRestaurants_provenance_witness :
  getNearbyRestaurants samplePlaces 0%Q 0%Q 1600%Q = inr firstRestaurants
  /\ exists apiKey nearbyData,
       GOOGLE_PLACES_API_KEY samplePlaces = Some apiKey
       /\ nearbysearch samplePlaces 0%Q 0%Q 1600%Q apiKey = inr nearbyData
       /\ List.length firstRestaurants <= List.length (default [] (nr_results nearbyData))
       /\ forall r, In r firstRestaurants ->
            exists place detailsData res,
              In place (default [] (nr_results nearbyData))
              /\ details samplePlaces (place_id place) apiKey = inr detailsData
              /\ dr_status detailsData = "OK"
              /\ dr_result detailsData = Some res
              /\ r = toNearbyRestaurant res.
Proof.
  assert (E : getNearbyRestaurants samplePlaces 0%Q 0%Q 1600%Q = inr firstRestaurants)
    by (vm_compute; reflexivity).
  split; [exact E|].
  exact (getNearbyRestaurants_provenance samplePlaces 0%Q 0%Q 1600%Q firstRestaurants E).
Defined.

(** *** Query filters *)

Lemma parseField_None (lo hi : number) (c : coerced) :
  parseField lo hi c = None <-> rejected lo hi c.
Proof.
  unfold parseField, rejected. destruct c as [| |x].
  - split; [discriminate|]. intros [H|(x & H & _)]; discriminate.
  - split; auto.
  - destruct (Qle_bool lo x) eqn:E1; [destruct (Qle_bool x hi) eqn:E2|]; cbn.
    + split; [discriminate|]. intros [H|(y & H & [Hy|Hy])]; [discriminate| |];
        injection H as <-; apply Qle_bool_iff in E1, E2; lra.
    + split; auto. intros _. right. exists x. split; auto. right.
      now apply Qle_bool_false.
    + split; auto. intros _. right. exists x. split; auto. left.
      now apply Qle_bool_false.
Qed.

Lemma parseField_Some (lo hi : number) (c : coerced) (o : option number) :
  (0 < lo)%Q ->
  parseField lo hi c = Some o ->
  o = match c with Num x => Some x | _ => None end
  /\ forall x, o = Some x -> (lo <= x <= hi)%Q /\ truthyNumber x = true.
Proof.
  intros Hlo. unfold parseField. destruct c as [| |x].
  - intros H. injection H as <-. split; [reflexivity|discriminate].
  - discriminate.
  - destruct (Qle_bool lo x) eqn:E1; [destruct (Qle_bool x hi) eqn:E2|]; cbn;
      try discriminate.
    intros H. injection H as <-. split; [reflexivity|].
    intros y Hy. injection Hy as <-. apply Qle_bool_iff in E1, E2.
    split; [split; assumption|].
    unfold truthyNumber. apply negb_true_iff.
    destruct (Qeq_bool x 0) eqn:E; auto. apply Qeq_bool_iff in E. lra.
Qed.

(** X15: one query parameter that the schema rejects switches every
    filter off.  The parse fails exactly when distance, rating or price is
    not a number or lies outside its bounds, and the nearby list is then
    the one of a query without parameters: within 1 mile, any rating, any
    price, even if the other parameters were valid. *)
Theorem rejected_parameter_disables_filters (query : Query)
    (restaurants : list RestaurantWithDetails) :
  (FilterParamsSchema_safeParse query = None <->
   rejected 1%Q 10%Q (q_distance query) \/ rejected 1%Q 5%Q (q_rating query)
   \/ rejected 1%Q 4%Q (q_price query))
  /\ (FilterParamsSchema_safeParse query = None ->
      restaurantsNearby (FilterParamsSchema_safeParse query) restaurants
      = restaurantsNearby (Some (mkFilters None None None)) restaurants
      /\ forall r, In r (restaurantsNearby (FilterParamsSchema_safeParse query) restaurants) ->
                   (distance r <= 1)%Q).
Proof.
  split.
  - rewrite <- !parseField_None. unfold FilterParamsSchema_safeParse.
    destruct (parseField 1%Q 10%Q (q_distance query)), (parseField 1%Q 5%Q (q_rating query)),
      (parseField 1%Q 4%Q (q_price query)); split; try discriminate; try tauto.
    all: intros [H|[H|H]]; discriminate.
  - intros ->. split; [reflexivity|].
    intros r Hr. unfold restaurantsNearby in Hr. apply slice0_incl in Hr.
    apply (Permutation_in _ (Array_sort_Permutation _ _)) in Hr.
    apply filter_In in Hr as [_ Hf]. apply nearbyFilter_true in Hf as (_ & Hd & _).
    exact Hd.
Qed.

Lemma rejected_parameter_disables_filters_witness :
  rejected 1%Q 5%Q (q_rating badRatingQuery)
  /\ FilterParamsSchema_safeParse badRatingQuery = None
  /\ restaurantsNearby (FilterParamsSchema_safeParse badRatingQuery) sampleList
     = restaurantsNearby (Some (mkFilters None None None)) sampleList
  /\ In placeD (restaurantsNearby (FilterParamsSchema_safeParse badRatingQuery) sampleList)
  /\ (distance placeD <= 1)%Q.
Proof.
  assert (Hrej : rejected 1%Q 5%Q (q_rating badRatingQuery)).
  { right. exists 9%Q. split; [reflexivity|]. right. reflexivity. }
  destruct (rejected_parameter_disables_filters badRatingQuery sampleList) as [H1 H2].
  assert (Hnone : FilterParamsSchema_safeParse badRatingQuery = None).
  { apply (proj2 H1). right. left. exact Hrej. }
  destruct (H2 Hnone) as [H3 H4].
  assert (Hin : In placeD
                  (restaurantsNearby (FilterParamsSchema_safeParse badRatingQuery)
                     sampleList)).
  { vm_compute. left. reflexivity. }
  split; [exact Hrej|]. split; [exact Hnone|]. split; [exact H3|].
  split; [exact Hin|exact (H4 placeD Hin)].
Defined.

(** X16: when the parse succeeds, each filter is the number given in the
    query, or absent when the parameter is; a filter that is present lies
    within its bounds (distance 1 to 10, rating 1 to 5, price 1 to 4); and
    the truthiness test of the loader never drops a parsed filter. *)
Theorem parsed_filters_are_active (query : Query) (data : Filters) :
  FilterParamsSchema_safeParse query = Some data ->
  f_distance data = match q_distance query with Num x => Some x | _ => None end
  /\ f_rating data = match q_rating query with Num x => Some x | _ => None end
  /\ f_price data = match q_price query with Num x => Some x | _ => None end
  /\ (forall x, f_distance data = Some x -> (1 <= x <= 10)%Q)
  /\ (forall x, f_rating data = Some x -> (1 <= x <= 5)%Q)
  /\ (forall x, f_price data = Some x -> (1 <= x <= 4)%Q)
  /\ active (Some data) f_distance = f_distance data
  /\ active (Some data) f_rating = f_rating data
  /\ active (Some data) f_price = f_price data.
Proof.
  unfold FilterParamsSchema_safeParse.
  destruct (parseField 1%Q 10%Q (q_distance query)) as [d|] eqn:Ed; [|discriminate].
  destruct (parseField 1%Q 5%Q (q_rating query)) as [r|] eqn:Er; [|discriminate].
  destruct (parseField 1%Q 4%Q (q_price query)) as [p|] eqn:Ep; [|discriminate].
  intros H. injection H as <-. cbn [f_distance f_rating f_price].
  assert (Hpos : (0 < 1)%Q) by reflexivity.
  destruct (parseField_Some _ _ _ _ Hpos Ed) as [Hd1 Hd2].
  destruct (parseField_Some _ _ _ _ Hpos Er) as [Hr1 Hr2].
  destruct (parseField_Some _ _ _ _ Hpos Ep) as [Hp1 Hp2].
  split; [exact Hd1|]. split; [exact Hr1|]. split; [exact Hp1|].
  split; [intros x Hx; now apply Hd2|]. split; [intros x Hx; now apply Hr2|].
  split; [intros x Hx; now apply Hp2|].
  unfold active. cbn [f_distance f_rating f_price].
  split; [|split].
  - destruct d as [x|]; [|reflexivity]. now rewrite (proj2 (Hd2 x eq_refl)).
  - destruct r as [x|]; [|reflexivity]. now rewrite (proj2 (Hr2 x eq_refl)).
  - destruct p as [x|]; [|reflexivity]. now rewrite (proj2 (Hp2 x eq_refl)).
Qed.

Lemma parsed_filters_are_active_witness :
  FilterParamsSchema_safeParse (mkQuery (Num 2%Q) (Num 4%Q) Undefined)
    = Some (mkFilters (Some 2%Q) (Some 4%Q) None)
  /\ (1 <= 2 <= 10)%Q /\ (1 <= 4 <= 5)%Q
  /\ active (Some (mkFilters (Some 2%Q) (Some 4%Q) None)) f_distance = Some 2%Q
  /\ active (Some (mkFilters (Some 2%Q) (Some 4%Q) None)) f_rating = Some 4%Q
  /\ active (Some (mkFilters (Some 2%Q) (Some 4%Q) None)) f_price = None.
Proof.
  assert (E : FilterParamsSchema_safeParse (mkQuery (Num 2%Q) (Num 4%Q) Undefined)
              = Some (mkFilters (Some 2%Q) (Some 4%Q) None)) by reflexivity.
  destruct (parsed_filters_are_active _ _ E)
    as (_ & _ & _ & H4 & H5 & _ & H7 & H8 & H9).
  split; [exact E|]. split; [exact (H4 2%Q eq_refl)|]. split; [exact (H5 4%Q eq_refl)|].
  split; [exact H7|]. split; [exact H8|exact H9].
Defined.

Lemma StronglySorted_app_order {A} (R : A -> A -> Prop) (l1 l2 : list A) :
  StronglySorted R (l1 ++ l2) -> forall a b, In a l1 -> In b l2 -> R a b.
Proof.
  induction l1 as [|x l1 IH]; cbn; intros Hs a b Ha Hb; [destruct Ha|].
  inversion Hs as [|? ? Hs' Hall]; subst.
  destruct Ha as [<-|Ha]; [|now apply IH].
  rewrite List.Forall_forall in Hall. apply Hall. apply in_app_iff. now right.
Qed.

(** X17: the nearby list is the best thirty of the matches.  Nothing is
    dropped while at most 30 restaurants pass the filters; beyond that the
    list has exactly 30 entries, and every entry kept comes before every
    restaurant dropped in the order of the list: rating descending, then
    distance ascending. *)
Theorem restaurantsNearby_best_thirty (filterParams : option Filters)
    (restaurants : list RestaurantWithDetails) :
  exists dropped,
    Permutation (restaurantsNearby filterParams restaurants ++ dropped)
                (List.filter (nearbyFilter filterParams) restaurants)
    /\ List.length (restaurantsNearby filterParams restaurants)
       = Nat.min 30 (List.length (List.filter (nearbyFilter filterParams) restaurants))
    /\ (List.length (List.filter (nearbyFilter filterParams) restaurants) <= 30 ->
        dropped = [])
    /\ forall kept x,
         In kept (restaurantsNearby filterParams restaurants) -> In x dropped ->
         byRatingThenDistance kept x.
Proof.
  unfold restaurantsNearby, slice0.
  set (matches := List.filter (nearbyFilter filterParams) restaurants).
  set (sorted := Array_sort compareNearby matches).
  assert (Hperm : Permutation sorted matches) by apply Array_sort_Permutation.
  assert (Hlen : List.length sorted = List.length matches)
    by now apply Permutation_length.
  exists (List.skipn 30 sorted). split; [|split; [|split]].
  - now rewrite List.firstn_skipn.
  - rewrite List.length_firstn, Hlen. reflexivity.
  - intros H. apply List.skipn_all2. lia.
  - apply StronglySorted_app_order. rewrite List.firstn_skipn.
    apply Array_sort_sorted.
    + intros x y H. now apply compareNearby_le.
    + apply compareNearby_gt.
    + apply byRatingThenDistance_trans.
Qed.

Lemma restaurantsNearby_best_thirty_witness :
  List.length (List.filter (nearbyFilter noFilters) manyPlaces) = 32
  /\ List.length (restaurantsNearby noFilters manyPlaces) = 30
  /\ exists dropped,
       Permutation (restaurantsNearby noFilters manyPlaces ++ dropped)
                   (List.filter (nearbyFilter noFilters) manyPlaces)
       /\ List.length (restaurantsNearby noFilters manyPlaces)
          = Nat.min 30 (List.length (List.filter (nearbyFilter noFilters) manyPlaces))
       /\ (List.length (List.filter (nearbyFilter noFilters) manyPlaces) <= 30 ->
           dropped = [])
       /\ forall kept x,
            In kept (restaurantsNearby noFilters manyPlaces) -> In x dropped ->
            byRatingThenDistance kept x.
Proof.
  split; [vm_compute; reflexivity|]. split; [vm_compute; reflexivity|].
  exact (restaurantsNearby_best_thirty noFilters manyPlaces).
Defined.

(** *** The form action *)

(** X18: the action answers a malformed form with the error payload and
    leaves the store as it is, whatever the store: when the intent is
    missing, is a file, is neither join nor leave, or is join without a
    text restaurantId.  On a well-formed store the action never throws, and
    the store stays well-formed. *)
Theorem action_rejects_malformed (userId : string) (formData : list (string * FormValue))
    (d : Db) :
  (fromEntries_get "intent" formData = None
   \/ fromEntries_get "intent" formData = Some Upload
   \/ (exists s, fromEntries_get "intent" formData = Some (Text s)
                 /\ s <> "join" /\ s <> "leave")
   \/ (fromEntries_get "intent" formData = Some (Text "join")
       /\ forall r, fromEntries_get "restaurantId" formData <> Some (Text r)) ->
   action userId formData d = (d, inr (mkActionResult "error" "Invalid form data")))
  /\ (store_inv d ->
      exists d' res, action userId formData d = (d', inr res) /\ store_inv d').
Proof.
  split.
  - unfold action, ActionSchema_safeParse.
    intros [H|[H|[(s & H & H1 & H2)|[H H1]]]]; rewrite H; try reflexivity.
    + destruct (String.eqb_spec s "join"); [contradiction|].
      destruct (String.eqb_spec s "leave"); [contradiction|reflexivity].
    + cbn. destruct (fromEntries_get "restaurantId" formData) as [[r|]|]; try reflexivity.
      now destruct (H1 r).
  - intros Hinv. unfold action.
    destruct (ActionSchema_safeParse formData) as [[r|]|].
    + destruct (join_spec userId r d Hinv) as (d' & a & E & Hinv' & _).
      exists d', (mkActionResult "success" "Joined dinner group").
      unfold bind. rewrite E. auto.
    + destruct (leave_spec userId d Hinv) as (d' & r & E & Hinv' & _).
      exists d', (mkActionResult "success" "Left dinner group").
      unfold bind. rewrite E. auto.
    + exists d, (mkActionResult "error" "Invalid form data"). auto.
Qed.

Lemma action_rejects_malformed_witness :
  (exists s, fromEntries_get "intent" danceForm = Some (Text s)
             /\ s <> "join" /\ s <> "leave")
  /\ action "alice" danceForm sampleDb
     = (sampleDb, inr (mkActionResult "error" "Invalid form data"))
  /\ store_inv sampleDb
  /\ exists d' res, action "alice" joinForm sampleDb = (d', inr res) /\ store_inv d'.
Proof.
  assert (Hbad : exists s, fromEntries_get "intent" danceForm = Some (Text s)
                           /\ s <> "join" /\ s <> "leave").
  { exists "dance". split; [reflexivity|]. split; discriminate. }
  assert (Hinv : store_inv sampleDb) by (apply store_invb_sound; vm_compute; reflexivity).
  split; [exact Hbad|]. split.
  - apply (proj1 (action_rejects_malformed "alice" danceForm sampleDb)).
    right. right. left. exact Hbad.
  - split; [exact Hinv|].
    exact (proj2 (action_rejects_malformed "alice" joinForm sampleDb) Hinv).
Defined.

(** X19: on a well-formed store, a form with intent join and a text
    restaurantId answers success and moves the user to that restaurant, a
    form with intent leave answers success and takes the user out of their
    group; in both cases every other user dines where they dined before. *)
Theorem action_effect (userId : string) (formData : list (string * FormValue)) (d : Db) :
  store_inv d ->
  (forall restaurantId,
     fromEntries_get "intent" formData = Some (Text "join") ->
     fromEntries_get "restaurantId" formData = Some (Text restaurantId) ->
     snd (action userId formData d) = inr (mkActionResult "success" "Joined dinner group")
     /\ forall v r, memberOf (fst (action userId formData d)) v r <->
                    (v = userId /\ r = restaurantId) \/ (v <> userId /\ memberOf d v r))
  /\ (fromEntries_get "intent" formData = Some (Text "leave") ->
      snd (action userId formData d) = inr (mkActionResult "success" "Left dinner group")
      /\ forall v r, memberOf (fst (action userId formData d)) v r <->
                     v <> userId /\ memberOf d v r).
Proof.
  intros Hinv. split.
  - intros r Hi Hr. unfold action, ActionSchema_safeParse. rewrite Hi, Hr. cbn.
    destruct (join_spec userId r d Hinv) as (d' & a & E & _).
    pose proof (join_member userId r d d' a Hinv E) as Hm.
    unfold bind. rewrite E. cbn [fst snd ret]. split; [reflexivity|exact Hm].
  - intros Hi. unfold action, ActionSchema_safeParse. rewrite Hi. cbn.
    destruct (leave_spec userId d Hinv) as (d' & r & E & _).
    pose proof (leave_member userId d d' r Hinv E) as Hm.
    unfold bind. rewrite E. cbn [fst snd ret]. split; [reflexivity|exact Hm].
Qed.

Lemma action_effect_witness :
  store_inv sampleDb
  /\ fromEntries_get "intent" joinForm = Some (Text "join")
  /\ fromEntries_get "restaurantId" joinForm = Some (Text "r2")
  /\ fromEntries_get "intent" leaveForm = Some (Text "leave")
  /\ snd (action "alice" joinForm sampleDb)
     = inr (mkActionResult "success" "Joined dinner group")
  /\ (forall v r, memberOf (fst (action "alice" joinForm sampleDb)) v r <->
                  (v = "alice" /\ r = "r2") \/ (v <> "alice" /\ memberOf sampleDb v r))
  /\ snd (action "alice" leaveForm sampleDb)
     = inr (mkActionResult "success" "Left dinner group")
  /\ (forall v r, memberOf (fst (action "alice" leaveForm sampleDb)) v r <->
                  v <> "alice" /\ memberOf sampleDb v r).
Proof.
  assert (Hinv : store_inv sampleDb) by (apply store_invb_sound; vm_compute; reflexivity).
  destruct (proj1 (action_effect "alice" joinForm sampleDb Hinv) "r2" eq_refl eq_refl)
    as [H1 H2].
  destruct (proj2 (action_effect "alice" leaveForm sampleDb Hinv) eq_refl) as [H3 H4].
  split; [exact Hinv|]. split; [reflexivity|]. split; [reflexivity|].
  split; [reflexivity|]. split; [exact H1|]. split; [exact H2|].
  split; [exact H3|exact H4].
Defined.

(** *** The photo proxy *)

Lemma orDefault_unset (a : option string) (b : string) :
  a = None \/ a = Some "" -> orDefault a b = b.
Proof. intros [->| ->]; reflexivity. Qed.

Lemma orDefault_set (v b : string) : v <> "" -> orDefault (Some v) b = v.
Proof.
  intros H. unfold orDefault, truthyString.
  destruct (String.eqb_spec v ""); [contradiction|reflexivity].
Qed.

(** X20: the photo proxy sends no request when its inputs are missing: a
    missing or empty photoRef throws "photoRef is required", and with a
    photoRef but no API key it throws that the key must be set. *)
Theorem photoLoader_guards (apiKey : option string)
    (fetch : list (string * string) -> option Upstream) (q : PhotoQuery) :
  (pq_photoRef q = None \/ pq_photoRef q = Some "" ->
   photoLoader apiKey fetch q = ([], ThrownError "photoRef is required"))
  /\ (forall ref, pq_photoRef q = Some ref -> ref <> "" ->
        apiKey = None \/ apiKey = Some "" ->
        photoLoader apiKey fetch q = ([], ThrownError "GOOGLE_PLACES_API_KEY must be set")).
Proof.
  split.
  - unfold photoLoader. intros [->| ->]; reflexivity.
  - intros ref Hq Hne Hkey. unfold photoLoader.
    rewrite Hq, (invariant_set _ _ Hne). destruct Hkey as [->| ->]; reflexivity.
Qed.

Lemma photoLoader_guards_witness :
  photoLoader (Some "key") photoFetch (mkPhotoQuery (Some "") None None)
    = ([], ThrownError "photoRef is required")
  /\ "ref1" <> ""
  /\ photoLoader None photoFetch (mkPhotoQuery (Some "ref1") None None)
     = ([], ThrownError "GOOGLE_PLACES_API_KEY must be set").
Proof.
  assert (Hne : "ref1" <> "") by discriminate.
  split.
  - exact (proj1 (photoLoader_guards (Some "key") photoFetch
                    (mkPhotoQuery (Some "") None None)) (or_intror eq_refl)).
  - split; [exact Hne|].
    exact (proj2 (photoLoader_guards None photoFetch
                    (mkPhotoQuery (Some "ref1") None None))
             "ref1" eq_refl Hne (or_introl eq_refl)).
Defined.

(** X21: with a photoRef and an API key the proxy sends exactly one
    request, carrying the photoRef, the key, and the sizes of the query or
    400 by 300 where they are missing or empty.  It returns only when the
    upstream status is 200 to 299, and then with status 200, the 24-hour
    Cache-Control header, the upstream body, and the upstream Content-Type
    or image/jpeg when there is none.  An upstream status from 300 to 599
    other than 304 is thrown as a response with that same status; on 304
    no response is thrown: building it fails with a TypeError, since 304
    admits no body. *)
Theorem photoLoader_proxy (apiKey : option string)
    (fetch : list (string * string) -> option Upstream) (q : PhotoQuery)
    (ref key : string) :
  pq_photoRef q = Some ref -> ref <> "" -> apiKey = Some key -> key <> "" ->
  exists maxWidth maxHeight,
    (pq_maxWidth q = None \/ pq_maxWidth q = Some "" -> maxWidth = "400")
    /\ (forall w, pq_maxWidth q = Some w -> w <> "" -> maxWidth = w)
    /\ (pq_maxHeight q = None \/ pq_maxHeight q = Some "" -> maxHeight = "300")
    /\ (forall h, pq_maxHeight q = Some h -> h <> "" -> maxHeight = h)
    /\ fst (photoLoader apiKey fetch q)
       = [[("photoreference", ref); ("maxwidth", maxWidth);
           ("maxheight", maxHeight); ("key", key)]]
    /\ forall up,
         fetch [("photoreference", ref); ("maxwidth", maxWidth);
                ("maxheight", maxHeight); ("key", key)] = Some up ->
         ((200 <= up_status up <= 299)%Z ->
          exists contentType,
            snd (photoLoader apiKey fetch q)
            = Returned (mkHttpResponse 200
                          [("Cache-Control", "public, max-age=86400");
                           ("Content-Type", contentType)] (up_body up))
            /\ (up_contentType up = None \/ up_contentType up = Some "" ->
                contentType = "image/jpeg")
            /\ (forall c, up_contentType up = Some c -> c <> "" -> contentType = c))
         /\ ((300 <= up_status up <= 599)%Z -> up_status up <> 304%Z ->
             snd (photoLoader apiKey fetch q)
             = ThrownResponse (mkHttpResponse (up_status up) [] "Failed to fetch photo"))
         /\ (up_status up = 304%Z ->
             snd (photoLoader apiKey fetch q) = ThrownTypeError)
         /\ (forall r, snd (photoLoader apiKey fetch q) = Returned r ->
                       (200 <= up_status up <= 299)%Z /\ res_status r = 200%Z).
Proof.
  intros Hq Hne -> Hk.
  exists (orDefault (pq_maxWidth q) "400"), (orDefault (pq_maxHeight q) "300").
  split; [apply orDefault_unset|].
  split; [intros w -> Hw; now apply orDefault_set|].
  split; [apply orDefault_unset|].
  split; [intros h -> Hh; now apply orDefault_set|].
  set (params := [("photoreference", ref); ("maxwidth", orDefault (pq_maxWidth q) "400");
                  ("maxheight", orDefault (pq_maxHeight q) "300"); ("key", key)]).
  assert (E : photoLoader (Some key) fetch q =
              match fetch params with
              | None => ([params], FetchRejected)
              | Some response =>
                  if negb (responseOk (up_status response)) then
                    if (200 <=? up_status response)%Z && (up_status response <=? 599)%Z
                    then
                      if nullBodyStatus (up_status response)
                      then ([params], ThrownTypeError)
                      else ([params], ThrownResponse
                              (mkHttpResponse (up_status response) [] "Failed to fetch photo"))
                    else ([params], ThrownRangeError)
                  else
                    ([params], Returned
                       (mkHttpResponse 200
                          [("Cache-Control", "public, max-age=86400");
                           ("Content-Type",
                            orDefault (up_contentType response) "image/jpeg")]
                          (up_body response)))
              end).
  { unfold photoLoader. rewrite Hq, (invariant_set _ _ Hne), (invariant_set _ _ Hk).
    reflexivity. }
  rewrite E. split.
  - destruct (fetch params) as [up|]; [|reflexivity].
    destruct (negb (responseOk (up_status up))); [|reflexivity].
    destruct ((200 <=? up_status up)%Z && (up_status up <=? 599)%Z); [|reflexivity].
    destruct (nullBodyStatus (up_status up)); reflexivity.
  - intros up ->. split; [|split; [|split]].
    + intros Hok.
      assert (Eok : responseOk (up_status up) = true).
      { unfold responseOk. apply andb_true_intro. split; apply Z.leb_le; lia. }
      rewrite Eok. cbn [negb snd]. eexists. split; [reflexivity|]. split;
        [apply orDefault_unset|intros c -> Hc; now apply orDefault_set].
    + intros Hbad H304.
      assert (Eok : responseOk (up_status up) = false).
      { unfold responseOk. apply andb_false_intro2. apply Z.leb_gt. lia. }
      assert (Erange : (200 <=? up_status up)%Z && (up_status up <=? 599)%Z = true).
      { apply andb_true_intro. split; apply Z.leb_le; lia. }
      assert (Enull : nullBodyStatus (up_status up) = false).
      { unfold nullBodyStatus.
        repeat (apply orb_false_intro); apply Z.eqb_neq; lia. }
      rewrite Eok, Erange, Enull. reflexivity.
    + intros H304. rewrite H304. reflexivity.
    + intros r Hr. destruct (responseOk (up_status up)) eqn:Eok; cbn [negb] in Hr.
      * injection Hr as <-. unfold responseOk in Eok.
        apply andb_true_iff in Eok as [E1 E2].
        apply Z.leb_le in E1. apply Z.leb_le in E2. split; [lia|reflexivity].
      * destruct ((200 <=? up_status up)%Z && (up_status up <=? 599)%Z);
          [destruct (nullBodyStatus (up_status up))|]; discriminate.
Qed.

Lemma photoLoader_proxy_witness :
  "ref1" <> "" /\ "key" <> ""
  /\ exists maxWidth maxHeight,
       maxWidth = "400" /\ maxHeight = "200"
       /\ fst (photoLoader (Some "key") photoFetch
                 (mkPhotoQuery (Some "ref1") (Some "") (Some "200")))
          = [[("photoreference", "ref1"); ("maxwidth", maxWidth);
              ("maxheight", maxHeight); ("key", "key")]]
       /\ snd (photoLoader (Some "key") photoFetch
                 (mkPhotoQuery (Some "ref1") (Some "") (Some "200")))
          = Returned (mkHttpResponse 200
                        [("Cache-Control", "public, max-age=86400");
                         ("Content-Type", "image/png")] "PNG").
Proof.
  assert (Hr : "ref1" <> "") by discriminate.
  assert (Hk : "key" <> "") by discriminate.
  assert (Hh : "200" <> "") by discriminate.
  split; [exact Hr|]. split; [exact Hk|].
  destruct (photoLoader_proxy (Some "key") photoFetch
              (mkPhotoQuery (Some "ref1") (Some "") (Some "200")) "ref1" "key"
              eq_refl Hr eq_refl Hk)
    as (w & h & Hw & _ & _ & Hh' & Hreq & Hup).
  pose proof (Hw (or_intror eq_refl)) as Ew. pose proof (Hh' "200" eq_refl Hh) as Eh.
  subst w h. exists "400", "200".
  split; [reflexivity|]. split; [reflexivity|]. split; [exact Hreq|].
  destruct (Hup (mkUpstream 200 (Some "image/png") "PNG") eq_refl) as (Hok & _).
  destruct Hok as (ct & Eret & _ & Hct); [cbn; lia|].
  assert (Hpng : "image/png" <> "") by discriminate.
  rewrite (Hct "image/png" eq_refl Hpng) in Eret. exact Eret.
Defined.
